(** * SandeshWAP / proj_fastapi: the authentication and session core

    A shallow embedding of the token manager, the key-value store manager,
    the rate limiter, the password engine, the auth endpoints and the
    WebSocket connection manager, followed by the properties checked
    against them.

    Conventions.
    - Wall-clock instants ([datetime.now(timezone.utc).timestamp()],
      [time.time()]) are whole microseconds since the epoch, held in [Z];
      a float number of seconds is the same count of microseconds.
      [int(x)] on such a number is truncation towards zero to whole
      seconds.
    - A Python call either returns or raises: [outcome].
    - A call is served at one clock instant: the clock does not move
      between two reads inside one call. *)

From Stdlib Require Import ZArith Lia.
From stdpp Require Import base option list gmap strings pretty.

Local Open Scope Z_scope.

(** ** Python values and control flow *)

Module Py.

(** Exceptions the modelled code can see. *)
Inductive exn : Type :=
| ConnectionError      (* redis: server unreachable, time out *)
| ResponseError        (* redis: command refused by the server *)
| TypeError
| ValueError
| RuntimeError (msg : string)
| JWTError             (* jose: bad signature, malformed or expired token *)
| VerifyMismatchError  (* argon2: the password does not match the hash *)
| HashingError         (* argon2: the hashing itself failed *)
| SQLAlchemyError      (* relational store failure *)
| AuthenticationError (detail : string)   (* app.core.auth, a 401 *)
| HTTPException (status_code : Z) (detail : string)
| OtherError (msg : string).

Inductive outcome (A : Type) : Type :=
| Returns (a : A)
| Raises (e : exn).
Arguments Returns {A} a.
Arguments Raises {A} e.

Definition bind {A B} (m : outcome A) (k : A -> outcome B) : outcome B :=
  match m with
  | Returns a => k a
  | Raises e => Raises e
  end.

(** [try: body  except Exception as e: handler e] *)
Definition try_except {A} (body : outcome A) (handler : exn -> outcome A)
  : outcome A :=
  match body with
  | Returns a => Returns a
  | Raises e => handler e
  end.

Definition raised {A} (m : outcome A) : bool :=
  match m with Returns _ => false | Raises _ => true end.

(** JSON-like values held in token claims and dictionaries.  A float is
    held in millionths: [VFloat n] is the number n / 10^6. *)
Inductive value : Type :=
| VNone
| VBool (b : bool)
| VInt (n : Z)
| VFloat (n : Z)
| VStr (s : string).

#[global] Instance value_eq_dec : EqDecision value.
Proof. solve_decision. Defined.

(** Truthiness of a value ([if not x]). *)
Definition truthy (v : value) : bool :=
  match v with
  | VNone => false
  | VBool b => b
  | VInt n | VFloat n => negb (n =? 0)
  | VStr s => negb (String.eqb s "")
  end.

(** [d.update(e)]: the keys of [e] win. *)
Definition update (d e : gmap string value) : gmap string value := e ∪ d.

(** [d.get(k)]: [None] both for a missing key and for a stored [None]. *)
Definition get (d : gmap string value) (k : string) : value :=
  default VNone (d !! k).

Definition MICROS : Z := 1000000.

(** [int(x)] for a float number of seconds [x] held in microseconds. *)
Definition int_seconds (x : Z) : Z := Z.quot x MICROS.

End Py.
Export Py.

#[global] Instance outcome_bind : MBind outcome := λ A B k m, Py.bind m k.
#[global] Instance outcome_ret : MRet outcome := @Py.Returns.

(** ** Configuration

    [app/core/config.py] as shipped does not declare the options the core
    reads ([settings.secret_key], [settings.cache_namespace], ...), so they
    are taken as parameters. *)

Record Settings : Type := {
  secret_key : string;
  algorithm : string;
  access_token_expire_minutes : Z;
  refresh_token_expire_days : Z;
  password_reset_token_expire_hours : Z;
  cache_ttl : Z;
  cache_namespace : string;
  redis_session_expire : Z;
  feature_email_verification : bool
}.

(** ** app/core/redis.py *)

Module redis.

(** *** The server: keys with an optional expiry, holding a string or a
    sorted set.  A sorted set maps members to scores; the only members
    the core stores are decimal renderings of integers, so the integer
    stands for its rendering. *)
Inductive rvalue : Type :=
| RString (s : string)
| RZSet (z : gmap Z Z).

Record entry : Type := { val : rvalue; expire_at : option Z }.

Record server : Type := { reachable : bool; keyspace : gmap string entry }.

(** The server serves a key up to and including the instant of its expiry:
    it is gone once the clock has passed it. *)
Definition expired (e : entry) (now : Z) : bool :=
  match expire_at e with
  | Some t => t <? now
  | None => false
  end.

(** The entry under [key] at instant [now], expired keys being gone. *)
Definition live (ks : gmap string entry) (key : string) (now : Z)
  : option entry :=
  match ks !! key with
  | Some e => if expired e now then None else Some e
  | None => None
  end.

(** EXISTS key *)
Definition cmd_exists (ks : gmap string entry) (key : string) (now : Z) : bool :=
  bool_decide (is_Some (live ks key now)).

(** SET key value EX seconds *)
Definition cmd_set (ks : gmap string entry) (key value : string) (ex now : Z)
  : outcome (gmap string entry) :=
  if ex <=? 0 then Raises ResponseError
  else Returns (<[key := {| val := RString value;
                            expire_at := Some (now + ex * MICROS) |}]> ks).

(** The sorted set under [key]; a key of another type refuses the command. *)
Definition zset_at (ks : gmap string entry) (key : string) (now : Z)
  : outcome (gmap Z Z) :=
  match live ks key now with
  | None => Returns ∅
  | Some {| val := RZSet z |} => Returns z
  | Some {| val := RString _ |} => Raises ResponseError
  end.

(** ZREMRANGEBYSCORE: drop the members whose score lies in [lo, hi]. *)
Definition zremrangebyscore (lo hi : Z) (z : gmap Z Z) : gmap Z Z :=
  filter (λ ms : Z * Z, ¬ (lo ≤ ms.2 ∧ ms.2 ≤ hi)) z.

(** ZCARD *)
Definition zcard (z : gmap Z Z) : Z := Z.of_nat (size z).

(** ZADD key score member: a member already present only gets the score. *)
Definition zadd (score member : Z) (z : gmap Z Z) : gmap Z Z :=
  <[member := score]> z.

(** Writing a sorted set back: an empty set is no key at all. *)
Definition store_zset (ks : gmap string entry) (key : string) (z : gmap Z Z)
    (exp : option Z) : gmap string entry :=
  if decide (z = ∅) then delete key ks
  else <[key := {| val := RZSet z; expire_at := exp |}]> ks.

Definition expiry_at (ks : gmap string entry) (key : string) (now : Z)
  : option Z :=
  match live ks key now with
  | Some e => expire_at e
  | None => None
  end.

(** The Lua script of [rate_limit], run atomically at server instant
    [clock] with ARGV = [window; limit; now]. *)
Definition lua_script (ks : gmap string entry) (key : string)
    (window limit now clock : Z)
  : outcome (gmap string entry * (Z * Z * Z)) :=
  (* redis.call('ZREMRANGEBYSCORE', key, 0, now - window) *)
  z0 ← zset_at ks key clock;
  let z1 := zremrangebyscore 0 (now - window) z0 in
  let ks1 := store_zset ks key z1 (expiry_at ks key clock) in
  (* local current = redis.call('ZCARD', key) *)
  let current := zcard z1 in
  if current <? limit then
    (* redis.call('ZADD', key, now, now) *)
    let z2 := zadd now now z1 in
    (* redis.call('EXPIRE', key, window): a timeout that is not positive
       removes the key at once *)
    let ks2 :=
      if window <=? 0 then delete key ks1
      else store_zset ks1 key z2 (Some (clock + window * MICROS)) in
    Returns (ks2, (1, limit - current - 1, now + window))
  else
    Returns (ks1, (0, 0, now + window)).

(** *** The client: every command fails when the server is unreachable. *)
Definition client_exists (srv : server) (key : string) (now : Z) : outcome bool :=
  if reachable srv then Returns (cmd_exists (keyspace srv) key now)
  else Raises ConnectionError.

Definition client_set (srv : server) (key value : string) (ex now : Z)
  : outcome (server * bool) :=
  if reachable srv then
    ks ← cmd_set (keyspace srv) key value ex now;
    Returns ({| reachable := true; keyspace := ks |}, true)
  else Raises ConnectionError.

Definition client_eval (srv : server) (key : string) (window limit now clock : Z)
  : outcome (server * (Z * Z * Z)) :=
  if reachable srv then
    r ← lua_script (keyspace srv) key window limit now clock;
    Returns ({| reachable := true; keyspace := r.1 |}, r.2)
  else Raises ConnectionError.

(** *** RedisManager *)
Record RedisManager : Type := { redis_client : option server }.

Section Manager.
Context (settings : Settings).

(** [RedisManager.exists] *)
Definition exists_ (self : RedisManager) (key : string) (now : Z)
  : outcome bool :=
  match redis_client self with
  | None => Returns false
  | Some c =>
      try_except (client_exists c key now)
        (fun _ => (* logger.error *) Returns false)
  end.

(** [RedisManager.set]; [expire or settings.cache_ttl]. *)
Definition set (self : RedisManager) (key value : string)
    (expire : option Z) (now : Z) : outcome (RedisManager * bool) :=
  match redis_client self with
  | None => Returns (self, false)
  | Some c =>
      let ex := match expire with
                | Some e => if e =? 0 then cache_ttl settings else e
                | None => cache_ttl settings
                end in
      try_except
        (r ← client_set c key value ex now;
         Returns ({| redis_client := Some r.1 |}, r.2))
        (fun _ => Returns (self, false))
  end.

(** The key of a rate-limit window. *)
Definition rate_key (key identifier : string) : string :=
  cache_namespace settings +:+ ":rate_limit:" +:+ key +:+ ":" +:+ identifier.

(** [RedisManager.rate_limit]: (allowed, remaining, reset_time). *)
Definition rate_limit (self : RedisManager) (key : string)
    (limit window : Z) (identifier : string) (clock : Z)
  : outcome (RedisManager * (bool * Z * Z)) :=
  match redis_client self with
  | None => Returns (self, (true, limit, 0))
  | Some c =>
      try_except
        (let now := int_seconds clock in
         r ← client_eval c (rate_key key identifier) window limit now clock;
         let '(r0, r1, r2) := r.2 in
         Returns ({| redis_client := Some r.1 |}, (negb (r0 =? 0), r1, r2)))
        (fun _ => (* Fail open *) Returns (self, (true, limit, 0)))
  end.

End Manager.

(** A run of [rate_limit] calls by one identifier at the given instants:
    the verdicts in order, with the manager left behind. *)
Fixpoint rate_limit_run (settings : Settings) (self : RedisManager)
    (key : string) (limit window : Z) (identifier : string)
    (clocks : list Z) : RedisManager * list bool :=
  match clocks with
  | [] => (self, [])
  | t :: ts =>
      match rate_limit settings self key limit window identifier t with
      | Returns (self', (allowed, _, _)) =>
          let r := rate_limit_run settings self' key limit window identifier ts in
          (r.1, allowed :: r.2)
      | Raises _ => (self, [])
      end
  end.

End redis.

(** ** app/core/security.py *)

Module security.

Section PasswordManager.
(** [self.hasher.verify(hash, password)] of argon2-cffi: returns [True]
    or raises.  The stored hash is [None] for OAuth-only users. *)
Context (hasher_verify : option string -> string -> outcome bool).

(** [PasswordManager.verify_password] *)
Definition verify_password (plain_password : string)
    (hashed_password : option string) : outcome bool :=
  try_except
    (_ ← hasher_verify hashed_password plain_password;
     Returns true)
    (fun e =>
       match e with
       | VerifyMismatchError => Returns false
       | HashingError => (* logger.error *) Returns false
       | _ => (* logger.error "Unexpected ..." *) Returns false
       end).

End PasswordManager.

(** Characters [str.strip()] removes, within ASCII. *)
Definition is_space (c : Ascii.ascii) : bool :=
  let n := Ascii.nat_of_ascii c in
  ((9 <=? n) && (n <=? 13) || (28 <=? n) && (n <=? 32))%nat.

Fixpoint lstrip (s : string) : string :=
  match s with
  | String c s' => if is_space c then lstrip s' else s
  | EmptyString => EmptyString
  end.

Fixpoint rstrip (s : string) : string :=
  match s with
  | String c s' =>
      match rstrip s' with
      | EmptyString => if is_space c then EmptyString else String c EmptyString
      | r => String c r
      end
  | EmptyString => EmptyString
  end.

(** [str.lower()], within ASCII: the letters A to Z are folded, every
    other character is kept. *)
Definition lower_ascii (c : Ascii.ascii) : Ascii.ascii :=
  let n := Ascii.nat_of_ascii c in
  if ((65 <=? n) && (n <=? 90))%nat then Ascii.ascii_of_nat (n + 32) else c.

Fixpoint lower (s : string) : string :=
  match s with
  | String c s' => String (lower_ascii c) (lower s')
  | EmptyString => EmptyString
  end.

(** [InputSanitizer.sanitize_email]: [email.strip().lower()]. *)
Definition sanitize_email (email : string) : string :=
  lower (rstrip (lstrip email)).

End security.

(** ** app/core/auth.py *)

Module auth.

Definition claims_of (l : list (string * value)) : gmap string value :=
  list_to_map l.

Record TokenPair : Type := {
  access_token : string;
  refresh_token : string;
  token_type : string;
  expires_in : Z
}.

(** [datetime.fromtimestamp(x, tz=timezone.utc)]: a number (a bool counts
    as one) inside the years 1..9999, anything else raises. *)
Definition MIN_TIMESTAMP : Z := -62135596800 * MICROS.
Definition MAX_TIMESTAMP : Z := 253402300800 * MICROS.

Definition as_number (v : value) : outcome Z :=
  match v with
  | VFloat n => Returns n
  | VInt n => Returns (n * MICROS)
  | VBool b => Returns (if b then MICROS else 0)
  | VNone | VStr _ => Raises TypeError
  end.

Definition fromtimestamp (v : value) : outcome Z :=
  n ← as_number v;
  if (MIN_TIMESTAMP <=? n) && (n <? MAX_TIMESTAMP) then Returns n
  else Raises ValueError.

Section JWT.
Context (settings : Settings).
(** python-jose: [jwt.encode(claims, key, algorithm)] and
    [jwt.decode(token, key, algorithms)] read at instant [now] (the
    library checks the signature and the registered claims, and raises
    [JWTError] when it refuses the token). *)
Context (jwt_encode : gmap string value -> string -> string -> string).
Context (jwt_decode : string -> string -> list string -> Z
                      -> outcome (gmap string value)).

(** [if expires_delta: now + expires_delta else now + default]; a
    [timedelta] is a count of microseconds, and a zero one is falsy. *)
Definition expire_at (expires_delta : option Z) (default_delta now : Z) : Z :=
  match expires_delta with
  | Some d => if d =? 0 then now + default_delta else now + d
  | None => now + default_delta
  end.

(** [JWTTokenManager.create_access_token].  The source reads the clock
    once for [exp] and once more for [iat]; [now] stands for both
    readings, taken as one instant. *)
Definition create_access_token (data : gmap string value)
    (expires_delta : option Z) (now : Z) : string :=
  let to_encode := data in
  let expire :=
    expire_at expires_delta
      (access_token_expire_minutes settings * 60 * MICROS) now in
  let to_encode :=
    update to_encode
      (claims_of [("exp", VFloat expire); ("iat", VFloat now);
                  ("type", VStr "access")]) in
  jwt_encode to_encode (secret_key settings) (algorithm settings).

(** [JWTTokenManager.create_refresh_token], with [now] for both readings
    of the clock as above. *)
Definition create_refresh_token (data : gmap string value)
    (expires_delta : option Z) (now : Z) : string :=
  let to_encode := data in
  let expire :=
    expire_at expires_delta
      (refresh_token_expire_days settings * 86400 * MICROS) now in
  let to_encode :=
    update to_encode
      (claims_of [("exp", VFloat expire); ("iat", VFloat now);
                  ("type", VStr "refresh")]) in
  jwt_encode to_encode (secret_key settings) (algorithm settings).

(** [JWTTokenManager.create_password_reset_token], with [now] for both
    readings of the clock as above. *)
Definition create_password_reset_token (email : string)
    (expires_delta : option Z) (now : Z) : string :=
  let expire :=
    expire_at expires_delta
      (password_reset_token_expire_hours settings * 3600 * MICROS) now in
  let to_encode :=
    claims_of [("email", VStr email); ("exp", VFloat expire);
               ("iat", VFloat now); ("type", VStr "password_reset")] in
  jwt_encode to_encode (secret_key settings) (algorithm settings).

(** [JWTTokenManager.verify_token]: [None] is "invalid". *)
Definition verify_token (token : string) (now : Z)
  : outcome (option (gmap string value)) :=
  try_except
    (payload ← jwt_decode token (secret_key settings)
                 [algorithm settings] now;
     (* Check token expiration *)
     let exp := get payload "exp" in
     if decide (exp = VNone) then Returns None
     else
       t ← fromtimestamp exp;
       if t <? now then Returns None
       else Returns (Some payload))
    (fun e =>
       match e with
       | JWTError => (* logger.error *) Returns None
       | _ => Raises e
       end).

(** Truthiness of an optional dictionary ([if not payload]). *)
Definition dict_truthy (p : option (gmap string value)) : bool :=
  match p with
  | Some d => negb (bool_decide (d = ∅))
  | None => false
  end.

Definition blacklist_key (token : string) : string :=
  "blacklist:token:" +:+ token.

(** [JWTTokenManager.revoke_token]; [now] stands for the reading of the
    clock in [verify_token] and for the one that follows it here. *)
Definition revoke_token (mgr : redis.RedisManager) (token : string) (now : Z)
  : outcome (redis.RedisManager * bool) :=
  try_except
    (payload ← verify_token token now;
     if negb (dict_truthy payload) then Returns (mgr, false)
     else
       (* Calculate remaining TTL *)
       let exp := get (default ∅ payload) "exp" in
       if negb (truthy exp) then Returns (mgr, false)
       else
         e ← as_number exp;
         let ttl := int_seconds (e - now) in
         if ttl <=? 0 then Returns (mgr, true)  (* Token already expired *)
         else
           (* Add to blacklist *)
           redis.set settings mgr (blacklist_key token) "revoked"
             (Some ttl) now)
    (fun _ => (* logger.error *) Returns (mgr, false)).

(** [JWTTokenManager.is_token_revoked] *)
Definition is_token_revoked (mgr : redis.RedisManager) (token : string)
    (now : Z) : outcome bool :=
  try_except
    (redis.exists_ mgr (blacklist_key token) now)
    (fun _ => (* logger.error *) Returns false).

(** [verify_token_not_revoked] *)
Definition verify_token_not_revoked (mgr : redis.RedisManager)
    (token : string) (now : Z) : outcome unit :=
  revoked ← is_token_revoked mgr token now;
  if revoked : bool
  then Raises (AuthenticationError "Token has been revoked")
  else Returns tt.

(** [create_token_pair]; [str(user_id)] is the decimal rendering. *)
Definition create_token_pair (user_id : Z)
    (additional_data : option (gmap string value)) (now : Z) : TokenPair :=
  let data := claims_of [("sub", VStr (pretty user_id))] in
  let data :=
    if dict_truthy additional_data
    then update data (default ∅ additional_data)
    else data in
  let access_token := create_access_token data None now in
  let refresh_token :=
    create_refresh_token
      (claims_of [("sub", VStr (pretty user_id)); ("type", VStr "refresh")])
      None now in
  {| access_token := access_token;
     refresh_token := refresh_token;
     token_type := "bearer";
     expires_in := access_token_expire_minutes settings * 60 |}.

End JWT.

End auth.

(** ** app/models/user.py *)

Module models.

Record User : Type := {
  id : Z;
  email : string;
  username : string;
  hashed_password : option string;
  is_active : bool;
  is_superuser : bool;
  email_verified : bool;
  updated_at : Z;
  last_login_at : option Z
}.

(** The relational store behind an [AsyncSession]: the rows of [users],
    and whether statements currently succeed. *)
Record AsyncSession : Type := { healthy : bool; rows : list User }.

(** [result.scalar_one_or_none()] *)
Definition scalar_one_or_none (found : list User) : outcome (option User) :=
  match found with
  | [] => Returns None
  | [u] => Returns (Some u)
  | _ => Raises (OtherError "MultipleResultsFound")
  end.

Definition select_where (db : AsyncSession) (p : User -> bool)
  : outcome (option User) :=
  if healthy db then scalar_one_or_none (List.filter p (rows db))
  else Raises SQLAlchemyError.

(** [User.get] *)
Definition get (db : AsyncSession) (user_id : Z) : outcome (option User) :=
  select_where db (fun u => id u =? user_id).

(** [User.get_by_email] *)
Definition get_by_email (db : AsyncSession) (e : string)
  : outcome (option User) :=
  select_where db (fun u => String.eqb (email u) e).

(** [User.get_by_username] *)
Definition get_by_username (db : AsyncSession) (n : string)
  : outcome (option User) :=
  select_where db (fun u => String.eqb (username u) n).

(** [user.update(db, last_login_at=t)]: commit, then refresh ([updated_at]
    is set by the store on update). *)
Definition update_last_login (db : AsyncSession) (u : User) (t now : Z)
  : outcome (AsyncSession * User) :=
  if healthy db then
    let u' := {| id := id u; email := email u; username := username u;
                 hashed_password := hashed_password u;
                 is_active := is_active u; is_superuser := is_superuser u;
                 email_verified := email_verified u;
                 updated_at := now; last_login_at := Some t |} in
    Returns ({| healthy := true;
                rows := List.map (fun r => if id r =? id u then u' else r)
                          (rows db) |}, u')
  else Raises SQLAlchemyError.

End models.

(** ** app/api/deps.py and app/api/auth.py *)

Module api.

Import models auth.

(** What an endpoint works on. *)
Record world : Type := {
  db : AsyncSession;
  redis_manager : redis.RedisManager
}.

(** An endpoint body: it changes the world and returns or raises. *)
Record prog (A : Type) : Type := Prog { run : world -> world * outcome A }.
Arguments Prog {A} _.
Arguments run {A} _ _.

#[global] Instance prog_ret : MRet prog :=
  λ A a, Prog (λ w, (w, Returns a)).
#[global] Instance prog_bind : MBind prog :=
  λ A B k m, Prog (λ w,
    match run m w with
    | (w', Returns a) => run (k a) w'
    | (w', Raises e) => (w', Raises e)
    end).

Definition raise {A} (e : exn) : prog A := Prog (λ w, (w, Raises e)).

(** A call that only reads the world. *)
Definition reading {A} (f : world -> outcome A) : prog A :=
  Prog (λ w, (w, f w)).

(** [try: body  except Exception as e: handler e] *)
Definition try_ {A} (body : prog A) (handler : exn -> prog A) : prog A :=
  Prog (λ w,
    match run body w with
    | (w', Returns a) => (w', Returns a)
    | (w', Raises e) => run (handler e) w'
    end).

Definition is_http_exception (e : exn) : bool :=
  match e with
  | HTTPException _ _ | AuthenticationError _ => true
  | _ => false
  end.

Record LoginRequest : Type := { login_email : string; login_password : string }.

Record LoginResponse : Type := {
  user : User;
  tokens : TokenPair;
  session_id : string
}.

(** A JSON response with its status code. *)
Record Response : Type := { status : Z; body : gmap string value }.

Section Endpoints.
Context (settings : Settings).
Context (jwt_encode : gmap string value -> string -> string -> string).
Context (jwt_decode : string -> string -> list string -> Z
                      -> outcome (gmap string value)).
Context (hasher_verify : option string -> string -> outcome bool).
(** [str(e)] of an [HTTPException], [json.dumps], [datetime.isoformat]
    and [int(s)] on a string, as the libraries give them. *)
Context (http_exception_str : Z -> string -> string).
Context (json_dumps : gmap string value -> string).
Context (isoformat : Z -> string).
Context (int_of_str : string -> outcome Z).

Abbreviation verify_token := (auth.verify_token settings jwt_decode).
Abbreviation create_token_pair := (auth.create_token_pair settings jwt_encode).

(** *** deps.py: [get_current_user_token] *)
Definition get_current_user_token (mgr : redis.RedisManager)
    (credentials : string) (now : Z) : outcome (gmap string value) :=
  try_except
    (let token := credentials in
     (* Verify token not revoked *)
     _ ← verify_token_not_revoked mgr token now;
     (* Verify and decode token *)
     payload ← verify_token token now;
     match payload with
     | None => Raises (AuthenticationError "Invalid token")
     | Some payload =>
         (* Check token type *)
         if decide (Py.get payload "type" ≠ VStr "access")
         then Raises (AuthenticationError "Invalid token type")
         else Returns payload
     end)
    (fun e =>
       match e with
       | AuthenticationError d =>
           Raises (HTTPException 401 (http_exception_str 401 d))
       | _ => Raises (HTTPException 401 "Could not validate credentials")
       end).

(** [int(x)] *)
Definition py_int (v : value) : outcome Z :=
  match v with
  | VInt n => Returns n
  | VFloat n => Returns (int_seconds n)
  | VBool b => Returns (if b then 1 else 0)
  | VStr s => int_of_str s
  | VNone => Raises TypeError
  end.

(** *** core/auth.py: [SessionManager.create_session], with the
    identifier [secrets.token_urlsafe(32)] drew. *)
Definition create_session (mgr : redis.RedisManager) (fresh : string)
    (user_id : Z) (data : gmap string value) (expires_delta : option Z)
    (now : Z) : outcome (redis.RedisManager * string) :=
  let session_key :=
    cache_namespace settings +:+ ":session" +:+ ":" +:+ fresh in
  let session_data :=
    data ∪ claims_of [("user_id", VInt user_id);
                      ("created_at", VStr (isoformat now))] in
  let expire_seconds :=
    match expires_delta with
    | Some d => if d =? 0 then redis_session_expire settings
                else int_seconds d
    | None => redis_session_expire settings
    end in
  (* redis_manager.set_json: json.dumps, then set *)
  r ← redis.set settings mgr session_key (json_dumps session_data)
        (Some expire_seconds) now;
  if r.2 : bool then Returns (r.1, fresh)
  else Raises (RuntimeError "Failed to create session").

Definition identity_claims (u : User) : gmap string value :=
  claims_of [("email", VStr (email u)); ("username", VStr (username u));
             ("is_superuser", VBool (is_superuser u))].

(** *** api/auth.py: [login] *)
Definition login (request : LoginRequest) (fresh : string) (now : Z)
  : prog LoginResponse :=
  try_
    ((* Get user by email or username *)
     u ← reading (λ w, get_by_email (db w) (login_email request));
     u ← match u with
         | Some u => mret (Some u)
         | None =>
             reading (λ w, get_by_username (db w) (login_email request))
         end;
     match u with
     | None => raise (HTTPException 401 "Invalid credentials")
     | Some u =>
         (* Verify password *)
         ok ← reading (λ _, security.verify_password hasher_verify
                              (login_password request) (hashed_password u));
         if negb ok then raise (HTTPException 401 "Invalid credentials")
         (* Check if user is active *)
         else if negb (is_active u)
         then raise (HTTPException 401 "Account is deactivated")
         (* Check email verification *)
         else if feature_email_verification settings
                 && negb (email_verified u)
         then raise (HTTPException 401 "Email not verified")
         else
           (* Update last login *)
           u ← Prog (λ w,
                 match update_last_login (db w) u (updated_at u) now with
                 | Returns (d, u') =>
                     ({| db := d; redis_manager := redis_manager w |},
                      Returns u')
                 | Raises e => (w, Raises e)
                 end);
           (* Create token pair *)
           let tokens :=
             create_token_pair (id u) (Some (identity_claims u)) now in
           (* Create session *)
           sid ← Prog (λ w,
                 match create_session (redis_manager w) fresh (id u)
                         (claims_of [("ip", VStr "unknown");
                                     ("user_agent", VStr "unknown");
                                     ("login_method", VStr "password")])
                         None now with
                 | Returns (m, sid) =>
                     ({| db := db w; redis_manager := m |}, Returns sid)
                 | Raises e => (w, Raises e)
                 end);
           mret {| user := u; tokens := tokens; session_id := sid |}
     end)
    (fun e =>
       if is_http_exception e then raise e
       else (* logger.error *) raise (HTTPException 500 "Login failed")).

(** *** api/auth.py: [refresh_token] *)
Definition refresh_token (request_refresh_token : string) (d : AsyncSession)
    (now : Z) : outcome TokenPair :=
  try_except
    ((* Verify refresh token *)
     payload ← verify_token request_refresh_token now;
     if negb (dict_truthy payload)
     then Raises (HTTPException 401 "Invalid refresh token")
     else
       let payload := default ∅ payload in
       (* Check token type *)
       if decide (Py.get payload "type" ≠ VStr "refresh")
       then Raises (HTTPException 401 "Invalid token type")
       else
         (* Get user *)
         user_id ← py_int (Py.get payload "sub");
         u ← models.get d user_id;
         match u with
         | None => Raises (HTTPException 401 "User not found or inactive")
         | Some u =>
             if negb (is_active u)
             then Raises (HTTPException 401 "User not found or inactive")
             else
               (* Create new token pair *)
               Returns (create_token_pair (id u)
                          (Some (identity_claims u)) now)
         end)
    (fun e =>
       if is_http_exception e then Raises e
       else Raises (HTTPException 401 "Token refresh failed")).

Definition reset_message : gmap string value :=
  claims_of [("message",
    VStr "If the email exists, a password reset link has been sent")].

(** *** api/auth.py: [request_password_reset] *)
Definition request_password_reset (request_email : string)
    (d : AsyncSession) (now : Z) : outcome Response :=
  try_except
    (let e := security.sanitize_email request_email in
     (* Get user (but don't reveal if email exists for security) *)
     u ← get_by_email d e;
     let reset_token :=
       match u with
       | Some u =>
           if is_active u
           then Some (create_password_reset_token settings jwt_encode
                        e None now)
           else None
       | None => None
       end in
     (* Always return success to prevent email enumeration *)
     Returns {| status := 200; body := reset_message |})
    (fun _ =>
       (* Still return success for security *)
       Returns {| status := 200; body := reset_message |}).

End Endpoints.

End api.

(** ** app/api/websocket.py *)

Module websocket.

(** A [WebSocket] object is known by its identity. *)
Abbreviation WebSocket := positive.

Record ConnectionManager : Type := {
  (* Active connections by user ID *)
  active_connections : gmap Z (list WebSocket);
  (* Connection metadata *)
  connection_metadata : gmap WebSocket (gmap string value)
}.

(** The manager together with what the transport has delivered so far,
    oldest first. *)
Record world : Type := {
  manager : ConnectionManager;
  delivered : list (WebSocket * gmap string value)
}.

(** [ConnectionManager()] *)
Definition init : ConnectionManager :=
  {| active_connections := ∅; connection_metadata := ∅ |}.

(** The dictionary key a value stands for among integer keys:
    [True == 1] and [1.0 == 1] hash alike. *)
Definition user_key (v : value) : option Z :=
  match v with
  | VInt n => Some n
  | VBool b => Some (if b then 1 else 0)
  | VFloat n => if n mod MICROS =? 0 then Some (n / MICROS) else None
  | VNone | VStr _ => None
  end.

(** [get_user_connection_count] *)
Definition get_user_connection_count (self : ConnectionManager) (user_id : Z)
  : nat :=
  length (default [] (active_connections self !! user_id)).

(** [get_active_users] *)
Definition get_active_users (self : ConnectionManager) : list Z :=
  (map_to_list (active_connections self)).*1.

Section Manager.
(** [alive ws]: [ws.send_json] succeeds; it raises otherwise.
    [websocket.accept()] is taken to succeed. *)
Context (alive : WebSocket -> bool).
Context (isoformat : Z -> string).

(** [self.connection_metadata[ws]["last_activity"] = utcnow()], when
    [ws] is registered. *)
Definition touch (now : Z) (websocket : WebSocket)
    (self : ConnectionManager) : ConnectionManager :=
  {| active_connections := active_connections self;
     connection_metadata :=
       alter (λ md : gmap string value, <["last_activity" := VFloat now]> md)
         websocket (connection_metadata self) |}.

(** One turn of the sending loop of [broadcast_to_user]. *)
Definition broadcast_step (now : Z) (message : gmap string value)
    (exclude_websocket : option WebSocket)
    (acc : world * list WebSocket) (websocket : WebSocket)
  : world * list WebSocket :=
  if bool_decide (exclude_websocket = Some websocket) then acc
  else if alive websocket then
    ({| manager := touch now websocket (manager acc.1);
        delivered := delivered acc.1 ++ [(websocket, message)] |}, acc.2)
  else (acc.1, acc.2 ++ [websocket]).

(** The clean-up loop: [for websocket in connections_to_remove]. *)
Fixpoint cleanup (disconnect : WebSocket -> world -> option world)
    (connections_to_remove : list WebSocket) (w : world) : option world :=
  match connections_to_remove with
  | [] => Some w
  | websocket :: rest =>
      match disconnect websocket w with
      | Some w' => cleanup disconnect rest w'
      | None => None
      end
  end.

(** [broadcast_to_user], over the [disconnect] it calls. *)
Definition broadcast_with (disconnect : WebSocket -> world -> option world)
    (now : Z) (user_id : Z) (message : gmap string value)
    (exclude_websocket : option WebSocket) (w : world) : option world :=
  match active_connections (manager w) !! user_id with
  | None => Some w
  | Some conns =>
      let r := fold_left (broadcast_step now message exclude_websocket)
                 conns (w, []) in
      (* Clean up failed connections *)
      cleanup disconnect r.2 r.1
  end.

Definition closed_message (user_id : value) (now : Z) : gmap string value :=
  auth.claims_of [("type", VStr "connection_closed"); ("user_id", user_id);
                  ("timestamp", VStr (isoformat now))].

(** [disconnect].  It calls [broadcast_to_user], which calls it back for
    the connections that failed: [fuel] bounds the depth of that
    recursion, [None] meaning the bound was too small.  Every dictionary
    [connect] stores holds the key "user_id"; on one without it, where the
    source would raise [KeyError], the lookup reads [None] and no user is
    found. *)
Fixpoint disconnect (fuel : nat) (now : Z) (websocket : WebSocket)
    (w : world) {struct fuel} : option world :=
  match fuel with
  | O => None
  | S fuel' =>
      let self := manager w in
      match connection_metadata self !! websocket with
      | None => Some w
      | Some metadata =>
          if bool_decide (metadata = ∅) then Some w
          else
            let user_id := Py.get metadata "user_id" in
            (* Remove from active connections *)
            let active :=
              match user_key user_id with
              | Some u =>
                  match active_connections self !! u with
                  | Some conns =>
                      let conns' :=
                        filter (λ ws : WebSocket, ws ≠ websocket) conns in
                      (* Clean up empty user entries *)
                      match conns' with
                      | [] => delete u (active_connections self)
                      | _ => <[u := conns']> (active_connections self)
                      end
                  | None => active_connections self
                  end
              | None => active_connections self
              end in
            (* Remove metadata *)
            let w' :=
              {| manager :=
                   {| active_connections := active;
                      connection_metadata :=
                        delete websocket (connection_metadata self) |};
                 delivered := delivered w |} in
            (* Notify user disconnection *)
            match user_key user_id with
            | Some u =>
                if bool_decide (is_Some (active !! u))
                then broadcast_with (disconnect fuel' now) now u
                       (closed_message user_id now) None w'
                else Some w'
            | None => Some w'
            end
      end
  end.

(** [broadcast_to_user] *)
Definition broadcast_to_user (fuel : nat) (now : Z) (user_id : Z)
    (message : gmap string value) (exclude_websocket : option WebSocket)
    (w : world) : option world :=
  broadcast_with (disconnect fuel now) now user_id message
    exclude_websocket w.

Definition established_message (user_id : Z) (now : Z)
  : gmap string value :=
  auth.claims_of [("type", VStr "connection_established");
                  ("user_id", VInt user_id);
                  ("timestamp", VStr (isoformat now))].

(** [connect] *)
Definition connect (fuel : nat) (now : Z) (websocket : WebSocket)
    (user_id : Z) (metadata : option (gmap string value)) (w : world)
  : option world :=
  let self := manager w in
  let conns := default [] (active_connections self !! user_id) in
  let active := <[user_id := conns ++ [websocket]]> (active_connections self) in
  (* Store connection metadata *)
  let md :=
    default ∅ metadata ∪
    auth.claims_of [("user_id", VInt user_id);
                    ("connected_at", VFloat now);
                    ("last_activity", VFloat now)] in
  let w' :=
    {| manager :=
         {| active_connections := active;
            connection_metadata :=
              <[websocket := md]> (connection_metadata self) |};
       delivered := delivered w |} in
  (* Notify user connection *)
  broadcast_to_user fuel now user_id (established_message user_id now)
    (Some websocket) w'.

End Manager.

(** [ws] is registered, and its metadata names user [u] as its owner. *)
Definition registered_to (self : ConnectionManager) (ws : WebSocket) (u : Z)
  : Prop :=
  ∃ md, connection_metadata self !! ws = Some md
        ∧ md !! "user_id" = Some (VInt u).

(** The stand-in user [authenticate_websocket] builds from the claims. *)
Record MockUser : Type := {
  mock_id : Z;
  mock_email : value;
  mock_username : value;
  mock_is_active : bool
}.

(** What [authenticate_websocket] leaves: the user, or the close frame sent. *)
Inductive ws_auth : Type :=
| Authenticated (u : MockUser)
| Closed (code : Z) (reason : string).

Definition WS_1008_POLICY_VIOLATION : Z := 1008.
Definition WS_1011_INTERNAL_ERROR : Z := 1011.

Definition str_truthy (s : option string) : bool :=
  match s with
  | Some s => negb (String.eqb s "")
  | None => false
  end.

(** [payload.get(k, "")] *)
Definition get_or_empty (d : gmap string value) (k : string) : value :=
  default (VStr "") (d !! k).

Section Authenticate.
Context (settings : Settings).
Context (jwt_decode : string -> string -> list string -> Z
                      -> outcome (gmap string value)).
Context (int_of_str : string -> outcome Z).

(** [authenticate_websocket]; [query_token] is
    [websocket.query_params.get("token")]. *)
Definition authenticate_websocket (query_token token : option string)
    (now : Z) : ws_auth :=
  let token := if str_truthy token then token else query_token in
  if negb (str_truthy token)
  then Closed WS_1008_POLICY_VIOLATION "Authentication required"
  else
    let attempt : outcome ws_auth :=
      (* Verify token *)
      payload ← auth.verify_token settings jwt_decode (default "" token) now;
      if negb (auth.dict_truthy payload)
      then Returns (Closed WS_1008_POLICY_VIOLATION "Invalid token")
      else
        let payload := default ∅ payload in
        (* Check token type *)
        if decide (Py.get payload "type" ≠ VStr "access")
        then Returns (Closed WS_1008_POLICY_VIOLATION "Invalid token type")
        else
          user_id ← api.py_int int_of_str (Py.get payload "sub");
          Returns (Authenticated
                     {| mock_id := user_id;
                        mock_email := get_or_empty payload "email";
                        mock_username := get_or_empty payload "username";
                        mock_is_active := true |}) in
    match attempt with
    | Returns r => r
    | Raises _ =>
        (* logger.error *)
        Closed WS_1011_INTERNAL_ERROR "Authentication failed"
    end.

End Authenticate.

End websocket.

(** ** Fixtures: a concrete configuration and a small token library, used to
    run the definitions on concrete inputs. *)

Module fixtures.

Definition cfg : Settings :=
  {| secret_key := "s3cret"; algorithm := "HS256";
     access_token_expire_minutes := 30;
     refresh_token_expire_days := 7;
     password_reset_token_expire_hours := 1;
     cache_ttl := 300; cache_namespace := "app";
     redis_session_expire := 3600;
     feature_email_verification := false |}.

(** Noon-ish on some day, in microseconds. *)
Definition T0 : Z := 1700000000 * MICROS.

(** A token library that has signed the listed tokens and no others. *)
Section Book.
Context (book : list (string * gmap string value)).

Definition book_encode (c : gmap string value) (key alg : string) : string :=
  match List.find (λ e, bool_decide (e.2 = c)) book with
  | Some e => e.1
  | None => ""
  end.

(** Like jose, it refuses a token whose [exp] lies in an earlier second. *)
Definition book_decode (token key : string) (algs : list string) (now : Z)
  : outcome (gmap string value) :=
  match List.find (λ e, String.eqb e.1 token) book with
  | Some e =>
      match e.2 !! "exp" with
      | Some (VFloat x) =>
          if int_seconds x <? int_seconds now then Raises JWTError
          else Returns e.2
      | _ => Returns e.2
      end
  | None => Raises JWTError
  end.
End Book.

Definition access_claims : gmap string value :=
  auth.claims_of
    [("sub", VStr "7"); ("email", VStr "ann@example.com");
     ("username", VStr "ann"); ("is_superuser", VBool false);
     ("exp", VFloat (T0 + 1800 * MICROS)); ("iat", VFloat T0);
     ("type", VStr "access")].

Definition refresh_claims : gmap string value :=
  auth.claims_of
    [("sub", VStr "7"); ("exp", VFloat (T0 + 604800 * MICROS));
     ("iat", VFloat T0); ("type", VStr "refresh")].

(** Signed, but it ran out ten seconds before [T0]. *)
Definition stale_claims : gmap string value :=
  auth.claims_of
    [("sub", VStr "7"); ("exp", VFloat (T0 - 10 * MICROS));
     ("iat", VFloat (T0 - 1810 * MICROS)); ("type", VStr "access")].

(** Signed, with half a second left at [T0]. *)
Definition dying_claims : gmap string value :=
  auth.claims_of
    [("sub", VStr "7"); ("exp", VFloat (T0 + 500000));
     ("iat", VFloat (T0 - 1800 * MICROS)); ("type", VStr "access")].

(** Signed, without [exp]. *)
Definition eternal_claims : gmap string value :=
  auth.claims_of [("sub", VStr "7"); ("type", VStr "access")].

Definition book : list (string * gmap string value) :=
  [("tok.access", access_claims); ("tok.refresh", refresh_claims);
   ("tok.stale", stale_claims); ("tok.dying", dying_claims);
   ("tok.eternal", eternal_claims)].

Definition encode := book_encode book.
Definition decode := book_decode book.

Definition ann_identity : gmap string value :=
  auth.claims_of
    [("email", VStr "ann@example.com"); ("username", VStr "ann");
     ("is_superuser", VBool false)].

Definition up (ks : gmap string redis.entry) : redis.RedisManager :=
  {| redis.redis_client :=
       Some {| redis.reachable := true; redis.keyspace := ks |} |}.

Definition down (ks : gmap string redis.entry) : redis.RedisManager :=
  {| redis.redis_client :=
       Some {| redis.reachable := false; redis.keyspace := ks |} |}.

Definition revoked_marker (until : Z) : redis.entry :=
  {| redis.val := redis.RString "revoked"; redis.expire_at := Some until |}.

(** A hasher whose hash of [p] is "argon2:" followed by [p]. *)
Definition hasher (hashed : option string) (plain : string) : outcome bool :=
  match hashed with
  | Some h =>
      if String.eqb h ("argon2:" +:+ plain) then Returns true
      else Raises VerifyMismatchError
  | None => Raises TypeError
  end.

Definition ann : models.User :=
  {| models.id := 7; models.email := "ann@example.com";
     models.username := "ann";
     models.hashed_password := Some "argon2:correct horse";
     models.is_active := true; models.is_superuser := false;
     models.email_verified := true; models.updated_at := T0 - 5 * MICROS;
     models.last_login_at := None |}.

(** Bob's account has been deactivated. *)
Definition bob : models.User :=
  {| models.id := 8; models.email := "bob@example.com";
     models.username := "bob";
     models.hashed_password := Some "argon2:battery staple";
     models.is_active := false; models.is_superuser := false;
     models.email_verified := true; models.updated_at := T0 - 9 * MICROS;
     models.last_login_at := None |}.

Definition users_db : models.AsyncSession :=
  {| models.healthy := true; models.rows := [ann; bob] |}.

Definition site : api.world :=
  {| api.db := users_db; api.redis_manager := up ∅ |}.

Definition str_of_exception (code : Z) (detail : string) : string :=
  pretty code +:+ ": " +:+ detail.

Definition dumps (d : gmap string value) : string := "{...}".
Definition iso (t : Z) : string := pretty t.
Definition parse_int (s : string) : outcome Z :=
  if String.eqb s "7" then Returns 7
  else if String.eqb s "8" then Returns 8
  else Raises ValueError.

End fixtures.

(** ** app/core/redis.py: cache and JSON operations *)

Module cache.

Import redis.

(** GET key: a key holding a sorted set refuses the command. *)
Definition cmd_get (ks : gmap string entry) (key : string) (now : Z)
  : outcome (option string) :=
  match live ks key now with
  | None => Returns None
  | Some {| val := RString s |} => Returns (Some s)
  | Some {| val := RZSet _ |} => Raises ResponseError
  end.

(** DEL key: the keyspace left and the number of keys removed. *)
Definition cmd_del (ks : gmap string entry) (key : string) (now : Z)
  : gmap string entry * Z :=
  match live ks key now with
  | Some _ => (delete key ks, 1)
  | None => (ks, 0)
  end.

(** EXPIRE key seconds: whether the key was there to get the timeout.  A
    timeout that is not positive removes the key at once. *)
Definition cmd_expire (ks : gmap string entry) (key : string)
    (seconds now : Z) : gmap string entry * bool :=
  match live ks key now with
  | Some e =>
      if seconds <=? 0 then (delete key ks, true)
      else
        (<[key := {| val := val e;
                     expire_at := Some (now + seconds * MICROS) |}]> ks,
         true)
  | None => (ks, false)
  end.

Definition client_get (srv : server) (key : string) (now : Z)
  : outcome (option string) :=
  if reachable srv then cmd_get (keyspace srv) key now
  else Raises ConnectionError.

Definition client_delete (srv : server) (key : string) (now : Z)
  : outcome (server * Z) :=
  if reachable srv then
    let r := cmd_del (keyspace srv) key now in
    Returns ({| reachable := true; keyspace := r.1 |}, r.2)
  else Raises ConnectionError.

Definition client_expire (srv : server) (key : string) (seconds now : Z)
  : outcome (server * bool) :=
  if reachable srv then
    let r := cmd_expire (keyspace srv) key seconds now in
    Returns ({| reachable := true; keyspace := r.1 |}, r.2)
  else Raises ConnectionError.

(** PING *)
Definition client_ping (srv : server) : outcome unit :=
  if reachable srv then Returns tt else Raises ConnectionError.

(** What [json.loads] gives: an object, [null] (Python's [None]), or some
    other JSON value, of which the callers only test the truth value. *)
Inductive json : Type :=
| JObject (d : gmap string value)
| JNull
| JOther (truth : bool).

(** The truth value of what [get_json] returned, [None] included. *)
Definition json_truthy (j : option json) : bool :=
  match j with
  | Some (JObject d) => negb (bool_decide (d = ∅))
  | Some (JOther b) => b
  | Some JNull | None => false
  end.

Section Manager.
Context (settings : Settings).
(** [json.dumps(value, default=str)] and [json.loads(text)]; the latter
    gives [None] where it raises [JSONDecodeError]. *)
Context (json_dumps : gmap string value -> string).
Context (json_loads : string -> option json).

(** [RedisManager.health_check] *)
Definition health_check (self : RedisManager) : outcome bool :=
  try_except
    (match redis_client self with
     | None => Returns false
     | Some c => _ ← client_ping c; Returns true
     end)
    (fun _ => (* logger.error *) Returns false).

(** [RedisManager.get] *)
Definition get (self : RedisManager) (key : string) (now : Z)
  : outcome (option string) :=
  match redis_client self with
  | None => Returns None
  | Some c =>
      try_except (client_get c key now)
        (fun _ => (* logger.error *) Returns None)
  end.

(** [RedisManager.delete] *)
Definition delete (self : RedisManager) (key : string) (now : Z)
  : outcome (RedisManager * bool) :=
  match redis_client self with
  | None => Returns (self, false)
  | Some c =>
      try_except
        (r ← client_delete c key now;
         Returns ({| redis_client := Some r.1 |}, 0 <? r.2))
        (fun _ => (* logger.error *) Returns (self, false))
  end.

(** [RedisManager.expire] *)
Definition expire (self : RedisManager) (key : string) (seconds now : Z)
  : outcome (RedisManager * bool) :=
  match redis_client self with
  | None => Returns (self, false)
  | Some c =>
      try_except
        (r ← client_expire c key seconds now;
         Returns ({| redis_client := Some r.1 |}, r.2))
        (fun _ => (* logger.error *) Returns (self, false))
  end.

(** [RedisManager.get_json] *)
Definition get_json (self : RedisManager) (key : string) (now : Z)
  : outcome (option json) :=
  value ← get self key now;
  match value with
  | None => Returns None
  | Some text =>
      match json_loads text with
      | Some JNull => Returns None
      | Some j => Returns (Some j)
      | None => (* logger.error *) Returns None
      end
  end.

(** [RedisManager.set_json] *)
Definition set_json (self : RedisManager) (key : string)
    (value : gmap string value) (expire : option Z) (now : Z)
  : outcome (RedisManager * bool) :=
  try_except
    (let json_value := json_dumps value in
     redis.set settings self key json_value expire now)
    (fun _ =>
       (* except (TypeError, json.JSONEncodeError): the json module has no
          JSONEncodeError, so building the tuple raises AttributeError *)
       Raises (OtherError "AttributeError")).

End Manager.

End cache.

(** ** app/core/auth.py: the session manager and the token helpers *)

Module session.

Import cache.

Section SessionManager.
Context (settings : Settings).
Context (json_dumps : gmap string value -> string).
Context (json_loads : string -> option json).

(** [f"{self.session_prefix}:{session_id}"] *)
Definition session_key (session_id : string) : string :=
  cache_namespace settings +:+ ":session" +:+ ":" +:+ session_id.

(** [SessionManager.get_session] *)
Definition get_session (mgr : redis.RedisManager) (session_id : string)
    (now : Z) : outcome (option json) :=
  get_json json_loads mgr (session_key session_id) now.

(** [SessionManager.update_session] *)
Definition update_session (mgr : redis.RedisManager) (session_id : string)
    (data : gmap string value) (now : Z)
  : outcome (redis.RedisManager * bool) :=
  let session_key := session_key session_id in
  current_data ← get_json json_loads mgr session_key now;
  if json_truthy current_data then
    match current_data with
    | Some (JObject d) =>
        let current_data := Py.update d data in
        set_json settings json_dumps mgr session_key current_data None now
    | _ => Raises (OtherError "AttributeError")
    end
  else Returns (mgr, false).

(** [SessionManager.delete_session] *)
Definition delete_session (mgr : redis.RedisManager) (session_id : string)
    (now : Z) : outcome (redis.RedisManager * bool) :=
  cache.delete mgr (session_key session_id) now.

(** [SessionManager.extend_session] *)
Definition extend_session (mgr : redis.RedisManager) (session_id : string)
    (expires_delta : option Z) (now : Z)
  : outcome (redis.RedisManager * bool) :=
  let expire_seconds :=
    match expires_delta with
    | Some d => if d =? 0 then redis_session_expire settings
                else int_seconds d
    | None => redis_session_expire settings
    end in
  cache.expire mgr (session_key session_id) expire_seconds now.

End SessionManager.

End session.

Module tokens.

Section Helpers.
Context (settings : Settings).
Context (jwt_decode : string -> string -> list string -> Z
                      -> outcome (gmap string value)).
Context (int_of_str : string -> outcome Z).

(** [JWTTokenManager.verify_password_reset_token]: the email, or [None].
    The value is whatever the claim holds. *)
Definition verify_password_reset_token (token : string) (now : Z)
  : outcome (option value) :=
  payload ← auth.verify_token settings jwt_decode token now;
  if negb (auth.dict_truthy payload) then Returns None
  else
    let payload := default ∅ payload in
    if decide (Py.get payload "type" ≠ VStr "password_reset")
    then Returns None
    else
      match Py.get payload "email" with
      | VNone => Returns None
      | v => Returns (Some v)
      end.

(** [get_current_user_id] *)
Definition get_current_user_id (credentials : string) (now : Z) : outcome Z :=
  let token := credentials in
  payload ← auth.verify_token settings jwt_decode token now;
  match payload with
  | None => Raises (AuthenticationError "Could not validate credentials")
  | Some payload =>
      let user_id := Py.get payload "sub" in
      if decide (user_id = VNone)
      then Raises (AuthenticationError "Could not validate credentials")
      else
        try_except (api.py_int int_of_str user_id)
          (fun e =>
             match e with
             | ValueError | TypeError =>
                 Raises (AuthenticationError "Could not validate credentials")
             | _ => Raises e
             end)
  end.

End Helpers.

End tokens.

(** ** app/api/deps.py: the remaining dependencies *)

Module deps.

Import models.

(** What the rate-limit dependency decides for a request. *)
Inductive throttle : Type :=
| Proceed
| TooManyRequests (detail : string) (headers : list (string * string)).

(** [RateLimiter] *)
Record RateLimiter : Type := { requests : Z; window : Z }.

(** [validate_pagination]: (offset, limit). *)
Definition validate_pagination (page size max_size : Z) : outcome (Z * Z) :=
  if page <? 1 then Raises (HTTPException 400 "Page must be >= 1")
  else if size <? 1 then Raises (HTTPException 400 "Size must be >= 1")
  else if max_size <? size
  then Raises (HTTPException 400 ("Size must be <= " +:+ pretty max_size))
  else
    let offset := (page - 1) * size in
    Returns (offset, size).

(** [get_current_superuser] *)
Definition get_current_superuser (current_user : User) : outcome User :=
  if negb (is_superuser current_user)
  then Raises (HTTPException 403 "Not enough permissions")
  else Returns current_user.

(** [PermissionChecker(required_permission).__call__] *)
Definition permission_checker (required_permission : string)
    (current_user : User) : outcome User :=
  if String.eqb required_permission "admin"
     && negb (is_superuser current_user)
  then Raises (HTTPException 403 "Admin permissions required")
  else Returns current_user.

(** [require_admin] *)
Definition require_admin : User -> outcome User := permission_checker "admin".

Section Dependencies.
Context (settings : Settings).
Context (jwt_decode : string -> string -> list string -> Z
                      -> outcome (gmap string value)).
Context (http_exception_str : Z -> string -> string).
Context (int_of_str : string -> outcome Z).

(** [get_current_user], given the payload [get_current_user_token]
    returned. *)
Definition get_current_user (db : AsyncSession)
    (token_data : gmap string value) : outcome User :=
  try_except
    (user_id ← api.py_int int_of_str (Py.get token_data "sub");
     (* Get user from database *)
     user ← models.get db user_id;
     match user with
     | None => Raises (HTTPException 401 "User not found")
     | Some user =>
         (* Check if user is active *)
         if negb (is_active user)
         then Raises (HTTPException 401 "Inactive user")
         else Returns user
     end)
    (fun e =>
       match e with
       | ValueError => Raises (HTTPException 401 "Invalid user ID in token")
       | _ => (* logger.error *)
           Raises (HTTPException 401 "Could not validate user")
       end).

(** The chain FastAPI resolves for [Depends(get_current_user)]: the token
    dependency first, then the user. *)
Definition current_user (mgr : redis.RedisManager) (db : AsyncSession)
    (credentials : string) (now : Z) : outcome User :=
  token_data ← api.get_current_user_token settings jwt_decode
                  http_exception_str mgr credentials now;
  get_current_user db token_data.

(** [get_optional_current_user] *)
Definition get_optional_current_user (mgr : redis.RedisManager)
    (db : AsyncSession) (credentials : option string) (now : Z)
  : outcome (option User) :=
  match credentials with
  | None => Returns None
  | Some credentials =>
      try_except
        ((* Validate token *)
         token_data ← api.get_current_user_token settings jwt_decode
                         http_exception_str mgr credentials now;
         (* Get user *)
         user_id ← api.py_int int_of_str (Py.get token_data "sub");
         user ← models.get db user_id;
         match user with
         | Some user => if is_active user then Returns (Some user)
                        else Returns None
         | None => Returns None
         end)
        (fun _ => Returns None)
  end.

(** [RateLimiter.__call__]; [client] is [request.client], and its host when
    there is one.  The clock is read twice: by [rate_limit] at [clock], and
    at [clock'] for the message. *)
Definition rate_limiter_call (self : RateLimiter) (mgr : redis.RedisManager)
    (client : option string) (clock clock' : Z)
  : outcome (redis.RedisManager * throttle) :=
  match client with
  | None => Raises (OtherError "AttributeError")
  | Some client_ip =>
      if String.eqb client_ip "" then Returns (mgr, Proceed)
      else
        (* Check rate limit *)
        r ← redis.rate_limit settings mgr "api_requests" (requests self)
              (window self) client_ip clock;
        let '(mgr', (allowed, remaining, reset_time)) := r in
        if negb allowed then
          Returns
            (mgr',
             TooManyRequests
               ("Rate limit exceeded. Try again in "
                +:+ pretty (reset_time - int_seconds clock') +:+ " seconds.")
               [("X-RateLimit-Limit", pretty (requests self));
                ("X-RateLimit-Remaining", pretty remaining);
                ("X-RateLimit-Reset", pretty reset_time)])
        else Returns (mgr', Proceed)
  end.

End Dependencies.

End deps.

(** ** app/api/auth.py: logout *)

Module logout.

Section Logout.
Context (settings : Settings).

(** [logout], for the user the dependency admitted. *)
Definition logout (mgr : redis.RedisManager) (session_id : option string)
    (current_user : models.User) (now : Z)
  : outcome (redis.RedisManager * api.Response) :=
  try_except
    (mgr' ← (if websocket.str_truthy session_id
             then r ← session.delete_session settings mgr
                        (default "" session_id) now;
                  Returns r.1
             else Returns mgr);
     (* TODO: Add token to blacklist *)
     Returns (mgr',
              {| api.status := 200;
                 api.body := auth.claims_of
                   [("message", VStr "Successfully logged out")] |}))
    (fun _ => Raises (HTTPException 500 "Logout failed")).

End Logout.

End logout.

(** ** app/api/websocket.py: sending to one connection *)

Module connections.

Import websocket.

(** Every registered connection has metadata that names a user, as the
    metadata [connect] stores does. *)
Definition names_user (self : ConnectionManager) : Prop :=
  ∀ ws md, connection_metadata self !! ws = Some md →
           is_Some (md !! "user_id").

(** No user is kept in the registry with an empty list of connections. *)
Definition no_empty_entry (self : ConnectionManager) : Prop :=
  ∀ u conns, active_connections self !! u = Some conns → conns ≠ [].

Section Manager.
Context (alive : WebSocket -> bool).
Context (isoformat : Z -> string).

(** [send_personal_message] *)
Definition send_personal_message (fuel : nat) (now : Z)
    (message : gmap string value) (websocket : WebSocket) (w : world)
  : option world :=
  if alive websocket then
    Some {| manager := touch now websocket (manager w);
            delivered := delivered w ++ [(websocket, message)] |}
  else
    (* logger.error *)
    disconnect alive isoformat fuel now websocket w.

(** [w'] came out of [w] by sending and by dropping connections: nothing
    was registered, no list grew, what was delivered stays and only live
    connections were delivered to, the metadata of a dead connection was
    left alone or removed, and no metadata lost a key. *)
Definition shrunk (w w' : world) : Prop :=
  dom (connection_metadata (manager w'))
    ⊆ dom (connection_metadata (manager w))
  ∧ (∀ u conns', active_connections (manager w') !! u = Some conns' →
       ∃ conns, active_connections (manager w) !! u = Some conns
                ∧ conns' ⊆ conns)
  ∧ (∃ sent, delivered w' = delivered w ++ sent
             ∧ Forall (λ p, alive p.1 = true) sent)
  ∧ (no_empty_entry (manager w) → no_empty_entry (manager w'))
  ∧ (∀ ws, alive ws = false →
       connection_metadata (manager w') !! ws = None
       ∨ connection_metadata (manager w') !! ws
         = connection_metadata (manager w) !! ws)
  ∧ (∀ ws md', connection_metadata (manager w') !! ws = Some md' →
       ∃ md, connection_metadata (manager w) !! ws = Some md
             ∧ dom md ⊆ dom md').

(** The connections of a list a broadcast sends to, and those it finds
    dead. *)
Definition reached (exclude_websocket : option WebSocket)
    (conns : list WebSocket) : list WebSocket :=
  filter (λ ws, exclude_websocket ≠ Some ws ∧ alive ws = true) conns.

Definition failed (exclude_websocket : option WebSocket)
    (conns : list WebSocket) : list WebSocket :=
  filter (λ ws, exclude_websocket ≠ Some ws ∧ alive ws = false) conns.

End Manager.

End connections.

(** ** app/core/security.py: the input sanitizer and the password validator *)

Module input_sanitizer.

Import Stdlib.Strings.Ascii.

(** A [str] as the list of its characters.  The source counts, compares
    and folds code points; on text within ASCII, as for [sanitize_email],
    these are the characters of the string here, one each. *)
Definition chars (s : string) : list Ascii.ascii := String.list_ascii_of_string s.
Definition str (l : list Ascii.ascii) : string := String.string_of_list_ascii l.

(** The text is within ASCII: every code point is below 128. *)
Definition ascii_only (s : string) : bool :=
  forallb (λ c, Ascii.nat_of_ascii c <? 128)%nat (chars s).

(** [string.ascii_lowercase + string.digits + '_-'] *)
Definition allowed_chars (c : Ascii.ascii) : bool :=
  let n := Ascii.nat_of_ascii c in
  ((97 <=? n) && (n <=? 122) || (48 <=? n) && (n <=? 57)
   || (n =? 95) || (n =? 45))%nat.

(** [InputSanitizer.sanitize_username] *)
Definition sanitize_username (username : string) : string :=
  (* Remove whitespace and convert to lowercase *)
  let username := security.lower (security.rstrip (security.lstrip username)) in
  (* Remove non-alphanumeric characters except underscore and hyphen *)
  let sanitized :=
    str (filter (λ c, allowed_chars c = true) (chars username)) in
  sanitized.

(** [s.replace(c, '')] for a single character [c] *)
Definition remove (c : Ascii.ascii) (l : list Ascii.ascii)
  : list Ascii.ascii :=
  filter (λ x, x ≠ c) l.

(** [s.lstrip('.')] *)
Fixpoint lstrip_dots (l : list Ascii.ascii) : list Ascii.ascii :=
  match l with
  | c :: l' => if Ascii.eqb c "."%char then lstrip_dots l' else l
  | [] => []
  end.

(** [s.rsplit('.', 1)]: what stands before the last dot and what stands
    after it; [None] when [s] holds no dot. *)
Fixpoint rsplit_dot (l : list Ascii.ascii)
  : option (list Ascii.ascii * list Ascii.ascii) :=
  match l with
  | [] => None
  | c :: l' =>
      match rsplit_dot l' with
      | Some (name, ext) => Some (c :: name, ext)
      | None => if Ascii.eqb c "."%char then Some ([], l') else None
      end
  end.

(** [s[:k]]: a negative [k] counts from the end. *)
Definition slice_to (k : Z) (l : list Ascii.ascii) : list Ascii.ascii :=
  if k <? 0 then take (Z.to_nat (Z.of_nat (length l) + k)) l
  else take (Z.to_nat k) l.

(** [InputSanitizer.sanitize_filename], on a name within ASCII: [len] and
    the slices count characters. *)
Definition sanitize_filename (filename : string) : string :=
  (* Remove directory separators and null bytes *)
  let filename :=
    remove Ascii.zero (remove "\"%char (remove "/"%char (chars filename))) in
  (* Remove leading dots to prevent hidden files *)
  let filename := lstrip_dots filename in
  (* Limit filename length *)
  str (if 255 <? Z.of_nat (length filename) then
         let '(name, ext) :=
           match rsplit_dot filename with
           | Some parts => parts
           | None => (filename, [])
           end in
         match ext with
         | [] => slice_to 255 name
         | _ => slice_to (255 - Z.of_nat (length ext) - 1) name
                ++ "."%char :: ext
         end
       else filename).

(** [s.split('.')[-1]]: what follows the last dot, all of [s] when it
    holds none. *)
Definition last_field (l : list Ascii.ascii) : list Ascii.ascii :=
  match rsplit_dot l with
  | Some (_, ext) => ext
  | None => l
  end.

(** [InputSanitizer.validate_file_type], on names and types within
    ASCII, where [lower] folds the letters A to Z. *)
Definition validate_file_type (filename : string)
    (allowed_types : list string) : bool :=
  if String.eqb filename "" then false
  else
    let extension :=
      if bool_decide ("."%char ∈ chars filename)
      then str (last_field (chars (security.lower filename)))
      else "" in
    bool_decide (extension ∈ security.lower <$> allowed_types).

End input_sanitizer.

Module password_validator.

Import input_sanitizer.

(** [PasswordValidator] *)
Record PasswordValidator : Type := {
  min_length : Z;
  max_length : Z;
  require_uppercase : bool;
  require_lowercase : bool;
  require_digits : bool;
  require_symbols : bool;
  min_unique_chars : Z
}.

(** [password_validator = PasswordValidator()] *)
Definition password_validator : PasswordValidator :=
  {| min_length := 8; max_length := 128;
     require_uppercase := true; require_lowercase := true;
     require_digits := true; require_symbols := true;
     min_unique_chars := 6 |}.

Definition isupper (c : Ascii.ascii) : bool :=
  let n := Ascii.nat_of_ascii c in ((65 <=? n) && (n <=? 90))%nat.

Definition islower (c : Ascii.ascii) : bool :=
  let n := Ascii.nat_of_ascii c in ((97 <=? n) && (n <=? 122))%nat.

Definition isdigit (c : Ascii.ascii) : bool :=
  let n := Ascii.nat_of_ascii c in ((48 <=? n) && (n <=? 57))%nat.

(** [c in set(string.punctuation)] *)
Definition is_punctuation (c : Ascii.ascii) : bool :=
  let n := Ascii.nat_of_ascii c in
  ((33 <=? n) && (n <=? 47) || (58 <=? n) && (n <=? 64)
   || (91 <=? n) && (n <=? 96) || (123 <=? n) && (n <=? 126))%nat.

(** [len(set(password))], on a password within ASCII *)
Definition unique_chars (password : string) : Z :=
  Z.of_nat (length (remove_dups (chars password))).

(** [seq in s] *)
Fixpoint contains (seq s : list Ascii.ascii) : bool :=
  bool_decide (seq `prefix_of` s)
  || match s with
     | [] => false
     | _ :: s' => contains seq s'
     end.

(** Sequential patterns *)
Definition sequences : list string :=
  ["123456"; "abcdef"; "qwerty"; "asdf"; "zxcv";
   "654321"; "fedcba"; "ytrewq"; "fdsa"; "vcxz"].

(** Keyboard patterns *)
Definition keyboard_patterns : list string :=
  ["qwerty"; "asdfgh"; "zxcvbn"; "qaz"; "wsx"; "edc"].

(** [PasswordValidator._is_common_pattern] *)
Definition is_common_pattern (password : string) : bool :=
  let password_lower := security.lower password in
  if existsb (λ seq, contains (chars seq) (chars password_lower)) sequences
  then true
  (* Repetitive patterns *)
  else if unique_chars password <? 4 then true
  else if existsb (λ pattern, contains (chars pattern) (chars password_lower))
            keyboard_patterns
  then true
  else false.

(** [errors.append(message)] when the check fails. *)
Definition check (failed : bool) (message : string) (errors : list string)
  : list string :=
  if failed then errors ++ [message] else errors.

(** [PasswordValidator.validate], on a password within ASCII:
    (is_valid, errors). *)
Definition validate (self : PasswordValidator) (password : string)
  : bool * list string :=
  let len := Z.of_nat (String.length password) in
  let errors := [] in
  (* Length checks *)
  let errors :=
    check (len <? min_length self)
      ("Password must be at least " +:+ pretty (min_length self)
       +:+ " characters long") errors in
  let errors :=
    check (max_length self <? len)
      ("Password must not exceed " +:+ pretty (max_length self)
       +:+ " characters") errors in
  (* Character type checks *)
  let errors :=
    check (require_uppercase self
           && negb (existsb isupper (chars password)))
      "Password must contain at least one uppercase letter" errors in
  let errors :=
    check (require_lowercase self
           && negb (existsb islower (chars password)))
      "Password must contain at least one lowercase letter" errors in
  let errors :=
    check (require_digits self && negb (existsb isdigit (chars password)))
      "Password must contain at least one digit" errors in
  let errors :=
    check (require_symbols self
           && negb (existsb is_punctuation (chars password)))
      "Password must contain at least one special character" errors in
  (* Unique characters check *)
  let errors :=
    check (unique_chars password <? min_unique_chars self)
      ("Password must contain at least " +:+ pretty (min_unique_chars self)
       +:+ " unique characters") errors in
  (* Common password patterns *)
  let errors :=
    check (is_common_pattern password)
      "Password contains common patterns and is too weak" errors in
  (bool_decide (length errors = 0%nat), errors).

End password_validator.

(** ** More sample data *)

Module samples.

(** Signed for ann's password reset, good for an hour from [T0]. *)
Definition reset_claims : gmap string value :=
  auth.claims_of
    [("email", VStr "ann@example.com");
     ("exp", VFloat (fixtures.T0 + 3600 * MICROS));
     ("iat", VFloat fixtures.T0); ("type", VStr "password_reset")].

Definition book : list (string * gmap string value) :=
  fixtures.book ++ [("tok.reset", reset_claims)].

Definition encode := fixtures.book_encode book.
Definition decode := fixtures.book_decode book.

(** A JSON codec that knows the objects listed. *)
Definition dumps_in (shelf : list (string * gmap string value))
    (d : gmap string value) : string :=
  match List.find (λ e, bool_decide (e.2 = d)) shelf with
  | Some e => e.1
  | None => "null"
  end.

Definition loads_in (shelf : list (string * gmap string value))
    (text : string) : option cache.json :=
  match List.find (λ e, String.eqb e.1 text) shelf with
  | Some e => Some (cache.JObject e.2)
  | None => if String.eqb text "null" then Some cache.JNull else None
  end.

(** A cache with one entry, good for a minute from [T0]. *)
Definition pantry : gmap string redis.entry :=
  {[ "greeting" := {| redis.val := redis.RString "hello";
                      redis.expire_at := Some (fixtures.T0 + 60 * MICROS) |} ]}.

(** What [create_session] stores for user 7 at [T0], and the same after an
    update. *)
Definition session_data : gmap string value :=
  {[ "ip" := VStr "10.0.0.1" ]}
  ∪ auth.claims_of [("user_id", VInt 7);
                    ("created_at", VStr (fixtures.iso fixtures.T0))].

Definition seen_data : gmap string value :=
  {[ "seen" := VBool true ]} ∪ session_data.

Definition shelf : list (string * gmap string value) :=
  [("{session}", session_data); ("{session, seen}", seen_data)].

Definition dumps := dumps_in shelf.
Definition loads := loads_in shelf.

(** A store holding that session under the identifier "s1", good for an
    hour from [T0]. *)
Definition sessions : gmap string redis.entry :=
  {[ "app:session:s1" :=
       {| redis.val := redis.RString "{session}";
          redis.expire_at := Some (fixtures.T0 + 3600 * MICROS) |} ]}.

(** Past requests of one client, 100 and 10 seconds before [T0]. *)
Definition past_requests : gmap string redis.entry :=
  {[ "app:rate_limit:api_requests:10.0.0.1" :=
       {| redis.val :=
            redis.RZSet {[ 1699999900 := 1699999900;
                           1699999990 := 1699999990 ]};
          redis.expire_at := Some (fixtures.T0 + 50 * MICROS) |} ]}.

(** Three connections, two of user 7 and one of user 8; the first of them
    has died since. *)
Definition alive (ws : websocket.WebSocket) : bool := negb (Pos.eqb ws 1).

Definition metadata_for (user_id : Z) : gmap string value :=
  auth.claims_of [("user_id", VInt user_id);
                  ("connected_at", VFloat fixtures.T0);
                  ("last_activity", VFloat fixtures.T0)].

Definition registry : websocket.world :=
  {| websocket.manager :=
       {| websocket.active_connections :=
            {[ 7 := [1%positive; 2%positive]; 8 := [3%positive] ]};
          websocket.connection_metadata :=
            {[ 1%positive := metadata_for 7; 2%positive := metadata_for 7;
               3%positive := metadata_for 8 ]} |};
     websocket.delivered := [] |}.

(** A file name of 307 characters: a parent directory, 300 letters and a
    short extension. *)
Definition long_name : string :=
  "../" +:+ input_sanitizer.str (replicate 300 (Ascii.ascii_of_nat 97))
  +:+ ".txt".

(** A file name of 256 characters, 254 of them after its only dot. *)
Definition long_extension : string :=
  input_sanitizer.str
    (Ascii.ascii_of_nat 97 :: Ascii.ascii_of_nat 46
     :: replicate 254 (Ascii.ascii_of_nat 98)).

(** A validator with every requirement switched off. *)
Definition lax_validator : password_validator.PasswordValidator :=
  {| password_validator.min_length := 0;
     password_validator.max_length := 1000;
     password_validator.require_uppercase := false;
     password_validator.require_lowercase := false;
     password_validator.require_digits := false;
     password_validator.require_symbols := false;
     password_validator.min_unique_chars := 0 |}.

End samples.

(** * Properties *)

(** ** Key-value store manager *)

Section redis_facts.
Context (settings : Settings).

(** [RedisManager.exists] swallows every failure of the store. *)
Lemma exists_never_raises (self : redis.RedisManager) key now :
  ∃ b, redis.exists_ self key now = Returns b.
Proof.
  unfold redis.exists_, redis.client_exists.
  destruct (redis.redis_client self) as [c|]; [|by eexists].
  destruct (redis.reachable c); by eexists.
Qed.

Lemma exists_store_down (self : redis.RedisManager) key now :
  (∀ c, redis.redis_client self = Some c → redis.reachable c = false) →
  redis.exists_ self key now = Returns false.
Proof.
  intros Hdown. unfold redis.exists_, redis.client_exists.
  destruct (redis.redis_client self) as [c|] eqn:E; [|done].
  by rewrite (Hdown c eq_refl).
Qed.

Lemma set_store_up ks key value ttl now :
  0 < ttl →
  redis.set settings (fixtures.up ks) key value (Some ttl) now =
  Returns (fixtures.up
             (<[key := {| redis.val := redis.RString value;
                          redis.expire_at := Some (now + ttl * MICROS) |}]> ks),
           true).
Proof.
  intros Httl. unfold redis.set, redis.client_set, redis.cmd_set. simpl.
  destruct (ttl =? 0) eqn:E0; [lia|].
  destruct (ttl <=? 0) eqn:E1; [lia|]. done.
Qed.


End redis_facts.

(** ** Password engine *)

Section security_facts.
Context (hasher_verify : option string → string → outcome bool).

Lemma verify_password_total plain hashed :
  security.verify_password hasher_verify plain hashed =
  Returns (negb (raised (hasher_verify hashed plain))).
Proof.
  unfold security.verify_password.
  destruct (hasher_verify hashed plain) as [b|e]; [done|].
  by destruct e.
Qed.

(** C6, amended: [verify_password] never raises.  It returns true when the
    hasher accepts the password, and false on a mismatch, on a hashing
    error and on every other failure of the hasher alike. *)
Theorem verify_password_never_raises plain hashed :
  ∃ b, security.verify_password hasher_verify plain hashed = Returns b
       ∧ (b = true ↔ ∃ r, hasher_verify hashed plain = Returns r)
       ∧ (hasher_verify hashed plain = Raises VerifyMismatchError → b = false)
       ∧ (∀ e, hasher_verify hashed plain = Raises e → b = false).
Proof.
  exists (negb (raised (hasher_verify hashed plain))).
  split; [apply verify_password_total|].
  destruct (hasher_verify hashed plain) as [r|e]; simpl.
  - repeat split; intros; try done. by exists r.
  - repeat split; intros; try done. by destruct H.
Qed.

End security_facts.

(** C6, as stated, fails: a hasher that meets a failure other than a
    mismatch (here a stored credential that is no argon2 hash at all) makes
    [verify_password] return false where the claim has it raise. *)
Lemma verify_password_propagates_counterexample :
  ¬ (∀ (hasher_verify : option string → string → outcome bool) plain hashed e,
       hasher_verify hashed plain = Raises e →
       e ≠ VerifyMismatchError →
       security.verify_password hasher_verify plain hashed = Raises e).
Proof.
  intros H.
  specialize (H (λ _ _, Raises (OtherError "InvalidHash")) "pw" (Some "garbage")
                (OtherError "InvalidHash") eq_refl).
  discriminate H. discriminate.
Qed.

(** ** Token manager *)

Section auth_facts.
Context (settings : Settings).
Context (jwt_encode : gmap string value → string → string → string).
Context (jwt_decode : string → string → list string → Z
                      → outcome (gmap string value)).
Context (http_exception_str : Z → string → string).

Lemma is_token_revoked_never_raises (mgr : redis.RedisManager) token now :
  ∃ b, auth.is_token_revoked mgr token now = Returns b.
Proof.
  unfold auth.is_token_revoked.
  destruct (exists_never_raises mgr (auth.blacklist_key token) now) as [b ->].
  by exists b.
Qed.

(** C1, amended: when the store cannot be asked (no client, or the server
    unreachable), the blacklist check fails open.  [is_token_revoked]
    returns false without raising, [verify_token_not_revoked] lets the
    token pass, and a token that verifies as an access token is accepted
    by [get_current_user_token]. *)
Theorem blacklist_check_fails_open (mgr : redis.RedisManager) token now :
  (∀ c, redis.redis_client mgr = Some c → redis.reachable c = false) →
  auth.is_token_revoked mgr token now = Returns false
  ∧ auth.verify_token_not_revoked mgr token now = Returns tt
  ∧ ∀ payload,
      auth.verify_token settings jwt_decode token now = Returns (Some payload) →
      Py.get payload "type" = VStr "access" →
      api.get_current_user_token settings jwt_decode http_exception_str
        mgr token now = Returns payload.
Proof.
  intros Hdown.
  assert (Hrev : auth.is_token_revoked mgr token now = Returns false).
  { unfold auth.is_token_revoked. by rewrite exists_store_down. }
  assert (Hnot : auth.verify_token_not_revoked mgr token now = Returns tt).
  { unfold auth.verify_token_not_revoked. by rewrite Hrev. }
  repeat split; [done..|].
  intros payload Hv Hty. unfold api.get_current_user_token.
  rewrite Hnot. simpl. rewrite Hv. simpl. rewrite Hty.
  by case_decide.
Qed.

(** C9: a token whose decoded claim set has no [exp] is invalid:
    [verify_token] returns no claim set, however good the signature. *)
Theorem verify_token_requires_exp token now payload :
  jwt_decode token (secret_key settings) [algorithm settings] now
    = Returns payload →
  payload !! "exp" = None →
  auth.verify_token settings jwt_decode token now = Returns None.
Proof.
  intros Hdec Hexp. unfold auth.verify_token. rewrite Hdec. simpl.
  unfold Py.get. by rewrite Hexp.
Qed.

(** The claim set [create_refresh_token] signs for [create_token_pair]. *)
Lemma refresh_claims_eq (user_id : Z) now :
  Py.update
    (auth.claims_of [("sub", VStr (pretty user_id)); ("type", VStr "refresh")])
    (auth.claims_of
       [("exp", VFloat (now + refresh_token_expire_days settings * 86400 * MICROS));
        ("iat", VFloat now); ("type", VStr "refresh")])
  = auth.claims_of
      [("sub", VStr (pretty user_id)); ("type", VStr "refresh");
       ("exp", VFloat (now + refresh_token_expire_days settings * 86400 * MICROS));
       ("iat", VFloat now)].
Proof.
  apply map_eq. intros k. unfold Py.update, auth.claims_of. simpl.
  rewrite lookup_union.
  destruct (decide (k = "exp")) as [->|]; [by simplify_map_eq|].
  destruct (decide (k = "iat")) as [->|]; [by simplify_map_eq|].
  destruct (decide (k = "type")) as [->|]; [by simplify_map_eq|].
  destruct (decide (k = "sub")) as [->|]; [by simplify_map_eq|].
  by simplify_map_eq.
Qed.

(** The claim set [create_access_token] signs: the data, with [exp], [iat]
    and [type] written over it. *)
Lemma access_claims_lookup (data : gmap string value) now k :
  Py.update data
    (auth.claims_of
       [("exp", VFloat (now + access_token_expire_minutes settings * 60 * MICROS));
        ("iat", VFloat now); ("type", VStr "access")]) !! k
  = if decide (k = "exp") then
      Some (VFloat (now + access_token_expire_minutes settings * 60 * MICROS))
    else if decide (k = "iat") then Some (VFloat now)
    else if decide (k = "type") then Some (VStr "access")
    else data !! k.
Proof.
  unfold Py.update, auth.claims_of. simpl. rewrite lookup_union.
  repeat case_decide; subst; simplify_map_eq; try done.
  all: by match goal with |- _ ∪ ?o = _ => destruct o end.
Qed.

(** C10: whatever [user_id] and [additional_data] are, the refresh token
    of [create_token_pair] signs exactly [sub] (the user id in decimal),
    [type = "refresh"], [exp] and [iat]; [email], [username] and
    [is_superuser] are not among them, while the access token carries
    each of them as the caller gave it. *)
Theorem refresh_token_claims_exact (user_id : Z)
    (additional_data : option (gmap string value)) now :
  ∃ refresh access : gmap string value,
    auth.refresh_token
      (auth.create_token_pair settings jwt_encode user_id additional_data now)
      = jwt_encode refresh (secret_key settings) (algorithm settings)
    ∧ auth.access_token
        (auth.create_token_pair settings jwt_encode user_id additional_data now)
      = jwt_encode access (secret_key settings) (algorithm settings)
    ∧ refresh =
        auth.claims_of
          [("sub", VStr (pretty user_id)); ("type", VStr "refresh");
           ("exp", VFloat (now + refresh_token_expire_days settings
                                 * 86400 * MICROS));
           ("iat", VFloat now)]
    ∧ dom refresh = ({["sub"; "type"; "exp"; "iat"]} : gset string)
    ∧ refresh !! "email" = None
    ∧ refresh !! "username" = None
    ∧ refresh !! "is_superuser" = None
    ∧ ∀ k, k ∈ ["email"; "username"; "is_superuser"] →
           access !! k = default ∅ additional_data !! k.
Proof.
  eexists _, _. split; [|split]; [reflexivity..|].
  cbv [auth.expire_at]. rewrite refresh_claims_eq.
  split; [done|]. split.
  { unfold auth.claims_of. simpl. rewrite !dom_insert_L, dom_empty_L.
    set_solver. }
  split; [done|]. split; [done|]. split; [done|].
  intros k Hk. rewrite access_claims_lookup.
  assert (k ≠ "exp" ∧ k ≠ "iat" ∧ k ≠ "type" ∧ k ≠ "sub") as (?&?&?&?).
  { rewrite !elem_of_cons, elem_of_nil in Hk.
    destruct Hk as [->|[->|[->|[]]]]; by repeat split. }
  repeat case_decide; try done.
  unfold auth.dict_truthy.
  destruct additional_data as [d|]; simpl.
  - case_bool_decide; simpl.
    + subst d. unfold auth.claims_of. simpl. by simplify_map_eq.
    + unfold Py.update, auth.claims_of. simpl. rewrite lookup_union.
      simplify_map_eq. by destruct (d !! k).
  - unfold auth.claims_of. simpl. by simplify_map_eq.
Qed.

End auth_facts.

(** C1, as stated, fails: the marker of a revoked token sits in the store,
    the store stops answering, and the check reports "not revoked" instead
    of an error; the revoked token is then accepted. *)
Lemma blacklist_check_fails_closed_counterexample :
  let ks : gmap string redis.entry :=
    {[ auth.blacklist_key "tok.access" :=
         fixtures.revoked_marker (fixtures.T0 + 1800 * MICROS) ]} in
  redis.cmd_exists ks (auth.blacklist_key "tok.access") fixtures.T0 = true
  ∧ auth.is_token_revoked (fixtures.up ks) "tok.access" fixtures.T0
    = Returns true
  ∧ auth.is_token_revoked (fixtures.down ks) "tok.access" fixtures.T0
    = Returns false
  ∧ api.get_current_user_token fixtures.cfg fixtures.decode
      (λ _ d, d) (fixtures.down ks) "tok.access" fixtures.T0
    = Returns fixtures.access_claims.
Proof. split; [|split; [|split]]; vm_compute; reflexivity. Qed.

Lemma blacklist_check_fails_open_witness :
  auth.is_token_revoked (fixtures.down ∅) "tok.access" fixtures.T0
    = Returns false
  ∧ auth.verify_token_not_revoked (fixtures.down ∅) "tok.access" fixtures.T0
    = Returns tt
  ∧ ∀ payload,
      auth.verify_token fixtures.cfg fixtures.decode "tok.access" fixtures.T0
        = Returns (Some payload) →
      Py.get payload "type" = VStr "access" →
      api.get_current_user_token fixtures.cfg fixtures.decode (λ _ d, d)
        (fixtures.down ∅) "tok.access" fixtures.T0 = Returns payload.
Proof.
  apply (blacklist_check_fails_open fixtures.cfg fixtures.decode (λ _ d, d)
           (fixtures.down ∅) "tok.access" fixtures.T0).
  simpl. intros c [= <-]. reflexivity.
Defined.

Lemma verify_token_requires_exp_witness :
  auth.verify_token fixtures.cfg fixtures.decode "tok.eternal" fixtures.T0
  = Returns None.
Proof.
  apply (verify_token_requires_exp fixtures.cfg fixtures.decode
           "tok.eternal" fixtures.T0 fixtures.eternal_claims).
  - vm_compute. reflexivity.
  - vm_compute. reflexivity.
Defined.

(** ** Token manager, continued: verification and revocation *)

Section token_facts.
Context (settings : Settings).
Context (jwt_encode : gmap string value → string → string → string).
Context (jwt_decode : string → string → list string → Z
                      → outcome (gmap string value)).

(** What a successful [verify_token] tells: the library decoded the token
    to that claim set, whose [exp] is a time not before [now]. *)
Lemma verify_token_Some token now payload :
  auth.verify_token settings jwt_decode token now = Returns (Some payload) →
  jwt_decode token (secret_key settings) [algorithm settings] now
    = Returns payload
  ∧ ∃ t, auth.fromtimestamp (Py.get payload "exp") = Returns t ∧ now ≤ t.
Proof.
  unfold auth.verify_token.
  destruct (jwt_decode _ _ _ _) as [p|e]; simpl.
  - case_decide; [done|].
    destruct (auth.fromtimestamp (Py.get p "exp")) as [t|e] eqn:Hft; simpl;
      [|by destruct e].
    destruct (t <? now) eqn:Hlt; [done|].
    intros [= ->]. split; [done|]. exists t. split; [done|lia].
  - by destruct e.
Qed.



End token_facts.



(** ** Rate limiter *)

(** C2, on the code: a window of limit 3 and 60 seconds, empty at first,
    asked four times within one clock second by one identifier, allows
    all four requests.  Each request is filed under the whole second it
    came in, and a second already filed is not filed twice. *)
Theorem rate_limit_same_second_all_allowed :
  (redis.rate_limit_run fixtures.cfg (fixtures.up ∅) "api_requests" 3 60
     "203.0.113.9"
     [fixtures.T0; fixtures.T0 + 1000; fixtures.T0 + 2000; fixtures.T0 + 3000]).2
  = [true; true; true; true].
Proof. vm_compute. reflexivity. Qed.

(** Requests that fall in four different seconds are counted one by one,
    and the window opens again once the oldest of them is [window] seconds
    old. *)
Example rate_limit_distinct_seconds :
  (redis.rate_limit_run fixtures.cfg (fixtures.up ∅) "api_requests" 3 60
     "203.0.113.9"
     [fixtures.T0; fixtures.T0 + 1 * MICROS; fixtures.T0 + 2 * MICROS;
      fixtures.T0 + 3 * MICROS; fixtures.T0 + 60 * MICROS]).2
  = [true; true; true; false; true].
Proof. vm_compute. reflexivity. Qed.

(** The limiter fails open when the store is unreachable. *)
Example rate_limit_store_down :
  (redis.rate_limit_run fixtures.cfg (fixtures.down ∅) "api_requests" 3 60
     "203.0.113.9" [fixtures.T0; fixtures.T0; fixtures.T0; fixtures.T0]).2
  = [true; true; true; true].
Proof. vm_compute. reflexivity. Qed.

(** The defect in general: once a second is on file, every further request
    of that second finds one entry and is allowed, whatever their number. *)
Section rate_limit_facts.
Context (settings : Settings).

Lemma same_second_bounds t s :
  0 ≤ t → int_seconds t = s → s * MICROS ≤ t < (s + 1) * MICROS.
Proof.
  unfold int_seconds, MICROS. intros Ht <-.
  rewrite Z.quot_div_nonneg by lia.
  pose proof (Z.div_mod t 1000000 ltac:(lia)).
  pose proof (Z.mod_pos_bound t 1000000 ltac:(lia)). lia.
Qed.

Lemma rate_limit_fresh_key ks key limit window identifier t :
  1 ≤ limit →
  1 ≤ window →
  redis.live ks (redis.rate_key settings key identifier) t = None →
  redis.rate_limit settings (fixtures.up ks) key limit window identifier t
  = Returns
      (fixtures.up
         (<[redis.rate_key settings key identifier :=
              {| redis.val := redis.RZSet {[int_seconds t := int_seconds t]};
                 redis.expire_at := Some (t + window * MICROS) |}]> ks),
       (true, limit - 1, int_seconds t + window)).
Proof.
  intros Hlim Hwin Hlive.
  unfold redis.rate_limit, redis.client_eval, redis.lua_script. simpl.
  unfold redis.zset_at, redis.expiry_at. rewrite Hlive. simpl.
  unfold redis.zremrangebyscore. rewrite map_filter_empty.
  unfold redis.zcard. rewrite map_size_empty.
  change (Z.of_nat 0) with 0.
  destruct (0 <? limit) eqn:E; [|lia].
  destruct (window <=? 0) eqn:Ew; [lia|].
  unfold redis.store_zset, redis.zadd.
  rewrite decide_False by apply insert_non_empty.
  rewrite decide_True by done.
  rewrite insert_delete_eq, insert_empty. simpl.
  by replace (limit - 0 - 1) with (limit - 1) by lia.
Qed.

Lemma rate_limit_same_member ks key limit window identifier t e :
  2 ≤ limit →
  1 ≤ window →
  t < e →
  ks !! redis.rate_key settings key identifier
    = Some {| redis.val := redis.RZSet {[int_seconds t := int_seconds t]};
              redis.expire_at := Some e |} →
  redis.rate_limit settings (fixtures.up ks) key limit window identifier t
  = Returns
      (fixtures.up
         (<[redis.rate_key settings key identifier :=
              {| redis.val := redis.RZSet {[int_seconds t := int_seconds t]};
                 redis.expire_at := Some (t + window * MICROS) |}]> ks),
       (true, limit - 2, int_seconds t + window)).
Proof.
  intros Hlim Hwin He Hks.
  unfold redis.rate_limit, redis.client_eval, redis.lua_script. simpl.
  unfold redis.zset_at, redis.expiry_at, redis.live, redis.expired.
  rewrite Hks. simpl.
  destruct (e <? t) eqn:E; [lia|]. simpl.
  unfold redis.zremrangebyscore.
  rewrite map_filter_singleton_True by (simpl; lia).
  unfold redis.zcard. rewrite map_size_singleton.
  change (Z.of_nat 1) with 1.
  destruct (1 <? limit) eqn:E1; [|lia].
  destruct (window <=? 0) eqn:Ew; [lia|].
  unfold redis.store_zset, redis.zadd.
  rewrite insert_singleton_eq.
  rewrite !decide_False by apply map_non_empty_singleton.
  rewrite insert_insert_eq. simpl.
  by replace (limit - 1 - 1) with (limit - 2) by lia.
Qed.

Lemma rate_limit_run_same_second ks key limit window identifier s e clocks :
  2 ≤ limit →
  1 ≤ window →
  (s + 1) * MICROS ≤ e →
  ks !! redis.rate_key settings key identifier
    = Some {| redis.val := redis.RZSet {[s := s]};
              redis.expire_at := Some e |} →
  Forall (λ t, 0 ≤ t ∧ int_seconds t = s) clocks →
  (redis.rate_limit_run settings (fixtures.up ks) key limit window identifier
     clocks).2
  = replicate (length clocks) true.
Proof.
  intros Hlim Hwin He Hks Hall. revert ks e He Hks.
  induction Hall as [|t clocks [Ht Hs] _ IH]; intros ks e He Hks; [done|].
  pose proof (same_second_bounds t s Ht Hs) as Hb.
  cbn [redis.rate_limit_run]. subst s.
  rewrite (rate_limit_same_member ks key limit window identifier t e)
    by (done || lia).
  cbn [snd length replicate]. f_equal.
  apply (IH _ (t + window * MICROS)).
  - unfold MICROS in *. lia.
  - by rewrite lookup_insert_eq.
Qed.

(** From a store that holds nothing for the identifier, any run of
    requests that fall in one clock second is allowed throughout. *)
Lemma rate_limit_same_second_unbounded ks key limit window identifier s clocks :
  2 ≤ limit →
  1 ≤ window →
  ks !! redis.rate_key settings key identifier = None →
  Forall (λ t, 0 ≤ t ∧ int_seconds t = s) clocks →
  (redis.rate_limit_run settings (fixtures.up ks) key limit window identifier
     clocks).2
  = replicate (length clocks) true.
Proof.
  intros Hlim Hwin Hks Hall.
  destruct Hall as [|t clocks [Ht Hs] Hall]; [done|].
  pose proof (same_second_bounds t s Ht Hs) as Hb.
  cbn [redis.rate_limit_run].
  rewrite rate_limit_fresh_key
    by (lia || (unfold redis.live; by rewrite Hks)).
  cbn [snd length replicate]. f_equal.
  apply (rate_limit_run_same_second _ key limit window identifier s
           (t + window * MICROS)); try done.
  - unfold MICROS in *. lia.
  - rewrite lookup_insert_eq. by rewrite Hs.
Qed.

End rate_limit_facts.

(** ** Endpoints *)

Section api_facts.
Context (settings : Settings).
Context (jwt_encode : gmap string value → string → string → string).
Context (jwt_decode : string → string → list string → Z
                      → outcome (gmap string value)).
Context (hasher_verify : option string → string → outcome bool).
Context (http_exception_str : Z → string → string).
Context (json_dumps : gmap string value → string).
Context (isoformat : Z → string).
Context (int_of_str : string → outcome Z).

#[local] Arguments models.get_by_email : simpl never.
#[local] Arguments models.get_by_username : simpl never.
#[local] Arguments models.get : simpl never.

Abbreviation login :=
  (api.login settings jwt_encode hasher_verify json_dumps isoformat).
Abbreviation request_password_reset :=
  (api.request_password_reset settings jwt_encode).

Lemma request_password_reset_constant request_email d now :
  request_password_reset request_email d now
  = Returns {| api.status := 200; api.body := api.reset_message |}.
Proof.
  unfold api.request_password_reset.
  by destruct (models.get_by_email d _) as [[u|]|e].
Qed.

(** C7: the password-reset request answers an email of an existing active
    user and an email of no user with the same status and the same body,
    the generic success message. *)
Theorem password_reset_request_indistinguishable
    d known unknown now now' u :
  models.get_by_email d (security.sanitize_email known) = Returns (Some u) →
  models.is_active u = true →
  models.get_by_email d (security.sanitize_email unknown) = Returns None →
  request_password_reset known d now = request_password_reset unknown d now'
  ∧ request_password_reset known d now
    = Returns {| api.status := 200; api.body := api.reset_message |}.
Proof.
  intros _ _ _. by rewrite !request_password_reset_constant.
Qed.

(** [login] up to the password check, for a user the lookup finds. *)
Lemma login_found request fresh now w u :
  (models.get_by_email (api.db w) (api.login_email request) = Returns (Some u)
   ∨ (models.get_by_email (api.db w) (api.login_email request) = Returns None
      ∧ models.get_by_username (api.db w) (api.login_email request)
        = Returns (Some u))) →
  (hasher_verify (models.hashed_password u) (api.login_password request)
     = Raises VerifyMismatchError →
   api.run (login request fresh now) w
   = (w, Raises (HTTPException 401 "Invalid credentials")))
  ∧ (∀ r, hasher_verify (models.hashed_password u) (api.login_password request)
          = Returns r →
          models.is_active u = false →
          api.run (login request fresh now) w
          = (w, Raises (HTTPException 401 "Account is deactivated"))).
Proof.
  intros Hfind. split.
  - intros Hpw. unfold api.login, api.try_, api.reading. simpl.
    destruct Hfind as [He|[He Hu]]; rewrite He; simpl;
      [|rewrite Hu; simpl];
      unfold security.verify_password; by rewrite Hpw.
  - intros r Hpw Hact. unfold api.login, api.try_, api.reading. simpl.
    destruct Hfind as [He|[He Hu]]; rewrite He; simpl;
      [|rewrite Hu; simpl];
      unfold security.verify_password; rewrite Hpw; simpl;
      by rewrite Hact.
Qed.

(** C5: an inactive user who gives the right password is refused with
    "Account is deactivated"; any user, active or not, who gives a wrong
    password is refused with "Invalid credentials", the very answer given
    when the email or username belongs to nobody. *)
Theorem login_failure_messages request fresh now w :
  (∀ u r,
     (models.get_by_email (api.db w) (api.login_email request)
        = Returns (Some u)
      ∨ (models.get_by_email (api.db w) (api.login_email request)
           = Returns None
         ∧ models.get_by_username (api.db w) (api.login_email request)
           = Returns (Some u))) →
     models.is_active u = false →
     hasher_verify (models.hashed_password u) (api.login_password request)
       = Returns r →
     api.run (login request fresh now) w
     = (w, Raises (HTTPException 401 "Account is deactivated")))
  ∧ (∀ u,
       (models.get_by_email (api.db w) (api.login_email request)
          = Returns (Some u)
        ∨ (models.get_by_email (api.db w) (api.login_email request)
             = Returns None
           ∧ models.get_by_username (api.db w) (api.login_email request)
             = Returns (Some u))) →
       hasher_verify (models.hashed_password u) (api.login_password request)
         = Raises VerifyMismatchError →
       api.run (login request fresh now) w
       = (w, Raises (HTTPException 401 "Invalid credentials")))
  ∧ (models.get_by_email (api.db w) (api.login_email request) = Returns None →
     models.get_by_username (api.db w) (api.login_email request)
       = Returns None →
     api.run (login request fresh now) w
     = (w, Raises (HTTPException 401 "Invalid credentials"))).
Proof.
  split; [|split].
  - intros u r Hfind Hact Hpw.
    by apply (proj2 (login_found request fresh now w u Hfind) r).
  - intros u Hfind Hpw.
    by apply (proj1 (login_found request fresh now w u Hfind)).
  - intros He Hu. unfold api.login, api.try_, api.reading. simpl.
    rewrite He. simpl. by rewrite Hu.
Qed.

End api_facts.

(** ** Token types across the flows *)

Section token_type_facts.
Context (settings : Settings).
Context (jwt_encode : gmap string value → string → string → string).
Context (jwt_decode : string → string → list string → Z
                      → outcome (gmap string value)).
Context (http_exception_str : Z → string → string).
Context (int_of_str : string → outcome Z).

(** The token library gives back the claims it signed, when it accepts a
    token it made with the configured key and algorithm. *)
Hypothesis decode_encode :
  ∀ c now p,
    jwt_decode (jwt_encode c (secret_key settings) (algorithm settings))
      (secret_key settings) [algorithm settings] now = Returns p →
    p = c.

Abbreviation verify_token := (auth.verify_token settings jwt_decode).
Abbreviation create_token_pair := (auth.create_token_pair settings jwt_encode).

Lemma access_token_type user_id additional_data issued now p :
  verify_token
    (auth.access_token (create_token_pair user_id additional_data issued)) now
    = Returns (Some p) →
  Py.get p "type" = VStr "access".
Proof.
  intros Hv. apply verify_token_Some in Hv as [Hdec _].
  unfold auth.create_token_pair in Hdec. cbn [auth.access_token] in Hdec.
  unfold auth.create_access_token, auth.expire_at in Hdec.
  apply decode_encode in Hdec. subst p.
  unfold Py.get. rewrite access_claims_lookup.
  repeat case_decide; done.
Qed.

Lemma refresh_token_type user_id additional_data issued now p :
  verify_token
    (auth.refresh_token (create_token_pair user_id additional_data issued)) now
    = Returns (Some p) →
  Py.get p "type" = VStr "refresh".
Proof.
  intros Hv. apply verify_token_Some in Hv as [Hdec _].
  unfold auth.create_token_pair in Hdec. cbn [auth.refresh_token] in Hdec.
  unfold auth.create_refresh_token, auth.expire_at in Hdec.
  apply decode_encode in Hdec. subst p.
  by rewrite refresh_claims_eq.
Qed.

Lemma typed_payload_truthy (p : gmap string value) s :
  Py.get p "type" = VStr s → auth.dict_truthy (Some p) = true.
Proof.
  intros Hty. unfold auth.dict_truthy. case_bool_decide; [|done].
  subst p. unfold Py.get in Hty. by rewrite lookup_empty in Hty.
Qed.

#[local] Arguments auth.dict_truthy : simpl never.
#[local] Arguments Py.get : simpl never.
#[local] Arguments websocket.str_truthy : simpl never.

(** C3: for a pair made by [create_token_pair] whose two tokens verify, the
    access token verifies with type "access" and the refresh token with
    type "refresh"; the refresh flow refuses the access token, and both
    the authenticated HTTP dependency and the WebSocket authentication
    refuse the refresh token. *)
Theorem token_pair_types_not_interchangeable
    user_id additional_data issued now pa pr mgr d :
  verify_token
    (auth.access_token (create_token_pair user_id additional_data issued)) now
    = Returns (Some pa) →
  verify_token
    (auth.refresh_token (create_token_pair user_id additional_data issued)) now
    = Returns (Some pr) →
  Py.get pa "type" = VStr "access"
  ∧ Py.get pr "type" = VStr "refresh"
  ∧ api.refresh_token settings jwt_encode jwt_decode int_of_str
      (auth.access_token (create_token_pair user_id additional_data issued))
      d now
    = Raises (HTTPException 401 "Invalid token type")
  ∧ (∃ detail,
       api.get_current_user_token settings jwt_decode http_exception_str mgr
         (auth.refresh_token (create_token_pair user_id additional_data issued))
         now
       = Raises (HTTPException 401 detail))
  ∧ (∃ reason,
       websocket.authenticate_websocket settings jwt_decode int_of_str None
         (Some (auth.refresh_token
                  (create_token_pair user_id additional_data issued))) now
       = websocket.Closed websocket.WS_1008_POLICY_VIOLATION reason)
  ∧ (∃ reason,
       websocket.authenticate_websocket settings jwt_decode int_of_str
         (Some (auth.refresh_token
                  (create_token_pair user_id additional_data issued))) None now
       = websocket.Closed websocket.WS_1008_POLICY_VIOLATION reason).
Proof.
  intros Ha Hr.
  pose proof (access_token_type _ _ _ _ _ Ha) as Hta.
  pose proof (refresh_token_type _ _ _ _ _ Hr) as Htr.
  pose proof (typed_payload_truthy _ _ Hta) as Hpa.
  pose proof (typed_payload_truthy _ _ Htr) as Hpr.
  remember (create_token_pair user_id additional_data issued) as pair
    eqn:Epair.
  clear Epair.
  split; [done|]. split; [done|]. split; [|split; [|split]].
  - unfold api.refresh_token. rewrite Ha. simpl.
    rewrite Hpa. simpl. rewrite Hta. by case_decide.
  - unfold api.get_current_user_token, auth.verify_token_not_revoked.
    destruct (is_token_revoked_never_raises mgr (auth.refresh_token pair) now)
      as [[] ->]; simpl.
    + by eexists.
    + rewrite Hr. simpl. rewrite Htr. case_decide; [|done].
      by eexists.
  - unfold websocket.authenticate_websocket.
    destruct (websocket.str_truthy (Some (auth.refresh_token pair))) eqn:Et;
      simpl.
    + rewrite Et. simpl. rewrite Hr.
      simpl. rewrite Hpr. simpl.
      rewrite Htr. case_decide; [|done]. by eexists.
    + simpl. by eexists.
  - unfold websocket.authenticate_websocket. simpl.
    destruct (websocket.str_truthy (Some (auth.refresh_token pair))) eqn:Et;
      simpl.
    + simpl. rewrite Hr.
      simpl. rewrite Hpr. simpl.
      rewrite Htr. case_decide; [|done]. by eexists.
    + by eexists.
Qed.

End token_type_facts.

(** The fixture library gives back what it signed. *)
Lemma fixtures_decode_encode c now p :
  fixtures.decode
    (fixtures.encode c (secret_key fixtures.cfg) (algorithm fixtures.cfg))
    (secret_key fixtures.cfg) [algorithm fixtures.cfg] now = Returns p →
  p = c.
Proof.
  unfold fixtures.encode, fixtures.book_encode, fixtures.book. simpl.
  repeat (case_bool_decide; simpl); subst;
    unfold fixtures.decode, fixtures.book_decode; simpl;
    try discriminate;
    repeat match goal with
           | |- context [match ?x with _ => _ end] => destruct x
           end;
    try discriminate; by intros [= <-].
Qed.

Lemma token_pair_types_not_interchangeable_witness :
  Py.get fixtures.access_claims "type" = VStr "access"
  ∧ Py.get fixtures.refresh_claims "type" = VStr "refresh"
  ∧ api.refresh_token fixtures.cfg fixtures.encode fixtures.decode
      fixtures.parse_int "tok.access" fixtures.users_db
      (fixtures.T0 + 60 * MICROS)
    = Raises (HTTPException 401 "Invalid token type")
  ∧ (∃ detail,
       api.get_current_user_token fixtures.cfg fixtures.decode
         fixtures.str_of_exception (fixtures.up ∅) "tok.refresh"
         (fixtures.T0 + 60 * MICROS)
       = Raises (HTTPException 401 detail))
  ∧ (∃ reason,
       websocket.authenticate_websocket fixtures.cfg fixtures.decode
         fixtures.parse_int None (Some "tok.refresh")
         (fixtures.T0 + 60 * MICROS)
       = websocket.Closed websocket.WS_1008_POLICY_VIOLATION reason)
  ∧ (∃ reason,
       websocket.authenticate_websocket fixtures.cfg fixtures.decode
         fixtures.parse_int (Some "tok.refresh") None
         (fixtures.T0 + 60 * MICROS)
       = websocket.Closed websocket.WS_1008_POLICY_VIOLATION reason).
Proof.
  apply (token_pair_types_not_interchangeable fixtures.cfg fixtures.encode
           fixtures.decode fixtures.str_of_exception fixtures.parse_int
           fixtures_decode_encode 7 (Some fixtures.ann_identity) fixtures.T0
           (fixtures.T0 + 60 * MICROS) fixtures.access_claims
           fixtures.refresh_claims (fixtures.up ∅) fixtures.users_db).
  - vm_compute. reflexivity.
  - vm_compute. reflexivity.
Defined.

Lemma password_reset_request_indistinguishable_witness :
  api.request_password_reset fixtures.cfg fixtures.encode
    " Ann@Example.com " fixtures.users_db fixtures.T0
  = api.request_password_reset fixtures.cfg fixtures.encode
      "nobody@example.com" fixtures.users_db (fixtures.T0 + 1)
  ∧ api.request_password_reset fixtures.cfg fixtures.encode
      " Ann@Example.com " fixtures.users_db fixtures.T0
    = Returns {| api.status := 200; api.body := api.reset_message |}.
Proof.
  apply (password_reset_request_indistinguishable fixtures.cfg fixtures.encode
           fixtures.users_db " Ann@Example.com " "nobody@example.com"
           fixtures.T0 (fixtures.T0 + 1) fixtures.ann).
  - vm_compute. reflexivity.
  - reflexivity.
  - vm_compute. reflexivity.
Defined.

Lemma login_failure_messages_witness :
  let attempt e p :=
    (api.run
       (api.login fixtures.cfg fixtures.encode fixtures.hasher fixtures.dumps
          fixtures.iso {| api.login_email := e; api.login_password := p |}
          "sid-1" fixtures.T0)
       fixtures.site).2 in
  attempt "bob@example.com" "battery staple"
    = Raises (HTTPException 401 "Account is deactivated")
  ∧ attempt "bob" "battery staple"
    = Raises (HTTPException 401 "Account is deactivated")
  ∧ attempt "bob@example.com" "guess"
    = Raises (HTTPException 401 "Invalid credentials")
  ∧ attempt "ann@example.com" "guess"
    = Raises (HTTPException 401 "Invalid credentials")
  ∧ attempt "nobody@example.com" "guess"
    = Raises (HTTPException 401 "Invalid credentials").
Proof.
  intros attempt. unfold attempt.
  pose proof (login_failure_messages fixtures.cfg fixtures.encode
                fixtures.hasher fixtures.dumps fixtures.iso) as L.
  split; [|split; [|split; [|split]]].
  - destruct (L {| api.login_email := "bob@example.com";
                   api.login_password := "battery staple" |}
                "sid-1" fixtures.T0 fixtures.site) as (H & _ & _).
    rewrite (H fixtures.bob true); [reflexivity| |reflexivity|].
    + left. vm_compute. reflexivity.
    + vm_compute. reflexivity.
  - destruct (L {| api.login_email := "bob";
                   api.login_password := "battery staple" |}
                "sid-1" fixtures.T0 fixtures.site) as (H & _ & _).
    rewrite (H fixtures.bob true); [reflexivity| |reflexivity|].
    + right. split; vm_compute; reflexivity.
    + vm_compute. reflexivity.
  - destruct (L {| api.login_email := "bob@example.com";
                   api.login_password := "guess" |}
                "sid-1" fixtures.T0 fixtures.site) as (_ & H & _).
    rewrite (H fixtures.bob); [reflexivity| |].
    + left. vm_compute. reflexivity.
    + vm_compute. reflexivity.
  - destruct (L {| api.login_email := "ann@example.com";
                   api.login_password := "guess" |}
                "sid-1" fixtures.T0 fixtures.site) as (_ & H & _).
    rewrite (H fixtures.ann); [reflexivity| |].
    + left. vm_compute. reflexivity.
    + vm_compute. reflexivity.
  - destruct (L {| api.login_email := "nobody@example.com";
                   api.login_password := "guess" |}
                "sid-1" fixtures.T0 fixtures.site) as (_ & _ & H).
    rewrite H; [reflexivity| |]; vm_compute; reflexivity.
Defined.

(** A successful login, for comparison. *)
Example login_ann_succeeds :
  match
    (api.run
       (api.login fixtures.cfg fixtures.encode fixtures.hasher fixtures.dumps
          fixtures.iso
          {| api.login_email := "ann@example.com";
             api.login_password := "correct horse" |}
          "sid-1" fixtures.T0)
       fixtures.site).2
  with
  | Returns r =>
      Some (auth.access_token (api.tokens r),
            auth.refresh_token (api.tokens r), api.session_id r)
  | Raises _ => None
  end = Some ("tok.access", "tok.refresh", "sid-1").
Proof. vm_compute. reflexivity. Qed.

(** ** Connection manager *)

Section websocket_facts.
Context (alive : websocket.WebSocket → bool).
Context (isoformat : Z → string).

Import websocket.

Lemma touch_registered now ws' self ws u :
  registered_to self ws u → registered_to (touch now ws' self) ws u.
Proof.
  intros (md & Hmd & Hu). unfold registered_to, touch. simpl.
  destruct (decide (ws' = ws)) as [->|Hne].
  - exists (<["last_activity" := VFloat now]> md).
    rewrite lookup_alter_eq, Hmd. split; [done|].
    by rewrite lookup_insert_ne.
  - exists md. by rewrite lookup_alter_ne.
Qed.

(** The sending loop over connections that are all alive: nothing is marked
    for removal, every connection but the excluded one gets the message, in
    order, and the registry keeps its shape. *)
Lemma broadcast_steps_alive now message exclude conns w rm :
  Forall (λ ws, alive ws = true) conns →
  ∃ w',
    fold_left (broadcast_step alive now message exclude) conns (w, rm)
      = (w', rm)
    ∧ delivered w'
      = delivered w
        ++ ((λ ws, (ws, message)) <$> filter (λ ws, exclude ≠ Some ws) conns)
    ∧ active_connections (manager w') = active_connections (manager w)
    ∧ ∀ ws u, registered_to (manager w) ws u → registered_to (manager w') ws u.
Proof.
  intros Hall. revert w. induction Hall as [|ws conns Hws Hall IH]; intros w.
  - exists w. simpl. by rewrite app_nil_r.
  - simpl. unfold broadcast_step at 2. simpl.
    case_bool_decide as Hex.
    + destruct (IH w) as (w' & Hf & Hd & Ha & Hr).
      exists w'. rewrite filter_cons_False by (intros ?; done).
      done.
    + rewrite Hws.
      destruct (IH {| manager := touch now ws (manager w);
                      delivered := delivered w ++ [(ws, message)] |})
        as (w' & Hf & Hd & Ha & Hr).
      exists w'. split; [done|]. split; [|split].
      * rewrite Hd. simpl. rewrite filter_cons_True by done.
        rewrite fmap_cons, <- app_assoc. done.
      * by rewrite Ha.
      * intros ws0 u H0. apply Hr. simpl. by apply touch_registered.
Qed.

Lemma broadcast_alive disc now u message exclude w conns :
  active_connections (manager w) !! u = Some conns →
  Forall (λ ws, alive ws = true) conns →
  ∃ w',
    broadcast_with alive disc now u message exclude w = Some w'
    ∧ delivered w'
      = delivered w
        ++ ((λ ws, (ws, message)) <$> filter (λ ws, exclude ≠ Some ws) conns)
    ∧ active_connections (manager w') = active_connections (manager w)
    ∧ ∀ ws u, registered_to (manager w) ws u → registered_to (manager w') ws u.
Proof.
  intros Hu Hall. unfold broadcast_with. rewrite Hu.
  destruct (broadcast_steps_alive now message exclude conns w [] Hall)
    as (w' & Hf & Hrest).
  exists w'. rewrite Hf. simpl. done.
Qed.

Lemma filter_keeps_all {A} (P : A → Prop) `{∀ x, Decision (P x)} (l : list A) :
  Forall P l → filter P l = l.
Proof.
  induction 1 as [|x l Hx _ IH]; [done|].
  by rewrite filter_cons_True, IH.
Qed.

Lemma filter_other_socket (ws : WebSocket) (l : list WebSocket) :
  ws ∉ l → filter (λ x, x ≠ ws) l = l.
Proof.
  intros Hnot. apply filter_keeps_all, Forall_forall.
  intros x Hx ->. done.
Qed.

Lemma filter_not_excluded (exclude : option WebSocket) (l : list WebSocket) :
  (∀ ws, exclude = Some ws → ws ∉ l) →
  filter (λ x, exclude ≠ Some x) l = l.
Proof.
  intros Hnot. apply filter_keeps_all, Forall_forall.
  intros x Hx ->. by apply (Hnot x).
Qed.

(** [connect] when the user's connections are all alive. *)
Lemma connect_alive fuel now ws u md w :
  Forall (λ x, alive x = true)
    (default [] (active_connections (manager w) !! u)) →
  alive ws = true →
  ws ∉ default [] (active_connections (manager w) !! u) →
  default ∅ md !! "user_id" = None →
  ∃ w',
    connect alive isoformat fuel now ws u md w = Some w'
    ∧ active_connections (manager w')
      = <[u := default [] (active_connections (manager w) !! u) ++ [ws]]>
          (active_connections (manager w))
    ∧ delivered w'
      = delivered w
        ++ ((λ x, (x, established_message isoformat u now))
              <$> default [] (active_connections (manager w) !! u))
    ∧ registered_to (manager w') ws u
    ∧ ∀ ws0 u0, ws0 ≠ ws →
        registered_to (manager w) ws0 u0 → registered_to (manager w') ws0 u0.
Proof.
  intros Hall Hws Hnot Hmd.
  set (l := default [] (active_connections (manager w) !! u)) in *.
  unfold connect, broadcast_to_user. fold l.
  match goal with
  | |- context [broadcast_with _ _ _ _ _ _ ?w1] =>
      destruct (broadcast_alive (disconnect alive isoformat fuel now) now u
                  (established_message isoformat u now) (Some ws) w1
                  (l ++ [ws]))
        as (w' & Hb & Hd & Ha & Hr)
  end.
  { simpl. by rewrite lookup_insert_eq. }
  { apply Forall_app. split; [done|]. by constructor. }
  exists w'. split; [done|]. split; [by rewrite Ha|]. split.
  { rewrite Hd. simpl.
    rewrite filter_app, filter_not_excluded by (by intros ? [= <-]).
    rewrite filter_cons_False, filter_nil, app_nil_r by (intros ?; done).
    done. }
  split.
  - apply Hr. unfold registered_to. simpl. rewrite lookup_insert_eq.
    eexists. split; [done|].
    rewrite lookup_union, Hmd. unfold auth.claims_of. simpl.
    by simplify_map_eq.
  - intros ws0 u0 Hne (md0 & Hmd0 & Hu0). apply Hr.
    exists md0. simpl. by rewrite lookup_insert_ne.
Qed.

(** [disconnect] of a registered connection when the user's other
    connections are all alive: one level of recursion is enough. *)
Lemma disconnect_alive fuel now ws u w conns :
  registered_to (manager w) ws u →
  active_connections (manager w) !! u = Some conns →
  Forall (λ x, alive x = true) (filter (λ x, x ≠ ws) conns) →
  ∃ w',
    disconnect alive isoformat (S fuel) now ws w = Some w'
    ∧ active_connections (manager w')
      = match filter (λ x, x ≠ ws) conns with
        | [] => delete u (active_connections (manager w))
        | l => <[u := l]> (active_connections (manager w))
        end
    ∧ ∀ ws0 u0, ws0 ≠ ws →
        registered_to (manager w) ws0 u0 → registered_to (manager w') ws0 u0.
Proof.
  intros (md & Hmd & Hu) Hconns Hall. simpl. rewrite Hmd.
  rewrite bool_decide_eq_false_2
    by (intros ->; by rewrite lookup_empty in Hu).
  unfold Py.get. rewrite Hu. simpl. rewrite Hconns.
  destruct (filter (λ x, x ≠ ws) conns) as [|c rest] eqn:Hf.
  - rewrite lookup_delete_eq.
    rewrite bool_decide_eq_false_2 by (by intros [? ?]).
    eexists. split; [done|]. split; [done|].
    intros ws0 u0 Hne (md0 & Hmd0 & Hu0). exists md0. simpl.
    by rewrite lookup_delete_ne.
  - rewrite lookup_insert_eq. rewrite bool_decide_eq_true_2 by by eexists.
    match goal with
    | |- context [broadcast_with _ ?d _ _ ?m _ ?w1] =>
        destruct (broadcast_alive d now u m None w1 (c :: rest))
          as (w' & Hb & Hd & Ha & Hr)
    end.
    { simpl. by rewrite lookup_insert_eq. }
    { done. }
    exists w'. split; [done|]. split; [by rewrite Ha|].
    intros ws0 u0 Hne (md0 & Hmd0 & Hu0). apply Hr.
    exists md0. simpl. by rewrite lookup_delete_ne.
Qed.

Lemma count_lookup (self : ConnectionManager) u conns :
  active_connections self !! u = Some conns →
  get_user_connection_count self u = length conns.
Proof. intros H. unfold get_user_connection_count. by rewrite H. Qed.

(** C8: two distinct live sockets connect for one user, whose earlier
    connections [l0] (if any) are live too.  A broadcast to the user then
    reaches every connection, the two new ones included; with one of the
    two excluded it reaches the other and not the excluded one.  When one
    of the two disconnects the user's count drops by exactly one, when the
    second follows it drops by one again, and each time the user has an
    entry in the registry exactly when the count is not zero. *)
Theorem two_sockets_one_user (w0 : world) u ws1 ws2 md1 md2 now message fuel :
  let l0 := default [] (active_connections (manager w0) !! u) in
  ws1 ≠ ws2 →
  ws1 ∉ l0 →
  ws2 ∉ l0 →
  alive ws1 = true →
  alive ws2 = true →
  Forall (λ x, alive x = true) l0 →
  default ∅ md1 !! "user_id" = None →
  default ∅ md2 !! "user_id" = None →
  ∃ w1 w2,
    connect alive isoformat fuel now ws1 u md1 w0 = Some w1
    ∧ connect alive isoformat fuel now ws2 u md2 w1 = Some w2
    ∧ get_user_connection_count (manager w2) u = (length l0 + 2)%nat
    ∧ (∃ w3,
         broadcast_to_user alive isoformat fuel now u message None w2 = Some w3
         ∧ delivered w3
           = delivered w2
             ++ ((λ x, (x, message)) <$> (l0 ++ [ws1; ws2])))
    ∧ (∃ w3,
         broadcast_to_user alive isoformat fuel now u message (Some ws1) w2
           = Some w3
         ∧ delivered w3
           = delivered w2 ++ ((λ x, (x, message)) <$> (l0 ++ [ws2])))
    ∧ (∃ w3,
         broadcast_to_user alive isoformat fuel now u message (Some ws2) w2
           = Some w3
         ∧ delivered w3
           = delivered w2 ++ ((λ x, (x, message)) <$> (l0 ++ [ws1])))
    ∧ ∃ w3 w4,
        disconnect alive isoformat (S fuel) now ws1 w2 = Some w3
        ∧ S (get_user_connection_count (manager w3) u)
          = get_user_connection_count (manager w2) u
        ∧ (is_Some (active_connections (manager w3) !! u)
           ↔ get_user_connection_count (manager w3) u ≠ 0%nat)
        ∧ disconnect alive isoformat (S fuel) now ws2 w3 = Some w4
        ∧ S (get_user_connection_count (manager w4) u)
          = get_user_connection_count (manager w3) u
        ∧ (is_Some (active_connections (manager w4) !! u)
           ↔ get_user_connection_count (manager w4) u ≠ 0%nat).
Proof.
  intros l0 Hne Hn1 Hn2 Ha1 Ha2 Hall Hmd1 Hmd2.
  destruct (connect_alive fuel now ws1 u md1 w0 Hall Ha1 Hn1 Hmd1)
    as (w1 & Hc1 & Hact1 & _ & Hreg1 & _).
  fold l0 in Hact1.
  assert (Hl1 : active_connections (manager w1) !! u = Some (l0 ++ [ws1])).
  { by rewrite Hact1, lookup_insert_eq. }
  assert (Hall1 : Forall (λ x, alive x = true) (l0 ++ [ws1])).
  { apply Forall_app. split; [done|]. by constructor. }
  assert (Hn21 : ws2 ∉ l0 ++ [ws1]).
  { rewrite elem_of_app, list_elem_of_singleton. intros [?|?]; done. }
  destruct (connect_alive fuel now ws2 u md2 w1) as
    (w2 & Hc2 & Hact2 & _ & Hreg2 & Hkeep2); rewrite ?Hl1; try done.
  rewrite Hl1 in Hact2. simpl in Hact2.
  assert (Hl2 : active_connections (manager w2) !! u
                = Some ((l0 ++ [ws1]) ++ [ws2])).
  { by rewrite Hact2, lookup_insert_eq. }
  assert (Hall2 : Forall (λ x, alive x = true) ((l0 ++ [ws1]) ++ [ws2])).
  { apply Forall_app. split; [done|]. by constructor. }
  exists w1, w2. split; [done|]. split; [done|]. split.
  { rewrite (count_lookup _ _ _ Hl2), !length_app. simpl. lia. }
  split; [|split; [|split]].
  - destruct (broadcast_alive (disconnect alive isoformat fuel now) now u
                message None w2 _ Hl2 Hall2) as (w3 & Hb & Hd & _).
    exists w3. split; [done|]. rewrite Hd, filter_not_excluded by done.
    by rewrite <- app_assoc.
  - destruct (broadcast_alive (disconnect alive isoformat fuel now) now u
                message (Some ws1) w2 _ Hl2 Hall2) as (w3 & Hb & Hd & _).
    exists w3. split; [done|]. rewrite Hd. do 2 f_equal.
    rewrite !filter_app, filter_not_excluded by (by intros ? [= <-]).
    rewrite (filter_cons_False _ ws1) by (intros ?; done).
    rewrite (filter_cons_True _ ws2) by congruence.
    by rewrite !filter_nil, app_nil_r.
  - destruct (broadcast_alive (disconnect alive isoformat fuel now) now u
                message (Some ws2) w2 _ Hl2 Hall2) as (w3 & Hb & Hd & _).
    exists w3. split; [done|]. rewrite Hd. do 2 f_equal.
    rewrite !filter_app, filter_not_excluded by (by intros ? [= <-]).
    rewrite (filter_cons_True _ ws1) by congruence.
    rewrite (filter_cons_False _ ws2) by (intros ?; done).
    by rewrite !filter_nil, app_nil_r.
  - assert (Hf1 : filter (λ x, x ≠ ws1) ((l0 ++ [ws1]) ++ [ws2])
                  = l0 ++ [ws2]).
    { rewrite !filter_app, filter_other_socket by done.
      rewrite (filter_cons_False _ ws1) by (intros ?; done).
      rewrite (filter_cons_True _ ws2) by done.
      by rewrite !filter_nil, app_nil_r. }
    assert (Hf2 : filter (λ x, x ≠ ws2) (l0 ++ [ws2]) = l0).
    { rewrite !filter_app, filter_other_socket by done.
      rewrite (filter_cons_False _ ws2) by (intros ?; done).
      by rewrite filter_nil, app_nil_r. }
    destruct (disconnect_alive fuel now ws1 u w2 _ (Hkeep2 _ _ Hne Hreg1) Hl2)
      as (w3 & Hd3 & Hact3 & Hkeep3).
    { rewrite Hf1. apply Forall_app. split; [done|]. by constructor. }
    rewrite Hf1 in Hact3.
    assert (Hl3 : active_connections (manager w3) !! u = Some (l0 ++ [ws2])).
    { rewrite Hact3. destruct (l0 ++ [ws2]) eqn:E.
      - by destruct l0.
      - by rewrite lookup_insert_eq. }
    assert (ws2 ≠ ws1) as Hne' by done.
    destruct (disconnect_alive fuel now ws2 u w3 _ (Hkeep3 _ _ Hne' Hreg2) Hl3)
      as (w4 & Hd4 & Hact4 & _).
    { by rewrite Hf2. }
    rewrite Hf2 in Hact4.
    exists w3, w4. split; [done|]. split.
    { rewrite (count_lookup _ _ _ Hl3), (count_lookup _ _ _ Hl2), !length_app.
      simpl. lia. }
    split.
    { rewrite (count_lookup _ _ _ Hl3), Hl3, length_app. simpl.
      split; [lia|by eexists]. }
    split; [done|].
    rewrite (count_lookup _ _ _ Hl3), length_app. simpl.
    destruct l0 as [|c rest] eqn:El0.
    + assert (Hl4 : active_connections (manager w4) !! u = None).
      { by rewrite Hact4, lookup_delete_eq. }
      unfold get_user_connection_count. rewrite Hl4. simpl.
      split; [done|]. split; [by intros [? ?]|done].
    + assert (Hl4 : active_connections (manager w4) !! u = Some (c :: rest)).
      { by rewrite Hact4, lookup_insert_eq. }
      rewrite (count_lookup _ _ _ Hl4), Hl4. simpl.
      split; [lia|]. split; [done|by eexists].
Qed.

End websocket_facts.

Lemma two_sockets_one_user_witness :
  let alive := λ _ : websocket.WebSocket, true in
  let w0 := {| websocket.manager := websocket.init;
               websocket.delivered := [] |} in
  let ws1 := 1%positive in
  let ws2 := 2%positive in
  let u := 7 in
  let now := fixtures.T0 in
  let message := auth.claims_of [("type", VStr "private_message")] in
  let md := Some (auth.claims_of [("email", VStr "ann@example.com");
                                  ("username", VStr "ann")]) in
  let l0 := default []
              (websocket.active_connections (websocket.manager w0) !! u) in
  ∃ w1 w2,
    websocket.connect alive fixtures.iso 0 now ws1 u md w0 = Some w1
    ∧ websocket.connect alive fixtures.iso 0 now ws2 u md w1 = Some w2
    ∧ websocket.get_user_connection_count (websocket.manager w2) u
      = (length l0 + 2)%nat
    ∧ (∃ w3,
         websocket.broadcast_to_user alive fixtures.iso 0 now u message None w2
           = Some w3
         ∧ websocket.delivered w3
           = websocket.delivered w2
             ++ ((λ x, (x, message)) <$> (l0 ++ [ws1; ws2])))
    ∧ (∃ w3,
         websocket.broadcast_to_user alive fixtures.iso 0 now u message
           (Some ws1) w2 = Some w3
         ∧ websocket.delivered w3
           = websocket.delivered w2 ++ ((λ x, (x, message)) <$> (l0 ++ [ws2])))
    ∧ (∃ w3,
         websocket.broadcast_to_user alive fixtures.iso 0 now u message
           (Some ws2) w2 = Some w3
         ∧ websocket.delivered w3
           = websocket.delivered w2 ++ ((λ x, (x, message)) <$> (l0 ++ [ws1])))
    ∧ ∃ w3 w4,
        websocket.disconnect alive fixtures.iso 1 now ws1 w2 = Some w3
        ∧ S (websocket.get_user_connection_count (websocket.manager w3) u)
          = websocket.get_user_connection_count (websocket.manager w2) u
        ∧ (is_Some (websocket.active_connections (websocket.manager w3) !! u)
           ↔ websocket.get_user_connection_count (websocket.manager w3) u
             ≠ 0%nat)
        ∧ websocket.disconnect alive fixtures.iso 1 now ws2 w3 = Some w4
        ∧ S (websocket.get_user_connection_count (websocket.manager w4) u)
          = websocket.get_user_connection_count (websocket.manager w3) u
        ∧ (is_Some (websocket.active_connections (websocket.manager w4) !! u)
           ↔ websocket.get_user_connection_count (websocket.manager w4) u
             ≠ 0%nat).
Proof.
  intros alive w0 ws1 ws2 u now message md l0.
  apply (two_sockets_one_user alive fixtures.iso w0 u ws1 ws2 md md now
           message 0%nat).
  - discriminate.
  - vm_compute. apply not_elem_of_nil.
  - vm_compute. apply not_elem_of_nil.
  - reflexivity.
  - reflexivity.
  - vm_compute. constructor.
  - vm_compute. reflexivity.
  - vm_compute. reflexivity.
Defined.

(** A run with a dead socket: [ws1] has died by the time [ws2] connects,
    the notice to it fails, and it is dropped from the registry. *)
Example connect_drops_dead_socket :
  let alive_then := λ ws : websocket.WebSocket, negb (Pos.eqb ws 1) in
  let w0 := {| websocket.manager := websocket.init;
               websocket.delivered := [] |} in
  (w1 ← websocket.connect (λ _, true) fixtures.iso 1 fixtures.T0 1%positive
          7 None w0;
   w2 ← websocket.connect alive_then fixtures.iso 1 fixtures.T0 2%positive
          7 None w1;
   Some (websocket.active_connections (websocket.manager w2) !! 7,
         websocket.connection_metadata (websocket.manager w2) !! 1%positive))
  = Some (Some [2%positive], None).
Proof. vm_compute. reflexivity. Qed.

(** * Further properties *)

(** * Further properties *)

(** ** Cache operations

    The server keeps time in milliseconds: the statements below say when a
    key is still read back and when it is gone, and leave the millisecond
    that follows an expiry aside. *)

Section cache_facts.
Context (settings : Settings).

Lemma live_insert_eq ks key e now :
  redis.live (<[key := e]> ks) key now
  = if redis.expired e now then None else Some e.
Proof. unfold redis.live. by rewrite lookup_insert_eq. Qed.

Lemma live_insert_ne ks key key' e now :
  key ≠ key' →
  redis.live (<[key := e]> ks) key' now = redis.live ks key' now.
Proof. intros. unfold redis.live. by rewrite lookup_insert_ne. Qed.

Lemma live_delete_eq ks key now : redis.live (delete key ks) key now = None.
Proof. unfold redis.live. by rewrite lookup_delete_eq. Qed.

(** An entry written with an expiry: there up to the expiry, gone after. *)
Lemma live_insert_until ks key v until later :
  redis.live
    (<[key := {| redis.val := v; redis.expire_at := Some until |}]> ks)
    key later
  = if later <=? until
    then Some {| redis.val := v; redis.expire_at := Some until |}
    else None.
Proof.
  rewrite live_insert_eq. unfold redis.expired. simpl.
  destruct (until <? later) eqn:E; destruct (later <=? until) eqn:E';
    (done || lia).
Qed.

(** The seconds [RedisManager.set] hands to the server. *)
Lemma set_up_effective ks key value expire now :
  let ex := match expire with
            | Some e => if e =? 0 then cache_ttl settings else e
            | None => cache_ttl settings
            end in
  0 < ex →
  redis.set settings (fixtures.up ks) key value expire now
  = Returns
      (fixtures.up
         (<[key := {| redis.val := redis.RString value;
                      redis.expire_at := Some (now + ex * MICROS) |}]> ks),
       true).
Proof.
  intros ex Hex. unfold redis.set, redis.client_set, redis.cmd_set. simpl.
  fold ex. destruct (ex <=? 0) eqn:E; [lia|]. done.
Qed.

Lemma get_up ks key now :
  cache.get (fixtures.up ks) key now
  = match redis.live ks key now with
    | Some {| redis.val := redis.RString s |} => Returns (Some s)
    | _ => Returns None
    end.
Proof.
  unfold cache.get, cache.client_get, cache.cmd_get. simpl.
  by destruct (redis.live ks key now) as [[[]]|].
Qed.

Lemma exists_up ks key now :
  redis.exists_ (fixtures.up ks) key now
  = Returns (bool_decide (is_Some (redis.live ks key now))).
Proof. done. Qed.

(** X1: on a reachable store a value set with a time to live is read back
    unchanged, and reported to exist, at every moment up to and including
    that many seconds after the set; once they have passed by a
    millisecond, the grain of the server's clock, it is gone.  Without an
    explicit time to live (or with 0) the configured [cache_ttl] is the
    one that counts. *)
Theorem set_then_get ks key value expire now later :
  let ex := match expire with
            | Some e => if e =? 0 then cache_ttl settings else e
            | None => cache_ttl settings
            end in
  0 < ex →
  now ≤ later →
  ∃ mgr,
    redis.set settings (fixtures.up ks) key value expire now
      = Returns (mgr, true)
    ∧ (later ≤ now + ex * MICROS →
       cache.get mgr key later = Returns (Some value)
       ∧ redis.exists_ mgr key later = Returns true)
    ∧ (now + ex * MICROS + 1000 ≤ later →
       cache.get mgr key later = Returns None
       ∧ redis.exists_ mgr key later = Returns false).
Proof.
  intros ex Hex Hlater. eexists. split; [by apply set_up_effective|].
  fold ex. rewrite get_up, exists_up, live_insert_until.
  split; intros Hw.
  - destruct (later <=? now + ex * MICROS) eqn:E; [|lia].
    split; [done|]. by rewrite bool_decide_eq_true_2 by by eexists.
  - destruct (later <=? now + ex * MICROS) eqn:E; [lia|].
    split; [done|]. by rewrite bool_decide_eq_false_2 by by intros [? ?].
Qed.

(** An entry that has run out stays out as time goes on. *)
Lemma live_None_later ks key now later :
  now ≤ later → redis.live ks key now = None → redis.live ks key later = None.
Proof.
  unfold redis.live, redis.expired. intros Hle.
  destruct (ks !! key) as [[v [t|]]|]; simpl; try done.
  destruct (t <? now) eqn:E; [|done].
  destruct (t <? later) eqn:E'; [done|lia].
Qed.

(** X2: on a reachable store [delete] answers true exactly when the key was
    there (and not run out); afterwards the key reads as absent at any
    later time, and every other key reads as before. *)
Theorem delete_then_get ks key now later :
  now ≤ later →
  ∃ mgr,
    cache.delete (fixtures.up ks) key now
      = Returns (mgr, bool_decide (is_Some (redis.live ks key now)))
    ∧ cache.get mgr key later = Returns None
    ∧ redis.exists_ mgr key later = Returns false
    ∧ ∀ other, other ≠ key →
        cache.get mgr other later = cache.get (fixtures.up ks) other later.
Proof.
  intros Hle.
  unfold cache.delete, cache.client_delete, cache.cmd_del. simpl.
  destruct (redis.live ks key now) as [e|] eqn:El; simpl.
  - exists (fixtures.up (delete key ks)). split; [done|].
    rewrite get_up, live_delete_eq.
    unfold redis.exists_, redis.client_exists, redis.cmd_exists. simpl.
    rewrite live_delete_eq.
    rewrite bool_decide_eq_false_2 by by intros [? ?].
    repeat split; try done.
    intros other Hne. rewrite !get_up. unfold redis.live.
    by rewrite lookup_delete_ne.
  - exists (fixtures.up ks). split; [done|].
    pose proof (live_None_later ks key now later Hle El) as Hl.
    rewrite get_up, Hl.
    unfold redis.exists_, redis.client_exists, redis.cmd_exists. simpl.
    rewrite Hl. rewrite bool_decide_eq_false_2 by by intros [? ?].
    done.
Qed.

(** X3: [expire] on a key that is there answers true, keeps its value and
    replaces its time to live, whatever the old expiry was: with a
    positive number of seconds the value is read back at every moment up
    to and including that many seconds after the call, and is gone once
    they have passed by a millisecond; with a number that is not positive
    the key is gone at once.
    On a key that is not there [expire] answers false and stores
    nothing. *)
Theorem expire_replaces_ttl ks key seconds now later :
  now ≤ later →
  (∀ value old,
     redis.live ks key now
       = Some {| redis.val := redis.RString value; redis.expire_at := old |} →
     ∃ mgr,
       cache.expire (fixtures.up ks) key seconds now = Returns (mgr, true)
       ∧ (0 < seconds → later ≤ now + seconds * MICROS →
          cache.get mgr key later = Returns (Some value))
       ∧ (now + seconds * MICROS + 1000 ≤ later →
          cache.get mgr key later = Returns None)
       ∧ (seconds ≤ 0 → cache.get mgr key later = Returns None))
  ∧ (redis.live ks key now = None →
     cache.expire (fixtures.up ks) key seconds now
       = Returns (fixtures.up ks, false)).
Proof.
  intros Hle. split.
  - intros value old Hl.
    unfold cache.expire, cache.client_expire, cache.cmd_expire. simpl.
    rewrite Hl. destruct (seconds <=? 0) eqn:Es; simpl.
    + exists (fixtures.up (delete key ks)). split; [done|].
      rewrite get_up, live_delete_eq. split; [lia|]. by split.
    + exists (fixtures.up
                (<[key := {| redis.val := redis.RString value;
                             redis.expire_at :=
                               Some (now + seconds * MICROS) |}]> ks)).
      split; [done|].
      rewrite get_up, live_insert_until.
      split; [|split]; intros; try lia.
      * by destruct (later <=? now + seconds * MICROS) eqn:E; [|lia].
      * by destruct (later <=? now + seconds * MICROS) eqn:E; [lia|].
  - intros Hl.
    unfold cache.expire, cache.client_expire, cache.cmd_expire. simpl.
    by rewrite Hl.
Qed.

(** X4: with no client, or with the server unreachable, every cache
    operation answers as if the key were absent and the write refused:
    nothing is raised and the manager is left as it was. *)
Theorem store_down_defaults (self : redis.RedisManager) key value ttl seconds now :
  (∀ c, redis.redis_client self = Some c → redis.reachable c = false) →
  cache.get self key now = Returns None
  ∧ redis.exists_ self key now = Returns false
  ∧ redis.set settings self key value ttl now = Returns (self, false)
  ∧ cache.delete self key now = Returns (self, false)
  ∧ cache.expire self key seconds now = Returns (self, false)
  ∧ cache.health_check self = Returns false.
Proof.
  intros Hdown.
  unfold cache.get, cache.client_get, redis.exists_, redis.client_exists,
    redis.set, redis.client_set, cache.delete, cache.client_delete,
    cache.expire, cache.client_expire, cache.health_check, cache.client_ping.
  destruct (redis.redis_client self) as [c|] eqn:E; [|done].
  by rewrite (Hdown c eq_refl).
Qed.

End cache_facts.

(** ** Session manager *)

Section session_facts.
Context (settings : Settings).
Context (json_dumps : gmap string value → string).
Context (json_loads : string → option cache.json).
Context (isoformat : Z → string).

Lemma get_session_up ks sid now :
  session.get_session settings json_loads (fixtures.up ks) sid now
  = match redis.live ks (session.session_key settings sid) now with
    | Some {| redis.val := redis.RString s |} =>
        Returns match json_loads s with
                | Some cache.JNull => None
                | j => j
                end
    | _ => Returns None
    end.
Proof.
  unfold session.get_session, cache.get_json. rewrite get_up.
  destruct (redis.live ks _ now) as [[[s|z] t]|]; simpl; try done.
  by destruct (json_loads s) as [[]|].
Qed.

(** A session text written with an expiry, as [get_session] reads it. *)
Lemma get_session_written ks sid text until later d :
  json_loads text = Some (cache.JObject d) →
  session.get_session settings json_loads
    (fixtures.up
       (<[session.session_key settings sid :=
            {| redis.val := redis.RString text;
               redis.expire_at := Some until |}]> ks))
    sid later
  = Returns (if later <=? until then Some (cache.JObject d) else None).
Proof.
  intros Hj. rewrite get_session_up, live_insert_until.
  destruct (later <=? until); [|done]. by rewrite Hj.
Qed.

(** X5: a session created on a reachable store with a positive lifetime is
    read back by [get_session] under the identifier returned at every
    moment up to and including that lifetime after its creation: the
    object holds the caller's data, and [user_id] and [created_at] unless
    the data sets those keys itself.  Once the lifetime has passed by a
    millisecond the session is absent.  ([json.loads] is taken to read back the object [json.dumps]
    wrote.) *)
Theorem create_then_get_session
    ks fresh user_id data expires_delta now later :
  let seconds :=
    match expires_delta with
    | Some d => if d =? 0 then redis_session_expire settings
                else int_seconds d
    | None => redis_session_expire settings
    end in
  let session_data :=
    data ∪ auth.claims_of [("user_id", VInt user_id);
                           ("created_at", VStr (isoformat now))] in
  0 < seconds →
  now ≤ later →
  json_loads (json_dumps session_data) = Some (cache.JObject session_data) →
  ∃ mgr,
    api.create_session settings json_dumps isoformat (fixtures.up ks) fresh
      user_id data expires_delta now = Returns (mgr, fresh)
    ∧ (later ≤ now + seconds * MICROS →
       session.get_session settings json_loads mgr fresh later
       = Returns (Some (cache.JObject session_data)))
    ∧ (now + seconds * MICROS + 1000 ≤ later →
       session.get_session settings json_loads mgr fresh later
       = Returns None).
Proof.
  intros seconds session_data Hpos Hle loads_dumps.
  unfold api.create_session. fold seconds.
  rewrite set_up_effective
    by (simpl; destruct (seconds =? 0) eqn:E; lia).
  simpl.
  match goal with
  | |- context [Returns (fixtures.up ?k, _)] => exists (fixtures.up k)
  end.
  split; [done|].
  destruct (seconds =? 0) eqn:E0; [lia|].
  change (cache_namespace settings +:+ ":session" +:+ ":" +:+ fresh)
    with (session.session_key settings fresh).
  rewrite (get_session_written _ _ _ _ _ session_data) by exact loads_dumps.
  split; intros Hw.
  - by destruct (later <=? now + seconds * MICROS) eqn:E; [|lia].
  - by destruct (later <=? now + seconds * MICROS) eqn:E; [lia|].
Qed.

(** X6: [update_session] merges the new data into a stored session (the new
    keys win) and writes it back without a lifetime of its own, so the
    session then lives for [cache_ttl] seconds from the update, whatever
    lifetime it had: it is read back at every moment up to and including
    [cache_ttl] seconds after the update and is absent once they have
    passed by a millisecond.  When
    no session is stored under the identifier it answers false, and none
    is created. *)
Theorem update_session_merges ks sid data now later :
  now ≤ later →
  0 < cache_ttl settings →
  (∀ text d old,
     redis.live ks (session.session_key settings sid) now
       = Some {| redis.val := redis.RString text; redis.expire_at := old |} →
     json_loads text = Some (cache.JObject d) →
     d ≠ ∅ →
     json_loads (json_dumps (data ∪ d)) = Some (cache.JObject (data ∪ d)) →
     ∃ mgr,
       session.update_session settings json_dumps json_loads (fixtures.up ks)
         sid data now = Returns (mgr, true)
       ∧ (later ≤ now + cache_ttl settings * MICROS →
          session.get_session settings json_loads mgr sid later
          = Returns (Some (cache.JObject (data ∪ d))))
       ∧ (now + cache_ttl settings * MICROS + 1000 ≤ later →
          session.get_session settings json_loads mgr sid later
          = Returns None))
  ∧ (redis.live ks (session.session_key settings sid) now = None →
     session.update_session settings json_dumps json_loads (fixtures.up ks)
       sid data now = Returns (fixtures.up ks, false)
     ∧ session.get_session settings json_loads (fixtures.up ks) sid later
       = Returns None).
Proof.
  intros Hle Httl. split.
  - intros text d old Hl Hj Hd loads_dumps.
    unfold session.update_session.
    pose proof (get_session_up ks sid now) as Hg.
    unfold session.get_session in Hg. rewrite Hg, Hl, Hj. simpl.
    rewrite bool_decide_eq_false_2 by done. simpl.
    unfold cache.set_json. rewrite set_up_effective by done. simpl.
    match goal with
    | |- context [Returns (fixtures.up ?k, _)] => exists (fixtures.up k)
    end.
    split; [done|].
    rewrite (get_session_written _ _ _ _ _ (data ∪ d)) by exact loads_dumps.
    split; intros Hw.
    + by destruct (later <=? now + cache_ttl settings * MICROS) eqn:E;
        [|lia].
    + by destruct (later <=? now + cache_ttl settings * MICROS) eqn:E;
        [lia|].
  - intros Hl. split.
    + unfold session.update_session.
      pose proof (get_session_up ks sid now) as Hg.
      unfold session.get_session in Hg. by rewrite Hg, Hl.
    + by rewrite get_session_up, (live_None_later _ _ now later Hle Hl).
Qed.

(** X7: [extend_session] on a stored session, with a new lifetime of at
    least one whole second, keeps its content and starts its lifetime
    anew: the same object is read back at every moment up to and
    including the new lifetime after the call, and is absent once it has
    passed by a millisecond.
    [delete_session] answers true for a stored session, after which it is
    absent. *)
Theorem extend_and_delete_session
    ks sid expires_delta now later text old d :
  let seconds :=
    match expires_delta with
    | Some d => if d =? 0 then redis_session_expire settings
                else int_seconds d
    | None => redis_session_expire settings
    end in
  now ≤ later →
  0 < seconds →
  redis.live ks (session.session_key settings sid) now
    = Some {| redis.val := redis.RString text; redis.expire_at := old |} →
  json_loads text = Some (cache.JObject d) →
  (∃ mgr,
     session.extend_session settings (fixtures.up ks) sid expires_delta now
       = Returns (mgr, true)
     ∧ (later ≤ now + seconds * MICROS →
        session.get_session settings json_loads mgr sid later
        = Returns (Some (cache.JObject d)))
     ∧ (now + seconds * MICROS + 1000 ≤ later →
        session.get_session settings json_loads mgr sid later
        = Returns None))
  ∧ (∃ mgr,
       session.delete_session settings (fixtures.up ks) sid now
         = Returns (mgr, true)
       ∧ session.get_session settings json_loads mgr sid later = Returns None).
Proof.
  intros seconds Hle Hpos Hl Hj. split.
  - unfold session.extend_session. fold seconds.
    unfold cache.expire, cache.client_expire, cache.cmd_expire. simpl.
    rewrite Hl. destruct (seconds <=? 0) eqn:Es; [lia|]. simpl.
    match goal with
    | |- context [Returns ({| redis.redis_client :=
                               Some {| redis.keyspace := ?k |} |}, _)] =>
        exists (fixtures.up k)
    end.
    split; [done|].
    rewrite (get_session_written _ _ _ _ _ d) by exact Hj.
    split; intros Hw.
    + by destruct (later <=? now + seconds * MICROS) eqn:E; [|lia].
    + by destruct (later <=? now + seconds * MICROS) eqn:E; [lia|].
  - unfold session.delete_session.
    unfold cache.delete, cache.client_delete, cache.cmd_del. simpl.
    rewrite Hl. simpl.
    exists (fixtures.up (delete (session.session_key settings sid) ks)).
    split; [done|].
    by rewrite get_session_up, live_delete_eq.
Qed.

End session_facts.

(** ** Token helpers *)

(** The sample token libraries give back what they signed. *)
Lemma book_decode_encode book c key alg key' algs now p :
  NoDup book.*1 →
  "" ∉ book.*1 →
  fixtures.book_decode book (fixtures.book_encode book c key alg)
    key' algs now = Returns p →
  p = c.
Proof.
  intros Hnd Hne. unfold fixtures.book_encode, fixtures.book_decode.
  destruct (List.find (λ e, bool_decide (e.2 = c)) book) as [e|] eqn:Hf.
  - apply find_some in Hf as [Hin Hc]. apply bool_decide_eq_true in Hc.
    destruct (List.find (λ e0, String.eqb e0.1 e.1) book) as [e'|] eqn:Hf';
      [|done].
    apply find_some in Hf' as [Hin' Hn]. apply String.eqb_eq in Hn.
    assert (e' = e) as ->.
    { apply list_elem_of_In in Hin, Hin'.
      destruct e as [n1 c1], e' as [n2 c2]. simpl in *. subst n2.
      f_equal.
      apply list_elem_of_lookup in Hin as [i Hi].
      apply list_elem_of_lookup in Hin' as [j Hj].
      assert (i = j) as ->.
      { eapply NoDup_lookup; [exact Hnd| |];
          rewrite list_lookup_fmap; [by rewrite Hi|by rewrite Hj]. }
      congruence. }
    destruct (e.2 !! "exp") as [[]|]; try (intros [= <-]; done).
    destruct (_ <? _); [done|]. by intros [= <-].
  - destruct (List.find (λ e0, String.eqb e0.1 "") book) as [e'|] eqn:Hf';
      [|done].
    apply find_some in Hf' as [Hin' Hn]. apply String.eqb_eq in Hn.
    exfalso. apply Hne. rewrite <- Hn.
    apply list_elem_of_fmap. exists e'. split; [done|].
    by apply list_elem_of_In.
Qed.

Lemma samples_decode_encode c now p :
  samples.decode
    (samples.encode c (secret_key fixtures.cfg) (algorithm fixtures.cfg))
    (secret_key fixtures.cfg) [algorithm fixtures.cfg] now = Returns p →
  p = c.
Proof.
  apply book_decode_encode.
  - compute_done.
  - compute_done.
Qed.

Section token_helper_facts.
Context (settings : Settings).
Context (jwt_encode : gmap string value → string → string → string).
Context (jwt_decode : string → string → list string → Z
                      → outcome (gmap string value)).
Context (http_exception_str : Z → string → string).
Context (int_of_str : string → outcome Z).

#[local] Arguments auth.dict_truthy : simpl never.
#[local] Arguments Py.get : simpl never.

(** X8: [verify_token] hands out a claim set only when the library decoded
    the token to it and its [exp] is a time not before now; a decoded
    token whose [exp] lies before now is answered with no claim set,
    whatever its signature. *)
Theorem verify_token_checks_expiry token now :
  (∀ payload,
     auth.verify_token settings jwt_decode token now = Returns (Some payload) →
     jwt_decode token (secret_key settings) [algorithm settings] now
       = Returns payload
     ∧ ∃ t, auth.as_number (Py.get payload "exp") = Returns t ∧ now ≤ t)
  ∧ (∀ payload t,
       jwt_decode token (secret_key settings) [algorithm settings] now
         = Returns payload →
       auth.fromtimestamp (Py.get payload "exp") = Returns t →
       t < now →
       auth.verify_token settings jwt_decode token now = Returns None).
Proof.
  split.
  - intros payload Hv.
    destruct (verify_token_Some _ _ _ _ _ Hv) as (Hd & t & Ht & Hle).
    split; [done|]. exists t. split; [|done].
    unfold auth.fromtimestamp in Ht.
    destruct (auth.as_number (Py.get payload "exp")) as [n|e]; [|done].
    simpl in Ht. destruct (_ && _); by inversion Ht.
  - intros payload t Hd Ht Hlt. unfold auth.verify_token.
    rewrite Hd. simpl. rewrite Ht. simpl.
    case_decide; [done|].
    destruct (t <? now) eqn:E; [done|lia].
Qed.

(** The library gives back the claims it signed. *)
Hypothesis decode_encode :
  ∀ c now p,
    jwt_decode (jwt_encode c (secret_key settings) (algorithm settings))
      (secret_key settings) [algorithm settings] now = Returns p →
    p = c.

Lemma reset_token_payload email expires_delta issued now p :
  auth.verify_token settings jwt_decode
    (auth.create_password_reset_token settings jwt_encode email expires_delta
       issued) now = Returns (Some p) →
  Py.get p "type" = VStr "password_reset" ∧ Py.get p "email" = VStr email.
Proof.
  intros Hv. apply verify_token_Some in Hv as [Hdec _].
  unfold auth.create_password_reset_token in Hdec.
  apply decode_encode in Hdec. subst p. done.
Qed.

(** X9: a password-reset token that verifies gives back, through
    [verify_password_reset_token], the email it was made for. *)
Theorem reset_token_round_trip email expires_delta issued now p :
  auth.verify_token settings jwt_decode
    (auth.create_password_reset_token settings jwt_encode email expires_delta
       issued) now = Returns (Some p) →
  tokens.verify_password_reset_token settings jwt_decode
    (auth.create_password_reset_token settings jwt_encode email expires_delta
       issued) now = Returns (Some (VStr email)).
Proof.
  intros Hv. destruct (reset_token_payload _ _ _ _ _ Hv) as [Hty Hem].
  unfold tokens.verify_password_reset_token. rewrite Hv. simpl.
  rewrite (typed_payload_truthy _ _ Hty). simpl. rewrite Hty, Hem.
  by case_decide.
Qed.

(** X10: the three kinds of token do not stand in for one another where
    resets are concerned.  Neither token of a pair is taken by
    [verify_password_reset_token], and a reset token is refused both by
    the authenticated dependency and by the refresh flow. *)
Theorem reset_tokens_confined
    user_id additional_data email expires_delta issued now mgr d :
  let pair := auth.create_token_pair settings jwt_encode user_id
                additional_data issued in
  let reset := auth.create_password_reset_token settings jwt_encode email
                 expires_delta issued in
  (∀ p, auth.verify_token settings jwt_decode (auth.access_token pair) now
          = Returns (Some p) →
        tokens.verify_password_reset_token settings jwt_decode
          (auth.access_token pair) now = Returns None)
  ∧ (∀ p, auth.verify_token settings jwt_decode (auth.refresh_token pair) now
            = Returns (Some p) →
          tokens.verify_password_reset_token settings jwt_decode
            (auth.refresh_token pair) now = Returns None)
  ∧ (∀ p, auth.verify_token settings jwt_decode reset now
            = Returns (Some p) →
          (∃ detail,
             api.get_current_user_token settings jwt_decode
               http_exception_str mgr reset now
             = Raises (HTTPException 401 detail))
          ∧ api.refresh_token settings jwt_encode jwt_decode int_of_str
              reset d now
            = Raises (HTTPException 401 "Invalid token type")).
Proof.
  intros pair reset. split; [|split].
  - intros p Hv.
    pose proof (access_token_type settings jwt_encode jwt_decode decode_encode
                  _ _ _ _ _ Hv) as Hty.
    unfold tokens.verify_password_reset_token. rewrite Hv. simpl.
    rewrite (typed_payload_truthy _ _ Hty). simpl. rewrite Hty.
    by case_decide.
  - intros p Hv.
    pose proof (refresh_token_type settings jwt_encode jwt_decode decode_encode
                  _ _ _ _ _ Hv) as Hty.
    unfold tokens.verify_password_reset_token. rewrite Hv. simpl.
    rewrite (typed_payload_truthy _ _ Hty). simpl. rewrite Hty.
    by case_decide.
  - intros p Hv. destruct (reset_token_payload _ _ _ _ _ Hv) as [Hty _].
    split.
    + unfold api.get_current_user_token, auth.verify_token_not_revoked.
      destruct (is_token_revoked_never_raises mgr reset now) as [[] ->];
        simpl; [by eexists|].
      fold reset in Hv. rewrite Hv. simpl. rewrite Hty.
      case_decide; [|done]. by eexists.
    + unfold api.refresh_token. fold reset in Hv. rewrite Hv. simpl.
      rewrite (typed_payload_truthy _ _ Hty). simpl. rewrite Hty.
      by case_decide.
Qed.

(** X11: [get_current_user_id] does not look at the token type: given the
    refresh token of a pair, it returns the user the pair was made for. *)
Theorem get_current_user_id_takes_refresh_token
    user_id additional_data issued now p :
  auth.verify_token settings jwt_decode
    (auth.refresh_token
       (auth.create_token_pair settings jwt_encode user_id additional_data
          issued)) now = Returns (Some p) →
  int_of_str (pretty user_id) = Returns user_id →
  tokens.get_current_user_id settings jwt_decode int_of_str
    (auth.refresh_token
       (auth.create_token_pair settings jwt_encode user_id additional_data
          issued)) now = Returns user_id.
Proof.
  intros Hv Hint.
  assert (Hsub : Py.get p "sub" = VStr (pretty user_id)).
  { apply verify_token_Some in Hv as [Hdec _].
    unfold auth.create_token_pair in Hdec. cbn [auth.refresh_token] in Hdec.
    unfold auth.create_refresh_token, auth.expire_at in Hdec.
    apply decode_encode in Hdec. subst p.
    by rewrite refresh_claims_eq. }
  unfold tokens.get_current_user_id. rewrite Hv. simpl. rewrite Hsub.
  case_decide; [done|]. simpl. by rewrite Hint.
Qed.

(** X24: [additional_data] cannot set the [type] of the access token of a
    pair, but it can set its [sub]: a [sub] given there replaces the user
    id in the access token, while the refresh token keeps the user id.
    Every key of [additional_data] other than [exp], [iat] and [type] is
    carried into the access token as given.  The pair is labelled
    "bearer" and announces [access_token_expire_minutes * 60] seconds. *)
Theorem token_pair_subject
    (user_id : Z) (additional_data : option (gmap string value)) now :
  let pair := auth.create_token_pair settings jwt_encode user_id
                additional_data now in
  ∃ access refresh : gmap string value,
    auth.access_token pair
      = jwt_encode access (secret_key settings) (algorithm settings)
    ∧ auth.refresh_token pair
      = jwt_encode refresh (secret_key settings) (algorithm settings)
    ∧ access !! "type" = Some (VStr "access")
    ∧ access !! "sub"
      = Some (default (VStr (pretty user_id))
                (default ∅ additional_data !! "sub"))
    ∧ refresh !! "sub" = Some (VStr (pretty user_id))
    ∧ refresh !! "type" = Some (VStr "refresh")
    ∧ (∀ k v, k ∉ ["exp"; "iat"; "type"] →
         default ∅ additional_data !! k = Some v → access !! k = Some v)
    ∧ auth.token_type pair = "bearer"
    ∧ auth.expires_in pair = access_token_expire_minutes settings * 60.
Proof.
  intros pair. eexists _, _. split; [reflexivity|]. split; [reflexivity|].
  cbv [auth.expire_at]. rewrite refresh_claims_eq.
  split; [by rewrite access_claims_lookup|].
  assert (∀ k, k ≠ "exp" → k ≠ "iat" → k ≠ "type" →
            (if auth.dict_truthy additional_data
             then Py.update (auth.claims_of [("sub", VStr (pretty user_id))])
                    (default ∅ additional_data)
             else auth.claims_of [("sub", VStr (pretty user_id))]) !! k
            = match default ∅ additional_data !! k with
              | Some v => Some v
              | None => auth.claims_of [("sub", VStr (pretty user_id))] !! k
              end) as Hdata.
  { intros k _ _ _. unfold auth.dict_truthy.
    destruct additional_data as [d|]; simpl.
    - case_bool_decide; simpl.
      + subst d. by rewrite lookup_empty.
      + unfold Py.update. rewrite lookup_union.
        destruct (d !! k);
          match goal with |- _ ∪ ?o = _ => by destruct o end.
    - by rewrite lookup_empty. }
  split.
  { rewrite access_claims_lookup. repeat case_decide; try done.
    rewrite Hdata by done.
    destruct (default ∅ additional_data !! "sub"); [done|].
    unfold auth.claims_of. simpl. by simplify_map_eq. }
  split; [done|]. split; [done|]. split; [|by split].
  intros k v Hk Hv. rewrite access_claims_lookup.
  assert (k ≠ "exp" ∧ k ≠ "iat" ∧ k ≠ "type") as (?&?&?).
  { rewrite !not_elem_of_cons in Hk. tauto. }
  repeat case_decide; try done.
  by rewrite Hdata, Hv.
Qed.

End token_helper_facts.

(** ** Revocation *)

Section revocation_facts.
Context (settings : Settings).
Context (jwt_decode : string → string → list string → Z
                      → outcome (gmap string value)).
Context (http_exception_str : Z → string → string).

Lemma is_token_revoked_up ks token now :
  auth.is_token_revoked (fixtures.up ks) token now
  = Returns (bool_decide
               (is_Some (redis.live ks (auth.blacklist_key token) now))).
Proof. done. Qed.

Lemma revoke_token_stores ks token now payload e :
  0 < now →
  auth.verify_token settings jwt_decode token now = Returns (Some payload) →
  auth.as_number (Py.get payload "exp") = Returns e →
  0 < int_seconds (e - now) →
  auth.revoke_token settings jwt_decode (fixtures.up ks) token now
  = Returns (fixtures.up
               (<[auth.blacklist_key token :=
                    fixtures.revoked_marker
                      (now + int_seconds (e - now) * MICROS)]> ks), true).
Proof.
  intros Hnow Hv He Httl.
  destruct (verify_token_Some _ _ _ _ _ Hv) as (_ & t & Ht & Hnt).
  unfold auth.fromtimestamp in Ht. rewrite He in Ht. simpl in Ht.
  assert (t = e) as ->.
  { destruct (_ && _) in Ht; by inversion Ht. }
  assert (Htruthy : Py.truthy (Py.get payload "exp") = true).
  { destruct (Py.get payload "exp") as [|[]|n|n|]; simpl in *;
      try done; injection He as <-; try (unfold MICROS in *; lia);
      apply negb_true_iff, Z.eqb_neq; unfold MICROS in *; lia. }
  assert (Hne : payload ≠ ∅).
  { intros ->. unfold Py.get in He. by rewrite lookup_empty in He. }
  unfold auth.revoke_token. rewrite Hv. simpl.
  rewrite bool_decide_eq_false_2 by done. simpl.
  rewrite Htruthy, He. simpl.
  destruct (_ <=? 0) eqn:E; [lia|].
  by rewrite set_store_up.
Qed.

Lemma marked_token_refused ks token until later :
  later ≤ until →
  auth.is_token_revoked
    (fixtures.up
       (<[auth.blacklist_key token := fixtures.revoked_marker until]> ks))
    token later = Returns true
  ∧ api.get_current_user_token settings jwt_decode http_exception_str
      (fixtures.up
         (<[auth.blacklist_key token := fixtures.revoked_marker until]> ks))
      token later
    = Raises (HTTPException 401
                (http_exception_str 401 "Token has been revoked")).
Proof.
  intros Hin.
  assert (Hrev : auth.is_token_revoked
                   (fixtures.up
                      (<[auth.blacklist_key token :=
                           fixtures.revoked_marker until]> ks))
                   token later = Returns true).
  { rewrite is_token_revoked_up, live_insert_eq.
    unfold redis.expired. simpl.
    destruct (until <? later) eqn:E; [lia|].
    by rewrite bool_decide_eq_true_2 by by eexists. }
  split; [done|].
  unfold api.get_current_user_token, auth.verify_token_not_revoked.
  by rewrite Hrev.
Qed.

(** X12: after [revoke_token] has succeeded on a reachable store for a
    token with [ttl = int(exp - now) > 0] whole seconds left ([exp] given
    as a float or as an integer), the token is reported revoked, and
    refused by the authenticated dependency with "Token has been revoked",
    at every moment up to and including [ttl] seconds after the call;
    once they have passed by a millisecond the marker is gone and the
    token is reported not revoked. *)
Theorem revoked_token_is_refused ks token now payload e later :
  0 < now →
  auth.verify_token settings jwt_decode token now = Returns (Some payload) →
  auth.as_number (Py.get payload "exp") = Returns e →
  0 < int_seconds (e - now) →
  now ≤ later →
  ∃ mgr,
    auth.revoke_token settings jwt_decode (fixtures.up ks) token now
      = Returns (mgr, true)
    ∧ (later ≤ now + int_seconds (e - now) * MICROS →
       auth.is_token_revoked mgr token later = Returns true
       ∧ api.get_current_user_token settings jwt_decode http_exception_str
           mgr token later
         = Raises (HTTPException 401
                     (http_exception_str 401 "Token has been revoked")))
    ∧ (now + int_seconds (e - now) * MICROS + 1000 ≤ later →
       auth.is_token_revoked mgr token later = Returns false).
Proof.
  intros Hnow Hv Hexp Httl Hle.
  eexists. split; [by eapply revoke_token_stores|].
  split; [apply marked_token_refused|].
  intros Hout. rewrite is_token_revoked_up, live_insert_eq.
  unfold redis.expired. simpl.
  destruct (_ <? later) eqn:E; [|lia].
  by rewrite bool_decide_eq_false_2 by by intros [? ?].
Qed.

#[local] Arguments auth.dict_truthy : simpl never.
#[local] Arguments Py.get : simpl never.

(** X23: the WebSocket handshake does not ask the blacklist.  A revoked
    access token, refused by the authenticated dependency, still
    authenticates a WebSocket for as long as it verifies; and the user it
    yields is built from the claims alone and always counts as active. *)
Theorem revoked_token_opens_websocket
    (int_of_str : string → outcome Z) ks token now payload e later uid :
  0 < now →
  token ≠ "" →
  auth.verify_token settings jwt_decode token now = Returns (Some payload) →
  payload !! "exp" = Some (VFloat e) →
  0 < int_seconds (e - now) →
  later < now + int_seconds (e - now) * MICROS →
  auth.verify_token settings jwt_decode token later = Returns (Some payload) →
  Py.get payload "type" = VStr "access" →
  api.py_int int_of_str (Py.get payload "sub") = Returns uid →
  ∃ mgr,
    auth.revoke_token settings jwt_decode (fixtures.up ks) token now
      = Returns (mgr, true)
    ∧ api.get_current_user_token settings jwt_decode http_exception_str
        mgr token later
      = Raises (HTTPException 401
                  (http_exception_str 401 "Token has been revoked"))
    ∧ websocket.authenticate_websocket settings jwt_decode int_of_str
        None (Some token) later
      = websocket.Authenticated
          {| websocket.mock_id := uid;
             websocket.mock_email := websocket.get_or_empty payload "email";
             websocket.mock_username :=
               websocket.get_or_empty payload "username";
             websocket.mock_is_active := true |}.
Proof.
  intros Hnow Htok Hv Hexp Httl Hin Hlater Hty Hsub.
  assert (auth.as_number (Py.get payload "exp") = Returns e) as Hnum.
  { unfold Py.get. by rewrite Hexp. }
  eexists. split; [by eapply revoke_token_stores|].
  split; [apply marked_token_refused; lia|].
  unfold websocket.authenticate_websocket.
  assert (websocket.str_truthy (Some token) = true) as ->.
  { unfold websocket.str_truthy. by destruct token. }
  simpl. rewrite Hlater. simpl.
  rewrite (typed_payload_truthy _ _ Hty). simpl.
  rewrite decide_False by (intros Hne; by apply Hne).
  rewrite Hsub. simpl.
  destruct (String.eqb token "") eqn:E; [|done].
  by apply String.eqb_eq in E.
Qed.

End revocation_facts.

(** ** Dependencies *)

(** X13: [validate_pagination] accepts exactly the requests with
    [page >= 1] and [1 <= size <= max_size], answering the offset
    [(page - 1) * size] and the limit [size]; the pages so cut tile the
    rows: every row index from 0 on lies in the window of one page and
    one only. *)
Theorem pagination_tiles page size max_size :
  (1 ≤ page ∧ 1 ≤ size ≤ max_size →
   deps.validate_pagination page size max_size
     = Returns ((page - 1) * size, size))
  ∧ (¬ (1 ≤ page ∧ 1 ≤ size ≤ max_size) →
     ∃ detail, deps.validate_pagination page size max_size
               = Raises (HTTPException 400 detail))
  ∧ (1 ≤ size ≤ max_size →
     ∀ row, 0 ≤ row →
       ∃ p, (∃ offset limit,
               deps.validate_pagination p size max_size
                 = Returns (offset, limit)
               ∧ offset ≤ row < offset + limit)
            ∧ ∀ p' offset limit,
                deps.validate_pagination p' size max_size
                  = Returns (offset, limit) →
                offset ≤ row < offset + limit →
                p' = p).
Proof.
  assert (Hok : ∀ p, 1 ≤ p → 1 ≤ size ≤ max_size →
            deps.validate_pagination p size max_size
            = Returns ((p - 1) * size, size)).
  { intros p Hp Hs. unfold deps.validate_pagination.
    destruct (p <? 1) eqn:E1; [lia|].
    destruct (size <? 1) eqn:E2; [lia|].
    destruct (max_size <? size) eqn:E3; [lia|]. done. }
  assert (Hinv : ∀ p o l, deps.validate_pagination p size max_size
                          = Returns (o, l) →
                 1 ≤ p ∧ o = (p - 1) * size ∧ l = size).
  { intros p o l. unfold deps.validate_pagination.
    destruct (p <? 1) eqn:E1; [done|].
    destruct (size <? 1) eqn:E2; [done|].
    destruct (max_size <? size) eqn:E3; [done|].
    intros [= <- <-]. lia. }
  split; [|split].
  - intros [Hp Hs]. by apply Hok.
  - intros Hbad. unfold deps.validate_pagination.
    destruct (page <? 1) eqn:E1; [by eexists|].
    destruct (size <? 1) eqn:E2; [by eexists|].
    destruct (max_size <? size) eqn:E3; [by eexists|]. lia.
  - intros Hs row Hrow. exists (row / size + 1). split.
    + exists (row / size * size), size.
      rewrite Hok by (try done; pose proof (Z.div_pos row size); lia).
      split; [f_equal; f_equal; lia|].
      pose proof (Z.div_mod row size ltac:(lia)).
      pose proof (Z.mod_pos_bound row size ltac:(lia)). lia.
    + intros p' o l Hv Hin. apply Hinv in Hv as (Hp' & -> & ->).
      assert (row / size = p' - 1); [|lia].
      symmetry. apply Z.div_unique with (r := row - (p' - 1) * size); lia.
Qed.

Section deps_facts.
Context (settings : Settings).
Context (jwt_decode : string → string → list string → Z
                      → outcome (gmap string value)).
Context (http_exception_str : Z → string → string).
Context (int_of_str : string → outcome Z).

#[local] Arguments models.get : simpl never.

(** X14: [get_current_user] returns only an active user, the one stored
    under the id read from [sub].  Every failure is a 401 whose detail is
    "Invalid user ID in token" (only when reading the id raises
    ValueError) or "Could not validate user": the handler for all other
    exceptions also catches the two 401s raised inside, so "User not
    found" and "Inactive user" never reach the caller. *)
Theorem get_current_user_answers db token_data :
  (∀ u, deps.get_current_user int_of_str db token_data = Returns u →
        models.is_active u = true
        ∧ ∃ n, api.py_int int_of_str (Py.get token_data "sub") = Returns n
               ∧ models.get db n = Returns (Some u))
  ∧ (∀ e, deps.get_current_user int_of_str db token_data = Raises e →
          (e = HTTPException 401 "Invalid user ID in token"
           ∧ (api.py_int int_of_str (Py.get token_data "sub")
                = Raises ValueError
              ∨ ∃ n, api.py_int int_of_str (Py.get token_data "sub")
                       = Returns n
                     ∧ models.get db n = Raises ValueError))
          ∨ e = HTTPException 401 "Could not validate user").
Proof.
  unfold deps.get_current_user.
  destruct (api.py_int int_of_str (Py.get token_data "sub")) as [n|e0]; simpl.
  - destruct (models.get db n) as [[u|]|e1] eqn:Hg; simpl.
    + destruct (models.is_active u) eqn:Ha; simpl.
      * split; [|done]. intros u' [= <-]. split; [done|]. by exists n.
      * split; [done|]. intros e [= <-]. by right.
    + split; [done|]. intros e [= <-]. by right.
    + split; [by destruct e1|]. intros e He.
      destruct e1; inversion He; subst; try (by right).
      left. split; [done|]. right. by exists n.
  - split; [by destruct e0|]. intros e He.
    destruct e0; inversion He; subst; try (by right).
    left. split; [done|]. by left.
Qed.

(** X15: [get_optional_current_user] never raises: without credentials it
    returns nobody, and with credentials it returns exactly the user the
    mandatory chain (token dependency, then [get_current_user]) would
    admit, and nobody where that chain would refuse. *)
Theorem optional_user_matches_mandatory mgr db credentials now :
  deps.get_optional_current_user settings jwt_decode http_exception_str
    int_of_str mgr db None now = Returns None
  ∧ deps.get_optional_current_user settings jwt_decode http_exception_str
      int_of_str mgr db (Some credentials) now
    = Returns
        match deps.current_user settings jwt_decode http_exception_str
                int_of_str mgr db credentials now with
        | Returns u => Some u
        | Raises _ => None
        end.
Proof.
  split; [done|].
  unfold deps.get_optional_current_user, deps.current_user,
    deps.get_current_user.
  destruct (api.get_current_user_token _ _ _ mgr credentials now)
    as [td|e]; simpl; [|done].
  destruct (api.py_int int_of_str (Py.get td "sub")) as [n|e0]; simpl.
  - destruct (models.get db n) as [[u|]|e1]; simpl.
    + by destruct (models.is_active u).
    + done.
    + by destruct e1.
  - by destruct e0.
Qed.

End deps_facts.

(** X30: the two administrator checks admit exactly the superusers and
    refuse everybody else with a 403.  A [PermissionChecker] made for any
    permission other than the string "admin" checks nothing: it admits
    every user. *)
Theorem permission_checks (user : models.User) required_permission :
  (deps.require_admin user = Returns user
   ↔ models.is_superuser user = true)
  ∧ (deps.get_current_superuser user = Returns user
     ↔ models.is_superuser user = true)
  ∧ (models.is_superuser user = false →
     deps.require_admin user
       = Raises (HTTPException 403 "Admin permissions required")
     ∧ deps.get_current_superuser user
       = Raises (HTTPException 403 "Not enough permissions"))
  ∧ (required_permission ≠ "admin" →
     deps.permission_checker required_permission user = Returns user).
Proof.
  unfold deps.require_admin, deps.permission_checker,
    deps.get_current_superuser.
  split; [|split; [|split]].
  - simpl. destruct (models.is_superuser user); simpl; by split.
  - destruct (models.is_superuser user); simpl; by split.
  - intros ->. by split.
  - intros Hne. apply String.eqb_neq in Hne. by rewrite Hne.
Qed.

(** ** Logout *)

Section logout_facts.
Context (settings : Settings).
Context (jwt_decode : string → string → list string → Z
                      → outcome (gmap string value)).
Context (http_exception_str : Z → string → string).

Lemma delete_keeps_other_keys (mgr mgr' : redis.RedisManager) key b now :
  cache.delete mgr key now = Returns (mgr', b) →
  ∀ other later, other ≠ key →
    redis.exists_ mgr' other later = redis.exists_ mgr other later.
Proof.
  unfold cache.delete, cache.client_delete, cache.cmd_del.
  destruct (redis.redis_client mgr) as [c|] eqn:Ec; [|by intros [= <- <-]].
  destruct (redis.reachable c) eqn:Er; simpl; [|by intros [= <- <-]].
  intros [= <- <-] other later Hne.
  unfold redis.exists_, redis.client_exists, redis.cmd_exists. simpl.
  rewrite Ec, Er. simpl.
  destruct (redis.live (redis.keyspace c) key now); simpl; [|done].
  unfold redis.live. by rewrite lookup_delete_ne.
Qed.

(** X16: [logout] always answers "Successfully logged out" and touches at
    most the session key: it adds nothing to the blacklist, so every token
    is judged by the authenticated dependency after the logout exactly as
    before it. *)
Theorem logout_leaves_tokens_valid mgr session_id user now :
  ∃ mgr',
    logout.logout settings mgr session_id user now
      = Returns
          (mgr',
           {| api.status := 200;
              api.body := auth.claims_of
                [("message", VStr "Successfully logged out")] |})
    ∧ ∀ token later,
        auth.blacklist_key token
          ≠ session.session_key settings (default "" session_id) →
        auth.is_token_revoked mgr' token later
          = auth.is_token_revoked mgr token later
        ∧ api.get_current_user_token settings jwt_decode http_exception_str
            mgr' token later
          = api.get_current_user_token settings jwt_decode http_exception_str
              mgr token later.
Proof.
  unfold logout.logout.
  destruct (websocket.str_truthy session_id) eqn:Et.
  - unfold session.delete_session.
    destruct (cache.delete mgr
                (session.session_key settings (default "" session_id)) now)
      as [[mgr' b]|e] eqn:Hd.
    + simpl. exists mgr'. split; [done|].
      intros token later Hne.
      assert (Hrev : auth.is_token_revoked mgr' token later
                     = auth.is_token_revoked mgr token later).
      { unfold auth.is_token_revoked.
        by rewrite (delete_keeps_other_keys _ _ _ _ _ Hd). }
      split; [done|].
      unfold api.get_current_user_token, auth.verify_token_not_revoked.
      by rewrite Hrev.
    + exfalso. revert Hd.
      unfold cache.delete, cache.client_delete.
      destruct (redis.redis_client mgr) as [c|]; [|done].
      by destruct (redis.reachable c).
  - simpl. exists mgr. done.
Qed.

End logout_facts.

(** ** Rate limiter, continued *)

Section limiter_facts.
Context (settings : Settings).

(** What [rate_limit] can answer. *)
Lemma rate_limit_answers mgr key limit window identifier clock :
  ∃ mgr' allowed remaining reset_time,
    redis.rate_limit settings mgr key limit window identifier clock
      = Returns (mgr', (allowed, remaining, reset_time))
    ∧ (allowed = false →
       remaining = 0 ∧ reset_time = int_seconds clock + window)
    ∧ (allowed = true →
       (mgr' = mgr ∧ remaining = limit ∧ reset_time = 0)
       ∨ (0 ≤ remaining < limit ∧ reset_time = int_seconds clock + window)).
Proof.
  unfold redis.rate_limit, redis.client_eval, redis.lua_script.
  destruct (redis.redis_client mgr) as [c|].
  2: { eexists _, _, _, _. split; [done|]. split; [done|]. by left. }
  destruct (redis.reachable c); simpl.
  2: { eexists _, _, _, _. split; [done|]. split; [done|]. by left. }
  destruct (redis.zset_at _ _ _) as [z|e]; simpl.
  2: { eexists _, _, _, _. split; [done|]. split; [done|]. by left. }
  destruct (_ <? limit) eqn:E; simpl.
  - eexists _, _, _, _. split; [done|]. split; [done|]. intros _. right.
    unfold redis.zcard in *. lia.
  - eexists _, _, _, _. split; [done|]. split; [done|]. done.
Qed.

(** X17: the rate-limit dependency lets a request pass whenever the store
    cannot be asked, and a request without a client host is not counted
    at all.  When it throttles, the headers announce 0 requests remaining
    and a reset time one whole window after the moment the limiter looked
    at the clock, whatever the age of the requests already counted; the
    wait in the message is what is left until then, at most the window. *)
Theorem rate_limiter_call_answers
    (self : deps.RateLimiter) mgr host clock clock' :
  ((∀ c, redis.redis_client mgr = Some c → redis.reachable c = false) →
   deps.rate_limiter_call settings self mgr (Some host) clock clock'
     = Returns (mgr, deps.Proceed))
  ∧ deps.rate_limiter_call settings self mgr (Some "") clock clock'
    = Returns (mgr, deps.Proceed)
  ∧ ∀ mgr' detail headers,
      deps.rate_limiter_call settings self mgr (Some host) clock clock'
        = Returns (mgr', deps.TooManyRequests detail headers) →
      ∃ wait,
        detail = "Rate limit exceeded. Try again in "
                 +:+ pretty wait +:+ " seconds."
        ∧ wait = int_seconds clock + deps.window self - int_seconds clock'
        ∧ (clock ≤ clock' → wait ≤ deps.window self)
        ∧ headers
          = [("X-RateLimit-Limit", pretty (deps.requests self));
             ("X-RateLimit-Remaining", "0");
             ("X-RateLimit-Reset",
              pretty (int_seconds clock + deps.window self))].
Proof.
  split; [|split].
  - intros Hdown. unfold deps.rate_limiter_call.
    destruct (String.eqb host ""); [done|].
    unfold redis.rate_limit, redis.client_eval.
    destruct (redis.redis_client mgr) as [c|] eqn:Ec; [|done].
    by rewrite (Hdown c eq_refl).
  - done.
  - intros mgr' detail headers. unfold deps.rate_limiter_call.
    destruct (String.eqb host ""); [done|].
    destruct (rate_limit_answers mgr "api_requests" (deps.requests self)
                (deps.window self) host clock)
      as (m & allowed & remaining & reset & -> & Hno & _).
    simpl. destruct allowed; simpl; [done|].
    destruct (Hno eq_refl) as [-> ->].
    intros [= _ <- <-].
    eexists. split; [done|]. split; [done|]. split; [|done].
    intros Hle.
    assert (int_seconds clock ≤ int_seconds clock')
      by (apply Z.quot_le_mono; [done|exact Hle]).
    lia.
Qed.

End limiter_facts.

Section window_facts.
Context (settings : Settings).

#[local] Arguments redis.zremrangebyscore : simpl never.
#[local] Arguments redis.zset_at : simpl never.
#[local] Arguments redis.store_zset : simpl never.
#[local] Arguments redis.expiry_at : simpl never.
#[local] Arguments redis.zcard : simpl never.
#[local] Arguments redis.zadd : simpl never.

Lemma zset_at_store ks key z exp clock :
  (z ≠ ∅ → redis.expired {| redis.val := redis.RZSet z;
                             redis.expire_at := exp |} clock = false) →
  redis.zset_at (redis.store_zset ks key z exp) key clock = Returns z.
Proof.
  intros Hexp. unfold redis.store_zset, redis.zset_at.
  case_decide as Hz.
  - subst z. by rewrite live_delete_eq.
  - rewrite live_insert_eq, (Hexp Hz). done.
Qed.

(** X18: the sliding window as the script keeps it, on a reachable store
    whose key holds a sorted set [z] of past request times (or nothing).
    The entries scored within the last [window] seconds are the recent
    ones; the request is allowed exactly when fewer than [limit] entries
    are recent, with [limit - count - 1] requests remaining.  The set left
    on file is the recent entries, plus the current second when the
    request was allowed. *)
Theorem rate_limit_sliding_window ks key limit window identifier clock z :
  0 < window →
  redis.zset_at ks (redis.rate_key settings key identifier) clock = Returns z →
  map_Forall (λ _ score, 0 ≤ score) z →
  let now := int_seconds clock in
  let recent := filter (λ ms : Z * Z, now - window < ms.2) z in
  let allowed := bool_decide (Z.of_nat (size recent) < limit) in
  ∃ ks',
    redis.rate_limit settings (fixtures.up ks) key limit window identifier clock
      = Returns
          (fixtures.up ks',
           (allowed,
            if allowed then limit - Z.of_nat (size recent) - 1 else 0,
            now + window))
    ∧ redis.zset_at ks' (redis.rate_key settings key identifier) clock
      = Returns (if allowed then <[now := now]> recent else recent).
Proof.
  intros Hwin Hz Hnonneg now recent allowed. subst now.
  assert (Hrem : redis.zremrangebyscore 0 (int_seconds clock - window) z
                 = recent).
  { unfold redis.zremrangebyscore, recent. apply map_filter_ext.
    intros m sc Hm. simpl. pose proof (Hnonneg m sc Hm). simpl in *. lia. }
  assert (Hlive : recent ≠ ∅ →
            redis.expired
              {| redis.val := redis.RZSet recent;
                 redis.expire_at :=
                   redis.expiry_at ks (redis.rate_key settings key identifier)
                     clock |} clock = false).
  { intros Hne. unfold redis.expiry_at.
    unfold redis.zset_at in Hz.
    destruct (redis.live ks _ clock) as [[v t]|] eqn:El.
    - unfold redis.live in El.
      destruct (ks !! _) as [e0|]; [|done].
      destruct (redis.expired e0 clock) eqn:Ee; [done|].
      inversion El; subst. done.
    - inversion Hz; subst z. exfalso. apply Hne.
      unfold recent. apply map_filter_empty. }
  unfold redis.rate_limit, redis.client_eval, redis.lua_script. simpl.
  rewrite Hz. simpl. rewrite Hrem.
  unfold redis.zcard.
  destruct (Z.of_nat (size recent) <? limit) eqn:E; simpl.
  - unfold allowed. rewrite bool_decide_eq_true_2 by lia.
    destruct (window <=? 0) eqn:Ew; [lia|].
    eexists. split; [reflexivity|].
    unfold redis.zadd.
    assert (Hst : ∀ k0, redis.store_zset k0
                          (redis.rate_key settings key identifier)
                          (<[int_seconds clock := int_seconds clock]> recent)
                          (Some (clock + window * MICROS))
                        = <[redis.rate_key settings key identifier :=
                              {| redis.val :=
                                   redis.RZSet
                                     (<[int_seconds clock :=
                                          int_seconds clock]> recent);
                                 redis.expire_at :=
                                   Some (clock + window * MICROS) |}]> k0).
    { intros k0. unfold redis.store_zset.
      by rewrite decide_False by apply insert_non_empty. }
    rewrite Hst. unfold redis.zset_at. rewrite live_insert_eq.
    unfold redis.expired. simpl.
    destruct (clock + window * MICROS <? clock) eqn:E'; [|done].
    unfold MICROS in *. lia.
  - unfold allowed. rewrite bool_decide_eq_false_2 by lia.
    eexists. split; [reflexivity|].
    by apply zset_at_store.
Qed.

End window_facts.

(** ** Connection manager, in general *)

Section connection_facts.
Context (alive : websocket.WebSocket → bool).
Context (isoformat : Z → string).

Import websocket connections.

Lemma shrunk_refl w : shrunk alive w w.
Proof.
  split; [done|]. split; [intros u conns' H; by exists conns'|].
  split; [exists []; by rewrite app_nil_r|]. split; [done|].
  split; [by right|]. intros ws md' H. by exists md'.
Qed.

Lemma shrunk_trans w1 w2 w3 :
  shrunk alive w1 w2 → shrunk alive w2 w3 → shrunk alive w1 w3.
Proof.
  intros (Hd1 & Ha1 & (s1 & Hs1 & Hl1) & Hw1 & Hm1 & Hk1)
         (Hd2 & Ha2 & (s2 & Hs2 & Hl2) & Hw2 & Hm2 & Hk2).
  split; [by etrans|]. split.
  { intros u c3 H3. destruct (Ha2 u c3 H3) as (c2 & H2 & Hsub).
    destruct (Ha1 u c2 H2) as (c1 & H1 & Hsub'). exists c1.
    split; [done|]. by etrans. }
  split.
  { exists (s1 ++ s2). split; [by rewrite Hs2, Hs1, app_assoc|].
    by apply Forall_app. }
  split; [auto|]. split.
  { intros ws Hdead.
    destruct (Hm2 ws Hdead) as [-> | ->]; [by left|]. by apply Hm1. }
  intros ws md3 H3. destruct (Hk2 ws md3 H3) as (md2 & H2 & Hsub).
  destruct (Hk1 ws md2 H2) as (md1 & H1 & Hsub'). exists md1.
  split; [done|]. by etrans.
Qed.

Lemma shrunk_size w w' :
  shrunk alive w w' →
  (size (connection_metadata (manager w'))
   ≤ size (connection_metadata (manager w)))%nat.
Proof.
  intros [Hd _]. rewrite <- !size_dom. by apply subseteq_size.
Qed.

Lemma shrunk_lookup_None w w' ws :
  shrunk alive w w' →
  connection_metadata (manager w) !! ws = None →
  connection_metadata (manager w') !! ws = None.
Proof.
  intros [Hd _] Hn. apply not_elem_of_dom. apply not_elem_of_dom in Hn.
  intros Hin. apply Hn. by apply Hd.
Qed.

Lemma shrunk_dead_truthy w w' ws :
  shrunk alive w w' → alive ws = false →
  connection_metadata (manager w) !! ws ≠ Some ∅ →
  connection_metadata (manager w') !! ws ≠ Some ∅.
Proof.
  intros (_ & _ & _ & _ & Hm & _) Hdead Hne.
  destruct (Hm ws Hdead) as [-> | ->]; done.
Qed.

(** Metadata that names a user keeps doing so. *)
Lemma shrunk_names_user w w' :
  shrunk alive w w' → names_user (manager w) → names_user (manager w').
Proof.
  intros (_ & _ & _ & _ & _ & Hk) Hn ws md' H'.
  destruct (Hk ws md' H') as (md & H & Hsub).
  apply elem_of_dom, Hsub, elem_of_dom. by eapply Hn.
Qed.

Lemma touch_dom now ws (self : ConnectionManager) :
  dom (connection_metadata (touch now ws self))
  = dom (connection_metadata self).
Proof.
  apply set_eq. intros k. unfold touch. simpl. rewrite !elem_of_dom.
  by rewrite lookup_alter_is_Some.
Qed.

Lemma touch_sent_shrunk now ws message w :
  alive ws = true →
  shrunk alive w {| manager := touch now ws (manager w);
              delivered := delivered w ++ [(ws, message)] |}.
Proof.
  intros Hlive. split.
  { change (dom (connection_metadata (touch now ws (manager w)))
            ⊆ dom (connection_metadata (manager w))). by rewrite touch_dom. }
  split; [intros u c Hc; by exists c|].
  split; [exists [(ws, message)]; split; [done|by repeat constructor]|].
  split; [done|]. split.
  { intros ws' Hdead. right. unfold touch. simpl.
    apply lookup_alter_ne. intros ->. congruence. }
  intros ws' md'. unfold touch. simpl.
  intros [(-> & md & H & ->) | [_ H]]%lookup_alter_Some.
  - exists md. split; [done|]. rewrite dom_insert. set_solver.
  - by exists md'.
Qed.

(** The sending loop: it delivers to the live connections of the list,
    in order, collects the dead ones, registers nothing and keeps the
    lists. *)
Lemma broadcast_steps now message exclude conns w rm :
  ∃ w2,
    fold_left (broadcast_step alive now message exclude) conns (w, rm)
      = (w2, rm ++ failed alive exclude conns)
    ∧ delivered w2
      = delivered w ++ ((λ ws, (ws, message)) <$> reached alive exclude conns)
    ∧ shrunk alive w w2
    ∧ dom (connection_metadata (manager w2))
      = dom (connection_metadata (manager w))
    ∧ active_connections (manager w2) = active_connections (manager w).
Proof.
  unfold connections.reached, connections.failed.
  revert w rm. induction conns as [|ws conns IH]; intros w rm; simpl.
  - exists w. rewrite !app_nil_r. split; [done|]. split; [done|].
    split; [apply shrunk_refl|done].
  - unfold broadcast_step at 2. simpl.
    case_bool_decide as Hex.
    { rewrite !filter_cons_False by (intros [? _]; done). apply IH. }
    destruct (alive ws) eqn:Hlive.
    + rewrite (filter_cons_False _ ws) by (intros [_ ?]; congruence).
      rewrite filter_cons_True by done.
      destruct (IH {| manager := touch now ws (manager w);
                      delivered := delivered w ++ [(ws, message)] |} rm)
        as (w2 & Hf & Hdel & Hs & Hd & Ha).
      exists w2. split; [done|]. split.
      { rewrite Hdel. simpl. by rewrite <- app_assoc. }
      split.
      { eapply shrunk_trans; [by apply touch_sent_shrunk|done]. }
      split; [rewrite Hd; apply touch_dom|by rewrite Ha].
    + rewrite filter_cons_True by done.
      rewrite (filter_cons_False _ ws) by (intros [_ ?]; congruence).
      destruct (IH w (rm ++ [ws])) as (w2 & Hf & Hrest).
      exists w2. split; [|done]. rewrite Hf. by rewrite <- app_assoc.
Qed.

Lemma cleanup_shrunk (disc : WebSocket → world → option world) rm w w' :
  (∀ ws v v', disc ws v = Some v' → shrunk alive v v') →
  cleanup disc rm w = Some w' → shrunk alive w w'.
Proof.
  intros Hdisc. revert w. induction rm as [|ws rm IH]; intros w; simpl.
  - intros [= ->]. apply shrunk_refl.
  - destruct (disc ws w) as [v|] eqn:Hv; [|done].
    intros Hc. eapply shrunk_trans; [by eapply Hdisc|by apply IH].
Qed.

Lemma cleanup_total (disc : WebSocket → world → option world) bound rm w :
  (∀ ws v v', disc ws v = Some v' → shrunk alive v v') →
  (∀ ws v, (size (connection_metadata (manager v)) < bound)%nat →
           is_Some (disc ws v)) →
  (size (connection_metadata (manager w)) < bound)%nat →
  is_Some (cleanup disc rm w).
Proof.
  intros Hs Ht. revert w. induction rm as [|ws rm IH]; intros w Hw; simpl.
  - by eexists.
  - destruct (Ht ws w Hw) as [v Hv]. rewrite Hv. apply IH.
    pose proof (shrunk_size _ _ (Hs _ _ _ Hv)). lia.
Qed.

(** The clean-up loop takes every dead connection of its list out. *)
Lemma cleanup_drops (disc : WebSocket → world → option world) rm w w' :
  (∀ ws v v', disc ws v = Some v' →
     shrunk alive v v'
     ∧ (connection_metadata (manager v) !! ws ≠ Some ∅ →
        connection_metadata (manager v') !! ws = None)) →
  cleanup disc rm w = Some w' →
  ∀ ws, ws ∈ rm → alive ws = false →
        connection_metadata (manager w) !! ws ≠ Some ∅ →
        connection_metadata (manager w') !! ws = None.
Proof.
  intros Hdisc. revert w. induction rm as [|ws1 rm IH]; intros w; simpl.
  - intros _ ws Hin. by apply elem_of_nil in Hin.
  - destruct (disc ws1 w) as [v|] eqn:Hv; [|done].
    destruct (Hdisc _ _ _ Hv) as [Hs Hgone].
    intros Hc ws Hin Hdead Hne.
    assert (connection_metadata (manager v) !! ws ≠ Some ∅) as Hne'
      by by eapply shrunk_dead_truthy.
    apply elem_of_cons in Hin as [->|Hin];
      [|exact (IH v Hc ws Hin Hdead Hne')].
    eapply shrunk_lookup_None.
    + eapply cleanup_shrunk; [|exact Hc]. intros ? ? ? H.
      exact (proj1 (Hdisc _ _ _ H)).
    + by apply Hgone.
Qed.

Lemma broadcast_with_shrunk disc now u message exclude w w' :
  (∀ ws v v', disc ws v = Some v' → shrunk alive v v') →
  broadcast_with alive disc now u message exclude w = Some w' →
  shrunk alive w w'.
Proof.
  intros Hdisc. unfold broadcast_with.
  destruct (active_connections (manager w) !! u) as [conns|];
    [|intros [= ->]; apply shrunk_refl].
  destruct (broadcast_steps now message exclude conns w [])
    as (w2 & -> & _ & Hs & _ & _).
  simpl. intros Hc.
  eapply shrunk_trans; [exact Hs|]. by eapply cleanup_shrunk.
Qed.

Lemma broadcast_with_total disc bound now u message exclude w :
  (∀ ws v v', disc ws v = Some v' → shrunk alive v v') →
  (∀ ws v, (size (connection_metadata (manager v)) < bound)%nat →
           is_Some (disc ws v)) →
  (size (connection_metadata (manager w)) < bound)%nat →
  is_Some (broadcast_with alive disc now u message exclude w).
Proof.
  intros Hs Ht Hw. unfold broadcast_with.
  destruct (active_connections (manager w) !! u) as [conns|]; [|by eexists].
  destruct (broadcast_steps now message exclude conns w [])
    as (w2 & -> & _ & _ & Hd & _).
  simpl. apply (cleanup_total disc bound); try done.
  rewrite <- size_dom, Hd, size_dom. done.
Qed.

(** The registry right after [disconnect] has taken [ws] out, before the
    notice to the user's other connections. *)
Lemma removal_shrunk w ws (active : gmap Z (list WebSocket)) :
  (∀ u conns', active !! u = Some conns' →
     ∃ conns, active_connections (manager w) !! u = Some conns
              ∧ conns' ⊆ conns ∧ (conns ≠ [] → conns' ≠ [])) →
  shrunk alive w
    {| manager :=
         {| active_connections := active;
            connection_metadata :=
              delete ws (connection_metadata (manager w)) |};
       delivered := delivered w |}.
Proof.
  intros Hact. split; simpl.
  { rewrite dom_delete. apply subseteq_difference_l. done. }
  split.
  { intros u c Hc. destruct (Hact u c Hc) as (c0 & H0 & Hsub & _).
    by exists c0. }
  split; [exists []; by rewrite app_nil_r|].
  split.
  { intros Hne u c Hc. destruct (Hact u c Hc) as (c0 & H0 & _ & Hn).
    apply Hn. by eapply Hne. }
  split.
  { intros ws' _. destruct (decide (ws' = ws)) as [->|Hne].
    - left. apply lookup_delete_eq.
    - right. by apply lookup_delete_ne. }
  intros ws' md' [_ H]%lookup_delete_Some. by exists md'.
Qed.

(** The user's list once [ws] is filtered out of it. *)
Lemma filtered_entry ws (uk : option Z) (act : gmap Z (list WebSocket)) :
  let active :=
    match uk with
    | Some u =>
        match act !! u with
        | Some conns =>
            match filter (λ x : WebSocket, x ≠ ws) conns with
            | [] => delete u act
            | _ => <[u := filter (λ x : WebSocket, x ≠ ws) conns]> act
            end
        | None => act
        end
    | None => act
    end in
  (∀ u conns', active !! u = Some conns' →
     ∃ conns, act !! u = Some conns
              ∧ conns' ⊆ conns ∧ (conns ≠ [] → conns' ≠ []))
  ∧ (∀ u conns', uk = Some u → active !! u = Some conns' →
       ws ∉ conns').
Proof.
  assert (∀ u conns', act !! u = Some conns' →
            ∃ conns, act !! u = Some conns
                     ∧ conns' ⊆ conns ∧ (conns ≠ [] → conns' ≠ []))
    as Hsame.
  { intros u c Hc. by exists c. }
  destruct uk as [u0|]; simpl; [|split; [exact Hsame|by intros]].
  destruct (act !! u0) as [conns|] eqn:Hu0;
    [|split; [exact Hsame|intros u c [= ->]; congruence]].
  destruct (filter (λ x : WebSocket, x ≠ ws) conns) as [|c0 rest] eqn:Hf.
  - split.
    + intros u c. destruct (decide (u = u0)) as [->|Hne].
      * by rewrite lookup_delete_eq.
      * rewrite lookup_delete_ne by done. apply Hsame.
    + intros u c [= ->]. by rewrite lookup_delete_eq.
  - split.
    + intros u c. destruct (decide (u = u0)) as [->|Hne].
      * rewrite lookup_insert_eq. intros [= <-]. exists conns.
        split; [done|]. split; [|done].
        rewrite <- Hf. intros x [_ Hx]%list_elem_of_filter. done.
      * rewrite lookup_insert_ne by done. apply Hsame.
    + intros u c [= ->]. rewrite lookup_insert_eq. intros [= <-].
      rewrite <- Hf. intros [Hx _]%list_elem_of_filter. by apply Hx.
Qed.

Lemma disconnect_shrunk fuel now ws w w' :
  disconnect alive isoformat fuel now ws w = Some w' → shrunk alive w w'.
Proof.
  revert ws w w'. induction fuel as [|fuel IH]; intros ws w w'; [done|].
  simpl.
  destruct (connection_metadata (manager w) !! ws) as [md|];
    [|intros [= ->]; apply shrunk_refl].
  case_bool_decide; [intros [= ->]; apply shrunk_refl|].
  destruct (filtered_entry ws (user_key (Py.get md "user_id"))
              (active_connections (manager w))) as [Hact _].
  pose proof (removal_shrunk w ws _ Hact) as Hrem.
  simpl in Hrem.
  destruct (user_key (Py.get md "user_id")) as [u|];
    [|by intros [= <-]].
  case_bool_decide; [|by intros [= <-]].
  intros Hb. eapply shrunk_trans; [exact Hrem|].
  eapply broadcast_with_shrunk; [|exact Hb]. intros; by eapply IH.
Qed.

Lemma disconnect_total fuel now ws w :
  (size (connection_metadata (manager w)) < fuel)%nat →
  is_Some (disconnect alive isoformat fuel now ws w).
Proof.
  revert ws w. induction fuel as [|fuel IH]; intros ws w Hsz; [lia|].
  simpl.
  destruct (connection_metadata (manager w) !! ws) as [md|] eqn:Hmd;
    [|by eexists].
  case_bool_decide; [by eexists|].
  destruct (user_key (Py.get md "user_id")) as [u|]; [|by eexists].
  case_bool_decide; [|by eexists].
  apply (broadcast_with_total _ fuel).
  - intros; by eapply disconnect_shrunk.
  - intros; by apply IH.
  - simpl. pose proof (map_size_delete ws (connection_metadata (manager w)))
      as Hd.
    rewrite Hmd in Hd. simpl in Hd.
    assert (size (connection_metadata (manager w)) ≠ 0)%nat.
    { intros Hz%map_size_empty_inv. by rewrite Hz, lookup_empty in Hmd. }
    lia.
Qed.

(** What [disconnect] leaves of a connection whose metadata is not the
    empty dictionary. *)
Lemma disconnect_gone fuel now ws w w' :
  disconnect alive isoformat fuel now ws w = Some w' →
  connection_metadata (manager w) !! ws ≠ Some ∅ →
  connection_metadata (manager w') !! ws = None
  ∧ ∀ md u conns,
      connection_metadata (manager w) !! ws = Some md →
      user_key (Py.get md "user_id") = Some u →
      active_connections (manager w') !! u = Some conns → ws ∉ conns.
Proof.
  destruct fuel as [|fuel]; [done|]. simpl.
  destruct (connection_metadata (manager w) !! ws) as [md|] eqn:Hmd;
    [|intros [= <-] _; split; [done|by intros]].
  case_bool_decide as Hempty; [intros _ Hne; by subst md|].
  destruct (filtered_entry ws (user_key (Py.get md "user_id"))
              (active_connections (manager w))) as [Hact Hout].
  pose proof (removal_shrunk w ws _ Hact) as Hrem.
  simpl in Hrem, Hout.
  intros Hrun _.
  match type of Hrem with
  | connections.shrunk _ _ ?w1 =>
      assert (shrunk alive w1 w'
              ∧ connection_metadata (manager w1) !! ws = None)
        as [Hs Hnone]
  end.
  { split; [|apply lookup_delete_eq].
    destruct (user_key (Py.get md "user_id")) as [u|];
      [|injection Hrun as <-; apply shrunk_refl].
    case_bool_decide;
      [|injection Hrun as <-; apply shrunk_refl].
    eapply broadcast_with_shrunk; [|exact Hrun].
    intros; by eapply disconnect_shrunk. }
  split; [by eapply shrunk_lookup_None|].
  intros md' u conns [= <-] Hu Hc.
  destruct Hs as (_ & Hsub & _).
  destruct (Hsub u conns Hc) as (c0 & Hc0 & Hin). simpl in Hc0.
  intros Hws. apply Hin in Hws. revert Hws. by eapply Hout.
Qed.

(** The registry right after [connect] has put [ws] in. *)
Lemma connect_unfold fuel now ws u md w :
  ∃ w1,
    connect alive isoformat fuel now ws u md w
      = broadcast_to_user alive isoformat fuel now u
          (established_message isoformat u now) (Some ws) w1
    ∧ (size (connection_metadata (manager w1))
       ≤ S (size (connection_metadata (manager w))))%nat
    ∧ (no_empty_entry (manager w) → no_empty_entry (manager w1)).
Proof.
  eexists. split; [reflexivity|]. simpl. split.
  - rewrite map_size_insert. destruct (_ !! ws); simpl; lia.
  - unfold no_empty_entry. simpl.
    intros Hne u' c. destruct (decide (u' = u)) as [->|Hu].
    + rewrite lookup_insert_eq. intros [= <-]. by destruct (default [] _).
    + rewrite lookup_insert_ne by done. apply Hne.
Qed.

(** The registry names a user for every connection from the start, and
    [connect], [disconnect], [broadcast_to_user] and
    [send_personal_message] keep it so: the dictionary [connect] stores
    has the key "user_id" whatever the caller's metadata holds. *)
Lemma names_user_kept fuel now ws u message exclude md w w' :
  names_user (manager w) →
  names_user init
  ∧ (connect alive isoformat fuel now ws u md w = Some w' →
     names_user (manager w'))
  ∧ (disconnect alive isoformat fuel now ws w = Some w' →
     names_user (manager w'))
  ∧ (broadcast_to_user alive isoformat fuel now u message exclude w = Some w' →
     names_user (manager w'))
  ∧ (send_personal_message alive isoformat fuel now message ws w = Some w' →
     names_user (manager w')).
Proof.
  intros Hn.
  assert (∀ x v v', disconnect alive isoformat fuel now x v = Some v' →
                    shrunk alive v v') as Hs
    by (intros; by eapply disconnect_shrunk).
  split; [intros x d; unfold init; simpl; by rewrite lookup_empty|].
  split.
  { unfold connect, broadcast_to_user. intros Hrun.
    eapply shrunk_names_user; [by eapply broadcast_with_shrunk|].
    intros x d. simpl. destruct (decide (x = ws)) as [->|Hx].
    - rewrite lookup_insert_eq. intros [= <-].
      rewrite lookup_union. destruct (default ∅ md !! "user_id"); by eexists.
    - rewrite lookup_insert_ne by done. apply Hn. }
  split; [intros Hrun; eapply shrunk_names_user; [by eapply Hs|done]|].
  split.
  { intros Hrun.
    eapply shrunk_names_user; [by eapply broadcast_with_shrunk|done]. }
  unfold send_personal_message. destruct (alive ws) eqn:Hlive.
  - intros [= <-].
    eapply shrunk_names_user;
      [by apply (touch_sent_shrunk now ws message)|done].
  - intros Hrun. eapply shrunk_names_user; [by eapply Hs|done].
Qed.

(** X19: the calls between [disconnect] and [broadcast_to_user] come to an
    end.  Every [disconnect] that goes on to notify takes one connection
    out of the metadata first, so a depth of one more than the number of
    registered connections is never reached: [disconnect],
    [broadcast_to_user] and [send_personal_message] return, and so does
    [connect], which registers one connection before it broadcasts. *)
Theorem manager_calls_return fuel now ws u message exclude md w :
  (S (size (connection_metadata (manager w))) < fuel)%nat →
  is_Some (connect alive isoformat fuel now ws u md w)
  ∧ is_Some (disconnect alive isoformat fuel now ws w)
  ∧ is_Some (broadcast_to_user alive isoformat fuel now u message exclude w)
  ∧ is_Some (send_personal_message alive isoformat fuel now message ws w).
Proof.
  intros Hfuel.
  assert (∀ x v v', disconnect alive isoformat fuel now x v = Some v' →
                    shrunk alive v v') as Hs
    by (intros; by eapply disconnect_shrunk).
  assert (∀ x v, (size (connection_metadata (manager v)) < fuel)%nat →
                 is_Some (disconnect alive isoformat fuel now x v)) as Ht
    by (intros; by apply disconnect_total).
  split.
  { destruct (connect_unfold fuel now ws u md w) as (w1 & -> & Hsz & _).
    apply (broadcast_with_total _ fuel); [done|done|lia]. }
  split; [apply Ht; lia|].
  split; [apply (broadcast_with_total _ fuel); [done|done|lia]|].
  unfold send_personal_message. destruct (alive ws); [by eexists|].
  apply Ht. lia.
Qed.

(** X20: in a registry whose metadata all name a user, as the metadata
    [connect] stores does, [disconnect] of a registered connection takes it
    out of the metadata and out of the list of the user its metadata
    names, whatever else the notices to the user's other connections drop
    on the way; the registry has fewer connections afterwards, its
    metadata still all name a user, and a second [disconnect] of the same
    connection changes nothing. *)
Theorem disconnect_unregisters fuel now ws md w :
  names_user (manager w) →
  connection_metadata (manager w) !! ws = Some md →
  (size (connection_metadata (manager w)) < fuel)%nat →
  ∃ w',
    disconnect alive isoformat fuel now ws w = Some w'
    ∧ connection_metadata (manager w') !! ws = None
    ∧ (∀ u conns, user_key (Py.get md "user_id") = Some u →
         active_connections (manager w') !! u = Some conns → ws ∉ conns)
    ∧ (size (connection_metadata (manager w'))
       < size (connection_metadata (manager w)))%nat
    ∧ names_user (manager w')
    ∧ ∀ fuel' now',
        disconnect alive isoformat (S fuel') now' ws w' = Some w'.
Proof.
  intros Hnames Hmd Hfuel.
  destruct (disconnect_total fuel now ws w Hfuel) as [w' Hrun].
  destruct (disconnect_gone fuel now ws w w' Hrun) as [Hnone Hout].
  { rewrite Hmd. intros [= ->]. destruct (Hnames ws ∅ Hmd) as [? H].
    by rewrite lookup_empty in H. }
  pose proof (disconnect_shrunk _ _ _ _ _ Hrun) as Hs.
  exists w'. split; [done|]. split; [done|].
  split; [intros u conns; by apply Hout|]. split.
  { rewrite <- !size_dom. apply subset_size.
    destruct Hs as [Hd _].
    split; [done|]. intros Hback.
    assert (ws ∈ dom (connection_metadata (manager w'))) as Hin
      by (apply Hback, elem_of_dom; by eexists).
    apply elem_of_dom in Hin as [? Hin]. congruence. }
  split; [by eapply shrunk_names_user|].
  intros fuel' now'. simpl. by rewrite Hnone.
Qed.

(** X21: in a registry whose metadata all name a user, as the metadata
    [connect] stores does, [broadcast_to_user] delivers the message to the
    user's live connections, in the order of the list and leaving out the
    excluded one; whatever else is delivered comes after and goes to live
    connections (the notices that a connection was closed); every
    connection of the list whose send failed is gone from the metadata
    afterwards; and the metadata left still all name a user.  For a user
    without an entry nothing is delivered. *)
Theorem broadcast_to_user_reaches_and_drops fuel now u message exclude w :
  let conns := default [] (active_connections (manager w) !! u) in
  names_user (manager w) →
  (size (connection_metadata (manager w)) < fuel)%nat →
  ∃ w' notices,
    broadcast_to_user alive isoformat fuel now u message exclude w = Some w'
    ∧ delivered w'
      = delivered w
        ++ ((λ ws, (ws, message)) <$> connections.reached alive exclude conns)
        ++ notices
    ∧ Forall (λ p, alive p.1 = true) notices
    ∧ (active_connections (manager w) !! u = None → notices = [])
    ∧ (∀ ws, ws ∈ connections.failed alive exclude conns →
             connection_metadata (manager w') !! ws = None)
    ∧ names_user (manager w').
Proof.
  intros conns Hnames Hfuel. subst conns.
  unfold broadcast_to_user, broadcast_with.
  destruct (active_connections (manager w) !! u) as [conns|]; simpl.
  2:{ exists w, []. rewrite !app_nil_r. split; [done|]. split; [done|].
      split; [done|]. split; [done|]. split; [|done].
      intros ws Hin. by apply elem_of_nil in Hin. }
  destruct (broadcast_steps now message exclude conns w [])
    as (w2 & -> & Hdel & Hs & Hd & _).
  simpl.
  assert (∀ x v v', disconnect alive isoformat fuel now x v = Some v' →
                    shrunk alive v v') as Hsh
    by (intros; by eapply disconnect_shrunk).
  destruct (cleanup_total (disconnect alive isoformat fuel now) fuel
              (failed alive exclude conns) w2) as [w' Hrun]; [done| |..].
  { intros; by apply disconnect_total. }
  { by rewrite <- size_dom, Hd, size_dom. }
  pose proof (cleanup_shrunk _ _ _ _ Hsh Hrun) as Hs'.
  pose proof Hs' as (_ & _ & (notices & Hn & Hlive) & _).
  exists w', notices. split; [done|].
  split; [by rewrite Hn, Hdel, <- app_assoc|].
  split; [done|]. split; [done|].
  split; [|eapply shrunk_names_user; [exact Hs'|];
           by eapply shrunk_names_user].
  intros ws Hin.
  assert (alive ws = false) as Hdead.
  { unfold connections.failed in Hin.
    by apply list_elem_of_filter in Hin as [[_ ?] _]. }
  assert (connection_metadata (manager w) !! ws ≠ Some ∅) as Hne.
  { intros H. destruct (Hnames ws ∅ H) as [? Hx].
    by rewrite lookup_empty in Hx. }
  eapply (cleanup_drops (disconnect alive isoformat fuel now)); try done.
  - intros x v v' Hx. split; [exact (Hsh _ _ _ Hx)|].
    intros Hv. by destruct (disconnect_gone _ _ _ _ _ Hx Hv).
  - by eapply shrunk_dead_truthy.
Qed.

(** X22: no user is ever left in [active_connections] with an empty list.
    The registry starts that way, and [connect], [disconnect],
    [broadcast_to_user] and [send_personal_message] each return a registry
    that is so when they were given one. *)
Theorem no_empty_entry_kept fuel now ws u message exclude md w :
  no_empty_entry (manager w) →
  (S (size (connection_metadata (manager w))) < fuel)%nat →
  no_empty_entry init
  ∧ (∃ w', connect alive isoformat fuel now ws u md w = Some w'
           ∧ no_empty_entry (manager w'))
  ∧ (∃ w', disconnect alive isoformat fuel now ws w = Some w'
           ∧ no_empty_entry (manager w'))
  ∧ (∃ w', broadcast_to_user alive isoformat fuel now u message exclude w
             = Some w'
           ∧ no_empty_entry (manager w'))
  ∧ (∃ w', send_personal_message alive isoformat fuel now message ws w
             = Some w'
           ∧ no_empty_entry (manager w')).
Proof.
  intros Hinv Hfuel.
  assert (∀ x v v', disconnect alive isoformat fuel now x v = Some v' →
                    shrunk alive v v') as Hs
    by (intros; by eapply disconnect_shrunk).
  assert (∀ x v, (size (connection_metadata (manager v)) < fuel)%nat →
                 is_Some (disconnect alive isoformat fuel now x v)) as Ht
    by (intros; by apply disconnect_total).
  assert (∀ v v', shrunk alive v v' → no_empty_entry (manager v) →
                  no_empty_entry (manager v')) as Hkeep
    by (intros v v' (_ & _ & _ & Hk & _); exact Hk).
  split; [intros x c; unfold init; simpl; by rewrite lookup_empty|].
  split.
  { destruct (connect_unfold fuel now ws u md w) as (w1 & -> & Hsz & Hne).
    destruct (broadcast_with_total (disconnect alive isoformat fuel now) fuel
                now u (established_message isoformat u now) (Some ws) w1)
      as [w' Hrun]; [done|done|lia|].
    exists w'. split; [done|].
    eapply Hkeep; [by eapply broadcast_with_shrunk|by apply Hne]. }
  split.
  { destruct (Ht ws w) as [w' Hrun]; [lia|].
    exists w'. split; [done|]. eapply Hkeep; [by eapply Hs|done]. }
  split.
  { destruct (broadcast_with_total (disconnect alive isoformat fuel now) fuel
                now u message exclude w) as [w' Hrun]; [done|done|lia|].
    exists w'. split; [done|].
    eapply Hkeep; [by eapply broadcast_with_shrunk|done]. }
  unfold send_personal_message. destruct (alive ws) eqn:Hlive.
  - eexists. split; [done|].
    eapply Hkeep; [by apply (touch_sent_shrunk now ws message)|done].
  - destruct (Ht ws w) as [w' Hrun]; [lia|].
    exists w'. split; [done|]. eapply Hkeep; [by eapply Hs|done].
Qed.

End connection_facts.

(** ** Input sanitizer *)

Section sanitizer_facts.

Import Stdlib.Strings.Ascii.
Import input_sanitizer.

Lemma chars_str l : chars (str l) = l.
Proof. apply String.list_ascii_of_string_of_list_ascii. Qed.

Lemma str_chars s : str (chars s) = s.
Proof. apply String.string_of_list_ascii_of_string. Qed.

Lemma chars_app s1 s2 : chars (s1 +:+ s2) = chars s1 ++ chars s2.
Proof. induction s1 as [|c s1 IH]; simpl; [done|]. by rewrite IH. Qed.

Lemma chars_lower s :
  chars (security.lower s) = security.lower_ascii <$> chars s.
Proof. induction s as [|c s IH]; simpl; [done|]. by rewrite IH. Qed.

Lemma filter_all {A} (P : A → Prop) `{!∀ x, Decision (P x)} (l : list A) :
  Forall P l → filter P l = l.
Proof.
  induction 1 as [|x l Hx _ IH]; [done|].
  by rewrite filter_cons_True, IH.
Qed.

Lemma allowed_not_space c :
  allowed_chars c = true → security.is_space c = false.
Proof.
  destruct c as [[] [] [] [] [] [] [] []]; vm_compute; congruence.
Qed.

Lemma allowed_lower c :
  allowed_chars c = true → security.lower_ascii c = c.
Proof.
  destruct c as [[] [] [] [] [] [] [] []]; vm_compute; congruence.
Qed.

Lemma lstrip_allowed s :
  Forall (λ c, allowed_chars c = true) (chars s) → security.lstrip s = s.
Proof.
  destruct s as [|c s]; [done|]. simpl. intros [Hc _]%Forall_cons.
  by rewrite (allowed_not_space c Hc).
Qed.

Lemma rstrip_allowed s :
  Forall (λ c, allowed_chars c = true) (chars s) → security.rstrip s = s.
Proof.
  induction s as [|c s IH]; [done|]. simpl. intros [Hc Hs]%Forall_cons.
  rewrite (IH Hs). destruct s; [|done].
  by rewrite (allowed_not_space c Hc).
Qed.

Lemma lower_allowed s :
  Forall (λ c, allowed_chars c = true) (chars s) → security.lower s = s.
Proof.
  induction s as [|c s IH]; [done|]. simpl. intros [Hc Hs]%Forall_cons.
  by rewrite (IH Hs), (allowed_lower c Hc).
Qed.

(** X25: [sanitize_username] returns a string over the lowercase letters,
    the digits, the underscore and the hyphen, never longer than its
    input; sanitising a second time changes nothing. *)
Theorem sanitize_username_alphabet username :
  Forall (λ c, allowed_chars c = true) (chars (sanitize_username username))
  ∧ sanitize_username (sanitize_username username)
    = sanitize_username username.
Proof.
  assert (Forall (λ c, allowed_chars c = true)
            (chars (sanitize_username username))) as Hall.
  { unfold sanitize_username. rewrite chars_str.
    apply Forall_forall. by intros c [? _]%list_elem_of_filter. }
  split; [done|].
  unfold sanitize_username at 1.
  rewrite lstrip_allowed, rstrip_allowed, lower_allowed by done.
  by rewrite filter_all, str_chars.
Qed.

(** What [rsplit] and [lstrip] give. *)
Lemma rsplit_dot_Some l name ext :
  rsplit_dot l = Some (name, ext) →
  l = name ++ "."%char :: ext ∧ "."%char ∉ ext.
Proof.
  revert name ext. induction l as [|c l IH]; intros name ext; [done|].
  simpl. destruct (rsplit_dot l) as [[n e]|] eqn:Hr.
  - intros [= <- <-]. destruct (IH n e eq_refl) as [-> He]. done.
  - destruct (Ascii.eqb c ".") eqn:Hc; [|done].
    apply Ascii.eqb_eq in Hc as ->. intros [= <- <-]. split; [done|].
    clear IH. induction l as [|d l IH]; [by intros ?%elem_of_nil|].
    simpl in Hr. destruct (rsplit_dot l) as [[n e]|]; [done|].
    destruct (Ascii.eqb d ".") eqn:Hd; [done|].
    apply Ascii.eqb_neq in Hd.
    intros [?|?]%elem_of_cons; [done|]. by apply IH.
Qed.

Lemma rsplit_dot_None l : rsplit_dot l = None → "."%char ∉ l.
Proof.
  induction l as [|d l IH]; [by intros _ ?%elem_of_nil|].
  simpl. destruct (rsplit_dot l) as [[n e]|]; [done|].
  destruct (Ascii.eqb d ".") eqn:Hd; [done|].
  apply Ascii.eqb_neq in Hd.
  intros _ [?|?]%elem_of_cons; [done|]. by apply IH.
Qed.

Lemma rsplit_dot_app name ext :
  "."%char ∉ ext → rsplit_dot (name ++ "."%char :: ext) = Some (name, ext).
Proof.
  intros Hext.
  assert (rsplit_dot ext = None) as Hnone.
  { destruct (rsplit_dot ext) as [[n e]|] eqn:Hr; [|done].
    apply rsplit_dot_Some in Hr as [-> _]. exfalso. apply Hext.
    apply elem_of_app. right. apply elem_of_cons. by left. }
  induction name as [|c name IH]; simpl.
  - by rewrite Hnone.
  - by rewrite IH.
Qed.

Lemma lstrip_dots_suffix l : lstrip_dots l `suffix_of` l.
Proof.
  induction l as [|c l IH]; [done|]. simpl.
  destruct (Ascii.eqb c "."); [by apply suffix_cons_r|done].
Qed.

Lemma lstrip_dots_head l : head (lstrip_dots l) ≠ Some "."%char.
Proof.
  induction l as [|c l IH]; [done|]. simpl.
  destruct (Ascii.eqb c ".") eqn:Hc; [done|].
  apply Ascii.eqb_neq in Hc. simpl. congruence.
Qed.

(** The name as it stands before the length is looked at. *)
Lemma cleaned_no_separator filename c :
  c ∈ lstrip_dots
        (remove Ascii.zero
           (remove "\"%char (remove "/"%char (chars filename)))) →
  c ≠ "/"%char ∧ c ≠ "\"%char ∧ c ≠ Ascii.zero.
Proof.
  intros Hin.
  destruct (lstrip_dots_suffix
              (remove Ascii.zero
                 (remove "\"%char (remove "/"%char (chars filename)))))
    as [k Hk].
  assert (c ∈ remove Ascii.zero
                (remove "\"%char (remove "/"%char (chars filename)))) as Hc.
  { rewrite Hk. apply elem_of_app. by right. }
  unfold remove in Hc.
  apply list_elem_of_filter in Hc as [H0 Hc].
  apply list_elem_of_filter in Hc as [H1 Hc].
  apply list_elem_of_filter in Hc as [H2 _]. done.
Qed.

Lemma slice_to_sublist k l c : c ∈ slice_to k l → c ∈ l.
Proof.
  unfold slice_to. destruct (k <? 0); apply subseteq_take.
Qed.

(** X26: for a file name within ASCII, the name [sanitize_filename]
    returns holds no slash, no backslash and no null byte.  When what
    follows the last dot of the cleaned name has at most 253 characters
    (or the name holds no dot), the name returned has at most 255
    characters and does not start with a dot. *)
Theorem sanitize_filename_safe filename :
  let cleaned :=
    lstrip_dots
      (remove Ascii.zero
         (remove "\"%char (remove "/"%char (chars filename)))) in
  ascii_only filename = true →
  Forall (λ c, c ≠ "/"%char ∧ c ≠ "\"%char ∧ c ≠ Ascii.zero)
    (chars (sanitize_filename filename))
  ∧ ((∀ name ext, rsplit_dot cleaned = Some (name, ext) →
                  (length ext ≤ 253)%nat) →
     (length (chars (sanitize_filename filename)) ≤ 255)%nat
     ∧ head (chars (sanitize_filename filename)) ≠ Some "."%char).
Proof.
  intros f _.
  pose proof (lstrip_dots_head
                (remove Ascii.zero
                   (remove "\"%char (remove "/"%char (chars filename)))))
    as Hhead.
  fold f in Hhead.
  unfold sanitize_filename. rewrite chars_str. fold f. split.
  - apply Forall_forall. intros c Hc.
    apply (cleaned_no_separator filename). fold f.
    destruct (255 <? Z.of_nat (length f)); [|done].
    destruct (rsplit_dot f) as [[name ext]|] eqn:Hr.
    + apply rsplit_dot_Some in Hr as [Hf _].
      assert (c ∈ name ∨ c = "."%char ∨ c ∈ ext) as Hcases.
      { destruct ext as [|e ext].
        - left. by eapply slice_to_sublist.
        - apply elem_of_app in Hc as [Hc|Hc].
          + left. by eapply slice_to_sublist.
          + apply elem_of_cons in Hc as [->|Hc]; auto. }
      rewrite Hf. rewrite elem_of_app, elem_of_cons. tauto.
    + by eapply slice_to_sublist.
  - intros Hext.
    destruct (255 <? Z.of_nat (length f)) eqn:Hlen; [|split; [lia|done]].
    apply Z.ltb_lt in Hlen.
    destruct (rsplit_dot f) as [[name ext]|] eqn:Hr.
    + specialize (Hext name ext eq_refl).
      apply rsplit_dot_Some in Hr as [Hf _].
      assert (name ≠ []) as Hname.
      { intros ->. rewrite Hf in Hhead. by apply Hhead. }
      assert (head name ≠ Some "."%char) as Hhn.
      { rewrite Hf in Hhead. by destruct name. }
      destruct ext as [|e ext].
      * unfold slice_to. simpl. rewrite length_take. split; [lia|].
        by destruct name.
      * unfold slice_to.
        destruct (255 - Z.of_nat (length (e :: ext)) - 1 <? 0) eqn:Hk;
          [lia|].
        rewrite length_app, length_take. split; [simpl in *; lia|].
        destruct name as [|n0 name]; [done|].
        replace (Z.to_nat (255 - Z.of_nat (length (e :: ext)) - 1))
          with (S (253 - length (e :: ext))) by lia.
        done.
    + unfold slice_to. simpl. rewrite length_take. split; [lia|].
      destruct f; [done|]. done.
Qed.

(** X27: for a file name within ASCII, with 254 or more characters
    after the last dot of a cleaned name of more than 255, the cut goes
    wrong.  With exactly 254 nothing of the name is kept: the result is
    the dot and the extension, a hidden file.  With more, the negative
    bound cuts the name from its end instead, and the result is longer
    than 255 characters. *)
Theorem sanitize_filename_long_extension filename name ext :
  let cleaned :=
    lstrip_dots
      (remove Ascii.zero
         (remove "\"%char (remove "/"%char (chars filename)))) in
  ascii_only filename = true →
  rsplit_dot cleaned = Some (name, ext) →
  (254 ≤ length ext)%nat →
  (length ext = 254%nat →
   chars (sanitize_filename filename) = "."%char :: ext)
  ∧ ((255 ≤ length ext)%nat →
     chars (sanitize_filename filename)
     = take (length name - (length ext - 254)) name ++ ("."%char :: ext)
     ∧ (255 < length (chars (sanitize_filename filename)))%nat).
Proof.
  intros f _ Hr Hlong. unfold sanitize_filename. rewrite chars_str. fold f.
  rewrite Hr.
  destruct (rsplit_dot_Some _ _ _ Hr) as [Hf _].
  pose proof (lstrip_dots_head
                (remove Ascii.zero
                   (remove "\"%char (remove "/"%char (chars filename)))))
    as Hhead.
  fold f in Hhead.
  assert (name ≠ []) as Hname.
  { intros ->. rewrite Hf in Hhead. by apply Hhead. }
  assert ((255 <? Z.of_nat (length f)) = true) as ->.
  { apply Z.ltb_lt. rewrite Hf, length_app. destruct name; [done|].
    simpl. lia. }
  destruct ext as [|e ext]; [simpl in Hlong; lia|].
  unfold slice_to. split.
  - intros H254.
    destruct (255 - Z.of_nat (length (e :: ext)) - 1 <? 0) eqn:Hk; [lia|].
    replace (Z.to_nat (255 - Z.of_nat (length (e :: ext)) - 1)) with 0%nat
      by lia.
    done.
  - intros H255.
    destruct (255 - Z.of_nat (length (e :: ext)) - 1 <? 0) eqn:Hk; [|lia].
    replace (Z.to_nat (Z.of_nat (length name)
                       + (255 - Z.of_nat (length (e :: ext)) - 1)))
      with (length name - (length (e :: ext) - 254))%nat by lia.
    split; [done|]. rewrite length_app. simpl in *. lia.
Qed.

Lemma lower_ascii_dot c : security.lower_ascii c = "."%char → c = "."%char.
Proof.
  destruct c as [[] [] [] [] [] [] [] []]; vm_compute; congruence.
Qed.

Lemma lower_app s1 s2 :
  security.lower (s1 +:+ s2) = security.lower s1 +:+ security.lower s2.
Proof. induction s1 as [|c s1 IH]; simpl; [done|]. by rewrite IH. Qed.

(** X28: on names and types within ASCII, [validate_file_type] looks at
    nothing but what follows the last dot, and without regard to letter
    case: a name [name.ext] is accepted exactly when [ext], lowercased, is
    among the lowercased allowed types, whatever [name] is, further
    extensions included.  A name without a dot is accepted only when the
    empty string is among the allowed types. *)
Theorem validate_file_type_last_extension name ext allowed_types :
  ascii_only name = true →
  ascii_only ext = true →
  forallb ascii_only allowed_types = true →
  ("."%char ∉ chars ext →
   validate_file_type (name +:+ "." +:+ ext) allowed_types
   = bool_decide (security.lower ext ∈ security.lower <$> allowed_types))
  ∧ ("."%char ∉ chars name → name ≠ "" →
     validate_file_type name allowed_types
     = bool_decide ("" ∈ security.lower <$> allowed_types)).
Proof.
  intros _ _ _. split.
  - intros Hext. unfold validate_file_type.
    assert (String.eqb (name +:+ "." +:+ ext) "" = false) as ->.
    { apply String.eqb_neq. by destruct name. }
    assert (bool_decide ("."%char ∈ chars (name +:+ "." +:+ ext)) = true)
      as ->.
    { apply bool_decide_eq_true_2. rewrite !chars_app. apply elem_of_app.
      right. apply elem_of_app. left. simpl. apply elem_of_cons. by left. }
    rewrite !lower_app, !chars_app. simpl.
    unfold last_field. rewrite rsplit_dot_app.
    + by rewrite str_chars.
    + rewrite chars_lower. intros [c [Hc Hin]]%list_elem_of_fmap.
      symmetry in Hc. apply lower_ascii_dot in Hc as ->. done.
  - intros Hname Hne. unfold validate_file_type.
    assert (String.eqb name "" = false) as -> by by apply String.eqb_neq.
    assert (bool_decide ("."%char ∈ chars name) = false) as ->
      by by apply bool_decide_eq_false_2.
    done.
Qed.

End sanitizer_facts.

(** ** Password validator *)

Section validator_facts.

Import input_sanitizer password_validator.

Lemma contains_prefix seq s : seq `prefix_of` s → contains seq s = true.
Proof. intros H. destruct s; simpl; by rewrite bool_decide_eq_true_2. Qed.

Lemma contains_app seq pre post :
  contains seq (pre ++ seq ++ post) = true.
Proof.
  induction pre as [|c pre IH]; simpl.
  - apply contains_prefix. by eexists.
  - rewrite IH. by rewrite orb_true_r.
Qed.

Lemma check_last failed message errors :
  failed = true → last (check failed message errors) = Some message.
Proof. intros ->. unfold check. by rewrite last_snoc. Qed.

(** X29: whatever the configuration, with every requirement switched off
    and no minimum of unique characters even, [validate] refuses a
    password within ASCII of fewer than four distinct characters, and one
    that holds one of the listed sequences or keyboard patterns in any
    letter case: the last error is the one about common patterns. *)
Theorem validate_refuses_common_patterns
    (self : PasswordValidator) password :
  ascii_only password = true →
  unique_chars password < 4
  ∨ (∃ pattern pre mid post,
       pattern ∈ sequences ++ keyboard_patterns
       ∧ security.lower mid = pattern
       ∧ password = pre +:+ mid +:+ post) →
  (validate self password).1 = false
  ∧ last (validate self password).2
    = Some "Password contains common patterns and is too weak".
Proof.
  intros _ Hweak.
  assert (is_common_pattern password = true) as Hcommon.
  { unfold is_common_pattern.
    destruct (existsb _ sequences) eqn:Hseq; [done|].
    destruct (unique_chars password <? 4) eqn:Hu; [done|].
    destruct (existsb _ keyboard_patterns) eqn:Hkey; [done|].
    exfalso. destruct Hweak as [Hlt|(pat & pre & mid & post & Hin & Hl & ->)];
      [lia|].
    assert (contains (chars pat)
              (chars (security.lower (pre +:+ mid +:+ post))) = true) as Hc.
    { rewrite !lower_app, !chars_app, Hl. apply contains_app. }
    apply elem_of_app in Hin as [Hin|Hin].
    - assert (existsb (λ seq, contains (chars seq)
                (chars (security.lower (pre +:+ mid +:+ post)))) sequences
              = true) as Hex; [|congruence].
      apply existsb_exists. exists pat. split; [|done].
      by apply list_elem_of_In.
    - assert (existsb (λ seq, contains (chars seq)
                (chars (security.lower (pre +:+ mid +:+ post))))
                keyboard_patterns = true) as Hex; [|congruence].
      apply existsb_exists. exists pat. split; [|done].
      by apply list_elem_of_In. }
  unfold validate. cbv zeta. cbn [fst snd].
  rewrite (check_last _ _ _ Hcommon). split; [|done].
  apply bool_decide_eq_false_2.
  unfold check at 1. rewrite Hcommon. rewrite length_app. simpl. lia.
Qed.

End validator_facts.

(** ** The properties above, at concrete inputs *)

Lemma set_then_get_witness :
  ∃ mgr,
    redis.set fixtures.cfg (fixtures.up ∅) "greeting" "hello" (Some 60)
      fixtures.T0 = Returns (mgr, true)
    ∧ cache.get mgr "greeting" (fixtures.T0 + 60 * MICROS)
      = Returns (Some "hello")
    ∧ redis.exists_ mgr "greeting" (fixtures.T0 + 60 * MICROS)
      = Returns true.
Proof.
  destruct (set_then_get fixtures.cfg ∅ "greeting" "hello" (Some 60)
              fixtures.T0 (fixtures.T0 + 60 * MICROS))
    as (mgr & Hset & Hin & _).
  - reflexivity.
  - unfold fixtures.T0, MICROS. lia.
  - exists mgr. split; [exact Hset|]. apply Hin. simpl. lia.
Defined.

Lemma delete_then_get_witness :
  ∃ mgr,
    cache.delete (fixtures.up samples.pantry) "greeting" fixtures.T0
      = Returns (mgr, true)
    ∧ cache.get mgr "greeting" (fixtures.T0 + 1) = Returns None
    ∧ redis.exists_ mgr "greeting" (fixtures.T0 + 1) = Returns false
    ∧ ∀ other, other ≠ "greeting" →
        cache.get mgr other (fixtures.T0 + 1)
        = cache.get (fixtures.up samples.pantry) other (fixtures.T0 + 1).
Proof.
  apply (delete_then_get samples.pantry "greeting" fixtures.T0
           (fixtures.T0 + 1)).
  lia.
Defined.

Lemma expire_replaces_ttl_witness :
  ∃ mgr,
    cache.expire (fixtures.up samples.pantry) "greeting" 120 fixtures.T0
      = Returns (mgr, true)
    ∧ cache.get mgr "greeting" (fixtures.T0 + 120 * MICROS)
      = Returns (Some "hello").
Proof.
  assert (fixtures.T0 ≤ fixtures.T0 + 120 * MICROS) as Hle
    by (unfold MICROS; lia).
  destruct (proj1 (expire_replaces_ttl samples.pantry "greeting" 120
                     fixtures.T0 (fixtures.T0 + 120 * MICROS) Hle)
              "hello" (Some (fixtures.T0 + 60 * MICROS)))
    as (mgr & Hrun & Hin & _).
  - vm_compute. reflexivity.
  - exists mgr. split; [exact Hrun|]. apply Hin; lia.
Defined.

Lemma store_down_defaults_witness :
  let self := fixtures.down samples.pantry in
  cache.get self "greeting" fixtures.T0 = Returns None
  ∧ redis.exists_ self "greeting" fixtures.T0 = Returns false
  ∧ redis.set fixtures.cfg self "greeting" "hi" None fixtures.T0
    = Returns (self, false)
  ∧ cache.delete self "greeting" fixtures.T0 = Returns (self, false)
  ∧ cache.expire self "greeting" 60 fixtures.T0 = Returns (self, false)
  ∧ cache.health_check self = Returns false.
Proof.
  apply (store_down_defaults fixtures.cfg (fixtures.down samples.pantry)
           "greeting" "hi" None 60 fixtures.T0).
  intros c [= <-]. reflexivity.
Defined.

Lemma samples_loads_dumps_session :
  samples.loads (samples.dumps samples.session_data)
  = Some (cache.JObject samples.session_data).
Proof. vm_compute. reflexivity. Qed.

Lemma samples_loads_dumps_seen :
  samples.loads (samples.dumps samples.seen_data)
  = Some (cache.JObject samples.seen_data).
Proof. vm_compute. reflexivity. Qed.

Lemma create_then_get_session_witness :
  ∃ mgr,
    api.create_session fixtures.cfg samples.dumps fixtures.iso
      (fixtures.up ∅) "s1" 7 {[ "ip" := VStr "10.0.0.1" ]} None fixtures.T0
      = Returns (mgr, "s1")
    ∧ session.get_session fixtures.cfg samples.loads mgr "s1"
        (fixtures.T0 + 3600 * MICROS)
      = Returns (Some (cache.JObject samples.session_data)).
Proof.
  destruct (create_then_get_session fixtures.cfg samples.dumps samples.loads
              fixtures.iso ∅ "s1" 7 {[ "ip" := VStr "10.0.0.1" ]} None
              fixtures.T0 (fixtures.T0 + 3600 * MICROS))
    as (mgr & Hrun & Hin & _).
  - reflexivity.
  - unfold MICROS. lia.
  - exact samples_loads_dumps_session.
  - exists mgr. split; [exact Hrun|]. apply Hin. simpl. lia.
Defined.

Lemma update_session_merges_witness :
  ∃ mgr,
    session.update_session fixtures.cfg samples.dumps samples.loads
      (fixtures.up samples.sessions) "s1" {[ "seen" := VBool true ]}
      (fixtures.T0 + 10 * MICROS) = Returns (mgr, true)
    ∧ session.get_session fixtures.cfg samples.loads mgr "s1"
        (fixtures.T0 + 310 * MICROS)
      = Returns (Some (cache.JObject samples.seen_data)).
Proof.
  assert (fixtures.T0 + 10 * MICROS ≤ fixtures.T0 + 310 * MICROS) as Hle
    by (unfold MICROS; lia).
  assert (0 < cache_ttl fixtures.cfg) as Httl by reflexivity.
  destruct (proj1 (update_session_merges fixtures.cfg samples.dumps
                     samples.loads samples.sessions "s1"
                     {[ "seen" := VBool true ]} (fixtures.T0 + 10 * MICROS)
                     (fixtures.T0 + 310 * MICROS) Hle Httl)
              "{session}" samples.session_data
              (Some (fixtures.T0 + 3600 * MICROS)))
    as (mgr & Hrun & Hin & _).
  - vm_compute. reflexivity.
  - vm_compute. reflexivity.
  - vm_compute. discriminate.
  - exact samples_loads_dumps_seen.
  - exists mgr. split; [exact Hrun|]. apply Hin. simpl. lia.
Defined.

Lemma extend_and_delete_session_witness :
  (∃ mgr,
     session.extend_session fixtures.cfg (fixtures.up samples.sessions) "s1"
       None (fixtures.T0 + 1800 * MICROS) = Returns (mgr, true)
     ∧ session.get_session fixtures.cfg samples.loads mgr "s1"
         (fixtures.T0 + 5400 * MICROS)
       = Returns (Some (cache.JObject samples.session_data)))
  ∧ (∃ mgr,
       session.delete_session fixtures.cfg (fixtures.up samples.sessions)
         "s1" (fixtures.T0 + 1800 * MICROS) = Returns (mgr, true)
       ∧ session.get_session fixtures.cfg samples.loads mgr "s1"
           (fixtures.T0 + 5400 * MICROS) = Returns None).
Proof.
  destruct (extend_and_delete_session fixtures.cfg samples.loads
              samples.sessions "s1" None (fixtures.T0 + 1800 * MICROS)
              (fixtures.T0 + 5400 * MICROS) "{session}"
              (Some (fixtures.T0 + 3600 * MICROS)) samples.session_data)
    as [(mgr & Hrun & Hin & _) Hdel].
  - unfold MICROS. lia.
  - reflexivity.
  - vm_compute. reflexivity.
  - vm_compute. reflexivity.
  - split; [|exact Hdel].
    exists mgr. split; [exact Hrun|]. apply Hin. simpl. lia.
Defined.

Lemma reset_token_round_trip_witness :
  tokens.verify_password_reset_token fixtures.cfg samples.decode
    (auth.create_password_reset_token fixtures.cfg samples.encode
       "ann@example.com" None fixtures.T0) (fixtures.T0 + 60 * MICROS)
  = Returns (Some (VStr "ann@example.com")).
Proof.
  apply (reset_token_round_trip fixtures.cfg samples.encode samples.decode
           samples_decode_encode "ann@example.com" None fixtures.T0
           (fixtures.T0 + 60 * MICROS) samples.reset_claims).
  vm_compute. reflexivity.
Defined.

Lemma reset_tokens_confined_witness :
  tokens.verify_password_reset_token fixtures.cfg samples.decode "tok.access"
    (fixtures.T0 + 60 * MICROS) = Returns None
  ∧ tokens.verify_password_reset_token fixtures.cfg samples.decode
      "tok.refresh" (fixtures.T0 + 60 * MICROS) = Returns None
  ∧ (∃ detail,
       api.get_current_user_token fixtures.cfg samples.decode
         fixtures.str_of_exception (fixtures.up ∅) "tok.reset"
         (fixtures.T0 + 60 * MICROS)
       = Raises (HTTPException 401 detail))
  ∧ api.refresh_token fixtures.cfg samples.encode samples.decode
      fixtures.parse_int "tok.reset" fixtures.users_db
      (fixtures.T0 + 60 * MICROS)
    = Raises (HTTPException 401 "Invalid token type").
Proof.
  destruct (reset_tokens_confined fixtures.cfg samples.encode samples.decode
              fixtures.str_of_exception fixtures.parse_int
              samples_decode_encode 7 (Some fixtures.ann_identity)
              "ann@example.com" None fixtures.T0
              (fixtures.T0 + 60 * MICROS) (fixtures.up ∅) fixtures.users_db)
    as (Ha & Hr & Hp).
  split; [apply (Ha fixtures.access_claims); vm_compute; reflexivity|].
  split; [apply (Hr fixtures.refresh_claims); vm_compute; reflexivity|].
  apply (Hp samples.reset_claims). vm_compute. reflexivity.
Defined.

Lemma get_current_user_id_takes_refresh_token_witness :
  tokens.get_current_user_id fixtures.cfg samples.decode fixtures.parse_int
    "tok.refresh" (fixtures.T0 + 60 * MICROS) = Returns 7.
Proof.
  apply (get_current_user_id_takes_refresh_token fixtures.cfg samples.encode
           samples.decode fixtures.parse_int samples_decode_encode 7
           (Some fixtures.ann_identity) fixtures.T0
           (fixtures.T0 + 60 * MICROS) fixtures.refresh_claims).
  - vm_compute. reflexivity.
  - vm_compute. reflexivity.
Defined.

Lemma revoked_token_is_refused_witness :
  ∃ mgr,
    auth.revoke_token fixtures.cfg fixtures.decode (fixtures.up ∅)
      "tok.access" (fixtures.T0 + 60 * MICROS) = Returns (mgr, true)
    ∧ auth.is_token_revoked mgr "tok.access" (fixtures.T0 + 1800 * MICROS)
      = Returns true
    ∧ api.get_current_user_token fixtures.cfg fixtures.decode
        fixtures.str_of_exception mgr "tok.access"
        (fixtures.T0 + 1800 * MICROS)
      = Raises (HTTPException 401
                  (fixtures.str_of_exception 401 "Token has been revoked")).
Proof.
  destruct (revoked_token_is_refused fixtures.cfg fixtures.decode
              fixtures.str_of_exception ∅ "tok.access"
              (fixtures.T0 + 60 * MICROS) fixtures.access_claims
              (fixtures.T0 + 1800 * MICROS) (fixtures.T0 + 1800 * MICROS))
    as (mgr & Hrun & Hin & _).
  - reflexivity.
  - vm_compute. reflexivity.
  - vm_compute. reflexivity.
  - reflexivity.
  - unfold MICROS. lia.
  - exists mgr. split; [exact Hrun|]. apply Hin. reflexivity.
Defined.

Lemma rate_limit_sliding_window_witness :
  ∃ ks',
    redis.rate_limit fixtures.cfg (fixtures.up samples.past_requests)
      "api_requests" 2 60 "10.0.0.1" fixtures.T0
      = Returns (fixtures.up ks', (true, 0, 1700000060))
    ∧ redis.zset_at ks' "app:rate_limit:api_requests:10.0.0.1" fixtures.T0
      = Returns {[ 1699999990 := 1699999990; 1700000000 := 1700000000 ]}.
Proof.
  destruct (rate_limit_sliding_window fixtures.cfg samples.past_requests
              "api_requests" 2 60 "10.0.0.1" fixtures.T0
              {[ 1699999900 := 1699999900; 1699999990 := 1699999990 ]})
    as (ks' & Hrun & Hleft).
  - reflexivity.
  - vm_compute. reflexivity.
  - intros k score. rewrite lookup_insert_Some, lookup_singleton_Some.
    intros [[_ <-]|[_ [_ <-]]]; done.
  - exists ks'. split.
    + rewrite Hrun. vm_compute. reflexivity.
    + etrans; [exact Hleft|]. vm_compute. reflexivity.
Defined.

Lemma samples_registry_size :
  size (websocket.connection_metadata (websocket.manager samples.registry))
  = 3%nat.
Proof. vm_compute. reflexivity. Qed.

Lemma samples_registry_names_user :
  connections.names_user (websocket.manager samples.registry).
Proof.
  intros ws md. unfold samples.registry. simpl.
  rewrite !lookup_insert_Some, lookup_singleton_Some.
  intros [[_ <-]|[_ [[_ <-]|[_ [_ <-]]]]]; by eexists.
Qed.

Lemma manager_calls_return_witness :
  is_Some (websocket.connect samples.alive fixtures.iso 5 fixtures.T0
             4%positive 7 None samples.registry)
  ∧ is_Some (websocket.disconnect samples.alive fixtures.iso 5 fixtures.T0
               4%positive samples.registry)
  ∧ is_Some (websocket.broadcast_to_user samples.alive fixtures.iso 5
               fixtures.T0 7 {[ "type" := VStr "ping" ]} None
               samples.registry)
  ∧ is_Some (connections.send_personal_message samples.alive fixtures.iso 5
               fixtures.T0 {[ "type" := VStr "ping" ]} 4%positive
               samples.registry).
Proof.
  apply (manager_calls_return samples.alive fixtures.iso 5 fixtures.T0
           4%positive 7 {[ "type" := VStr "ping" ]} None None
           samples.registry).
  rewrite samples_registry_size. lia.
Defined.

Lemma disconnect_unregisters_witness :
  ∃ w',
    websocket.disconnect samples.alive fixtures.iso 4 fixtures.T0 1%positive
      samples.registry = Some w'
    ∧ websocket.connection_metadata (websocket.manager w') !! 1%positive
      = None
    ∧ (∀ u conns,
         websocket.user_key (Py.get (samples.metadata_for 7) "user_id")
           = Some u →
         websocket.active_connections (websocket.manager w') !! u
           = Some conns →
         1%positive ∉ conns)
    ∧ (size (websocket.connection_metadata (websocket.manager w'))
       < size (websocket.connection_metadata
                 (websocket.manager samples.registry)))%nat
    ∧ connections.names_user (websocket.manager w')
    ∧ ∀ fuel' now',
        websocket.disconnect samples.alive fixtures.iso (S fuel') now'
          1%positive w' = Some w'.
Proof.
  apply (disconnect_unregisters samples.alive fixtures.iso 4 fixtures.T0
           1%positive (samples.metadata_for 7) samples.registry).
  - exact samples_registry_names_user.
  - vm_compute. reflexivity.
  - rewrite samples_registry_size. lia.
Defined.

Lemma broadcast_to_user_reaches_and_drops_witness :
  ∃ w' notices,
    websocket.broadcast_to_user samples.alive fixtures.iso 4 fixtures.T0 7
      {[ "type" := VStr "ping" ]} None samples.registry = Some w'
    ∧ websocket.delivered w'
      = [] ++ [(2%positive, {[ "type" := VStr "ping" ]})] ++ notices
    ∧ Forall (λ p, samples.alive p.1 = true) notices
    ∧ (websocket.active_connections (websocket.manager samples.registry) !! 7
         = None → notices = [])
    ∧ (∀ ws, ws ∈ [1%positive] →
             websocket.connection_metadata (websocket.manager w') !! ws
             = None)
    ∧ connections.names_user (websocket.manager w').
Proof.
  apply (broadcast_to_user_reaches_and_drops samples.alive fixtures.iso 4
           fixtures.T0 7 {[ "type" := VStr "ping" ]} None samples.registry).
  - exact samples_registry_names_user.
  - rewrite samples_registry_size. lia.
Defined.

Lemma no_empty_entry_kept_witness :
  connections.no_empty_entry websocket.init
  ∧ (∃ w', websocket.connect samples.alive fixtures.iso 5 fixtures.T0
             4%positive 7 None samples.registry = Some w'
           ∧ connections.no_empty_entry (websocket.manager w'))
  ∧ (∃ w', websocket.disconnect samples.alive fixtures.iso 5 fixtures.T0
             4%positive samples.registry = Some w'
           ∧ connections.no_empty_entry (websocket.manager w'))
  ∧ (∃ w', websocket.broadcast_to_user samples.alive fixtures.iso 5
             fixtures.T0 7 {[ "type" := VStr "ping" ]} None samples.registry
             = Some w'
           ∧ connections.no_empty_entry (websocket.manager w'))
  ∧ (∃ w', connections.send_personal_message samples.alive fixtures.iso 5
             fixtures.T0 {[ "type" := VStr "ping" ]} 4%positive
             samples.registry = Some w'
           ∧ connections.no_empty_entry (websocket.manager w')).
Proof.
  apply (no_empty_entry_kept samples.alive fixtures.iso 5 fixtures.T0
           4%positive 7 {[ "type" := VStr "ping" ]} None None
           samples.registry).
  - intros u conns. unfold samples.registry. simpl.
    rewrite lookup_insert_Some, lookup_singleton_Some.
    intros [[_ <-]|[_ [_ <-]]]; done.
  - rewrite samples_registry_size. lia.
Defined.

Lemma revoked_token_opens_websocket_witness :
  ∃ mgr,
    auth.revoke_token fixtures.cfg fixtures.decode (fixtures.up ∅)
      "tok.access" (fixtures.T0 + 60 * MICROS) = Returns (mgr, true)
    ∧ api.get_current_user_token fixtures.cfg fixtures.decode
        fixtures.str_of_exception mgr "tok.access"
        (fixtures.T0 + 120 * MICROS)
      = Raises (HTTPException 401
                  (fixtures.str_of_exception 401 "Token has been revoked"))
    ∧ websocket.authenticate_websocket fixtures.cfg fixtures.decode
        fixtures.parse_int None (Some "tok.access")
        (fixtures.T0 + 120 * MICROS)
      = websocket.Authenticated
          {| websocket.mock_id := 7;
             websocket.mock_email := VStr "ann@example.com";
             websocket.mock_username := VStr "ann";
             websocket.mock_is_active := true |}.
Proof.
  apply (revoked_token_opens_websocket fixtures.cfg fixtures.decode
           fixtures.str_of_exception fixtures.parse_int ∅ "tok.access"
           (fixtures.T0 + 60 * MICROS) fixtures.access_claims
           (fixtures.T0 + 1800 * MICROS) (fixtures.T0 + 120 * MICROS) 7).
  - reflexivity.
  - discriminate.
  - vm_compute. reflexivity.
  - vm_compute. reflexivity.
  - reflexivity.
  - reflexivity.
  - vm_compute. reflexivity.
  - vm_compute. reflexivity.
  - vm_compute. reflexivity.
Defined.

Lemma sanitize_filename_safe_witness :
  input_sanitizer.sanitize_filename samples.long_name
  = input_sanitizer.str (replicate 251 (Ascii.ascii_of_nat 97)) +:+ ".txt"
  ∧ Forall (λ c, c ≠ Ascii.ascii_of_nat 47 ∧ c ≠ Ascii.ascii_of_nat 92
                 ∧ c ≠ Ascii.zero)
      (input_sanitizer.chars
         (input_sanitizer.sanitize_filename samples.long_name))
  ∧ (length (input_sanitizer.chars
               (input_sanitizer.sanitize_filename samples.long_name))
     ≤ 255)%nat
  ∧ head (input_sanitizer.chars
            (input_sanitizer.sanitize_filename samples.long_name))
    ≠ Some (Ascii.ascii_of_nat 46).
Proof.
  split; [vm_compute; reflexivity|].
  destruct (sanitize_filename_safe samples.long_name) as [Hsafe Hlen].
  - vm_compute. reflexivity.
  - split; [exact Hsafe|]. apply Hlen.
    intros name ext Hr. vm_compute in Hr. injection Hr as <- <-.
    simpl. lia.
Defined.

Lemma sanitize_filename_long_extension_witness :
  input_sanitizer.chars
    (input_sanitizer.sanitize_filename samples.long_extension)
  = Ascii.ascii_of_nat 46 :: replicate 254 (Ascii.ascii_of_nat 98).
Proof.
  apply (proj1 (sanitize_filename_long_extension samples.long_extension
                  [Ascii.ascii_of_nat 97]
                  (replicate 254 (Ascii.ascii_of_nat 98))
                  ltac:(vm_compute; reflexivity)
                  ltac:(vm_compute; reflexivity)
                  ltac:(vm_compute; lia))).
  vm_compute. reflexivity.
Defined.

Lemma validate_file_type_last_extension_witness :
  input_sanitizer.validate_file_type "holiday.tar.JPG" ["jpg"; "PNG"] = true
  ∧ input_sanitizer.validate_file_type "README" ["jpg"; "PNG"] = false.
Proof.
  destruct (validate_file_type_last_extension "holiday.tar" "JPG"
              ["jpg"; "PNG"]) as [Hext _]; [reflexivity..|].
  destruct (validate_file_type_last_extension "README" "" ["jpg"; "PNG"])
    as [_ Hnone]; [reflexivity..|].
  split.
  - etrans; [apply Hext|reflexivity].
    intros Hin. vm_compute in Hin. by repeat (apply elem_of_cons in Hin as [?|Hin]; [done|]);
      apply elem_of_nil in Hin.
  - etrans; [apply Hnone|reflexivity]; [|done].
    intros Hin. vm_compute in Hin. by repeat (apply elem_of_cons in Hin as [?|Hin]; [done|]);
      apply elem_of_nil in Hin.
Defined.

Lemma validate_refuses_common_patterns_witness :
  (password_validator.validate samples.lax_validator "My-QwErTy-99").1
  = false
  ∧ last (password_validator.validate samples.lax_validator
            "My-QwErTy-99").2
    = Some "Password contains common patterns and is too weak".
Proof.
  apply (validate_refuses_common_patterns samples.lax_validator
           "My-QwErTy-99"); [reflexivity|].
  right. exists "qwerty", "My-", "QwErTy", "-99".
  split; [|split; reflexivity].
  apply elem_of_cons. right. apply elem_of_cons. right.
  apply elem_of_cons. by left.
Defined.
